(** * proofofthought: the structured program schema and the program generator

    A shallow embedding of [z3dsl/reasoning/structured_program.py] and
    [z3dsl/reasoning/program_generator.py].

    - [Json]: the untyped documents handed to the schema and the dicts
      handed to the interpreter.
    - [Pydantic]: what the class declarations mean when a document is
      validated (field types, defaults, [extra]).
    - one module per schema class, with its record, its [model_validate]
      and its [dump_model] ([model_dump(mode="python", exclude_none=True)]).
    - [StructuredProgram.to_dsl_dict].
    - [Store]: the same [to_dsl_dict] over a store of mutable objects, for
      the properties that depend on object identity.
    - [Generator]: [Z3ProgramGenerator], with the client as an oracle and
      the requests it receives recorded in order.
    - [Audited]: [AuditedProofOfThought] of
      [examples/with_second_llm_verification.py], the generator with an
      auditor in front of the verifier. *)

From stdpp Require Import base list strings.
From Stdlib Require Import Ascii ZArith QArith DecimalString.
Close Scope Q_scope.
Open Scope string_scope.
Open Scope list_scope.
Open Scope nat_scope.

(** ** Documents *)

Module Json.

(** A document as [json.loads] produces it.  Objects keep their entries
    in insertion order, as Python dicts do. *)
#[local] Unset Elimination Schemes.
Inductive t : Type :=
| JNull
| JBool (b : bool)
| JInt (z : Z)
| JFloat (q : Q)
| JStr (s : string)
| JArr (items : list t)
| JObj (entries : list (string * t)).

#[local] Set Elimination Schemes.

Definition obj := list (string * t).

(** [d.get(k)]: the entry stored under [k]. *)
Fixpoint get {A} (k : string) (o : list (string * A)) : option A :=
  match o with
  | [] => None
  | (k', v) :: o' => if String.eqb k k' then Some v else get k o'
  end.

Definition keys {A} (o : list (string * A)) : list string := o.*1.

(** Python truthiness, the test of [if x:]. *)
Definition truthy (j : t) : bool :=
  match j with
  | JNull => false
  | JBool b => b
  | JInt z => negb (Z.eqb z 0)
  | JFloat q => negb (Qeq_bool q 0)
  | JStr s => negb (String.eqb s "")
  | JArr items => match items with [] => false | _ => true end
  | JObj entries => match entries with [] => false | _ => true end
  end.

Definition strs (l : list string) : t := JArr (JStr <$> l).

End Json.
Import Json.

(** ** Validation as pydantic performs it *)

Module Pydantic.

(** The [extra] setting of [model_config]. *)
Inductive extra := ignore | allow | forbid.

Inductive error_kind :=
| missing | extra_forbidden | model_type | string_type | bool_parsing
| list_type | dict_type | literal_error.

(** One line of a [ValidationError]: where, and what.  pydantic reports
    every violation of a document; the first one is kept here, which is
    enough to tell an accepted document from a rejected one. *)
Record ValidationError := { loc : list string; kind : error_kind }.

Inductive result (A : Type) :=
| Ok (a : A)
| Err (e : ValidationError).
Arguments Ok {A} a.
Arguments Err {A} e.

Definition is_ok {A} (r : result A) : bool :=
  match r with Ok _ => true | Err _ => false end.

Definition raise {A} (k : error_kind) : result A :=
  Err {| loc := []; kind := k |}.

(** Prefix the location of an error with the field it was found under. *)
Definition at_loc {A} (k : string) (r : result A) : result A :=
  match r with
  | Ok a => Ok a
  | Err e => Err {| loc := k :: loc e; kind := kind e |}
  end.

#[global] Instance result_ret : MRet result := λ A a, Ok a.
#[global] Instance result_bind : MBind result := λ A B f r,
  match r with Ok a => f a | Err e => Err e end.
#[global] Instance result_fmap : FMap result := λ A B f r,
  match r with Ok a => Ok (f a) | Err e => Err e end.

Section types.
Context {A : Type} (v : Json.t → result A).

(** [List[A]] *)
Fixpoint validate_items (items : list Json.t) : result (list A) :=
  match items with
  | [] => Ok []
  | j :: items' =>
      a ← v j; l ← validate_items items'; Ok (a :: l)
  end.

Definition list_of (j : Json.t) : result (list A) :=
  match j with
  | JArr items => validate_items items
  | _ => raise list_type
  end.

(** [Dict[str, A]] *)
Fixpoint validate_entries (entries : Json.obj) : result (list (string * A)) :=
  match entries with
  | [] => Ok []
  | (k, j) :: entries' =>
      a ← at_loc k (v j); l ← validate_entries entries'; Ok ((k, a) :: l)
  end.

Definition dict_of (j : Json.t) : result (list (string * A)) :=
  match j with
  | JObj entries => validate_entries entries
  | _ => raise dict_type
  end.

(** [Optional[A]] *)
Definition optional (j : Json.t) : result (option A) :=
  match j with
  | JNull => Ok None
  | _ => Some <$> v j
  end.

(** A field without default: [k: A]. *)
Definition required (k : string) (o : Json.obj) : result A :=
  match Json.get k o with
  | Some j => at_loc k (v j)
  | None => at_loc k (raise missing)
  end.

(** A field with a default: [k: A = d], [k: A = Field(default_factory=...)]. *)
Definition defaulted (k : string) (d : A) (o : Json.obj) : result A :=
  match Json.get k o with
  | Some j => at_loc k (v j)
  | None => Ok d
  end.
End types.

(** [str]: only a string is one. *)
Definition str (j : Json.t) : result string :=
  match j with
  | JStr s => Ok s
  | _ => raise string_type
  end.

Definition lower (c : Ascii.ascii) : Ascii.ascii :=
  let n := Ascii.nat_of_ascii c in
  if (65 <=? n)%nat && (n <=? 90)%nat then Ascii.ascii_of_nat (n + 32) else c.

Fixpoint lowercase (s : string) : string :=
  match s with
  | EmptyString => EmptyString
  | String c s' => String (lower c) (lowercase s')
  end.

Definition one_of (l : list string) (s : string) : bool :=
  existsb (String.eqb s) l.

(** [bool] in lax mode: a boolean, the numbers 0 and 1, and the usual
    spellings of yes and no in any case. *)
Definition bool_ (j : Json.t) : result bool :=
  match j with
  | JBool b => Ok b
  | JInt z =>
      if Z.eqb z 0 then Ok false else if Z.eqb z 1 then Ok true
      else raise bool_parsing
  | JFloat q =>
      if Qeq_bool q 0 then Ok false else if Qeq_bool q 1 then Ok true
      else raise bool_parsing
  | JStr s =>
      if one_of ["0"; "off"; "f"; "false"; "n"; "no"] (lowercase s) then Ok false
      else if one_of ["1"; "on"; "t"; "true"; "y"; "yes"] (lowercase s) then Ok true
      else raise bool_parsing
  | _ => raise bool_parsing
  end.

(** [Literal[...]] of strings. *)
Definition literal (allowed : list string) (j : Json.t) : result string :=
  match j with
  | JStr s => if one_of allowed s then Ok s else raise literal_error
  | _ => raise literal_error
  end.

(** A model is validated from a mapping. *)
Definition model (j : Json.t) : result Json.obj :=
  match j with
  | JObj entries => Ok entries
  | _ => raise model_type
  end.

(** The keys of the document that are not fields of the model. *)
Definition unknown_keys (fields : list string) (o : Json.obj) : list string :=
  filter (λ k, k ∉ fields) (Json.keys o).

Definition check_extra (cfg : extra) (fields : list string) (o : Json.obj)
  : result unit :=
  match cfg with
  | forbid =>
      match unknown_keys fields o with
      | [] => Ok tt
      | k :: _ => at_loc k (raise extra_forbidden)
      end
  | ignore | allow => Ok tt
  end.

(** Keep the fields that are set: [exclude_none=True]. *)
Definition exclude_none (fields : list (string * option Json.t)) : Json.obj :=
  omap (λ kv, pair kv.1 <$> kv.2) fields.

End Pydantic.
Import Pydantic.

(** ** The schema classes

    Each class of [structured_program.py] is a module: the record of its
    fields, its [model_config], the validation of a document into the
    record, and [dump_model], the dict that
    [model_dump(mode="python", exclude_none=True)] builds from it. *)

Module SortDefinition.
Record t := mk {
  name : string;
  type : string;
  values : option (list string);
  description : option string }.

Definition model_config : extra := forbid.
Definition fields : list string := ["name"; "type"; "values"; "description"].

Definition model_validate (j : Json.t) : result t :=
  o ← model j;
  _ ← check_extra model_config fields o;
  name ← required str "name" o;
  type ← required str "type" o;
  values ← defaulted (optional (list_of str)) "values" None o;
  description ← defaulted (optional str) "description" None o;
  Ok (mk name type values description).

Definition dump_model (x : t) : Json.obj :=
  exclude_none [
    ("name", Some (JStr (name x)));
    ("type", Some (JStr (type x)));
    ("values", Json.strs <$> values x);
    ("description", JStr <$> description x) ].
End SortDefinition.

Module FunctionDefinition.
Record t := mk {
  name : string;
  domain : list string;
  range : string;
  description : option string }.

Definition model_config : extra := forbid.
Definition fields : list string := ["name"; "domain"; "range"; "description"].

Definition model_validate (j : Json.t) : result t :=
  o ← model j;
  _ ← check_extra model_config fields o;
  name ← required str "name" o;
  domain ← required (list_of str) "domain" o;
  range ← required str "range" o;
  description ← defaulted (optional str) "description" None o;
  Ok (mk name domain range description).

Definition dump_model (x : t) : Json.obj :=
  exclude_none [
    ("name", Some (JStr (name x)));
    ("domain", Some (Json.strs (domain x)));
    ("range", Some (JStr (range x)));
    ("description", JStr <$> description x) ].
End FunctionDefinition.

Module VariableDefinition.
Record t := mk {
  name : string;
  sort : string;
  description : option string }.

Definition model_config : extra := forbid.
Definition fields : list string := ["name"; "sort"; "description"].

Definition model_validate (j : Json.t) : result t :=
  o ← model j;
  _ ← check_extra model_config fields o;
  name ← required str "name" o;
  sort ← required str "sort" o;
  description ← defaulted (optional str) "description" None o;
  Ok (mk name sort description).

Definition dump_model (x : t) : Json.obj :=
  exclude_none [
    ("name", Some (JStr (name x)));
    ("sort", Some (JStr (sort x)));
    ("description", JStr <$> description x) ].
End VariableDefinition.

Module KnowledgeAssertion.
Record t := mk {
  assertion : string;
  value : bool;
  description : option string }.

Definition model_config : extra := forbid.
Definition fields : list string := ["assertion"; "value"; "description"].

Definition model_validate (j : Json.t) : result t :=
  o ← model j;
  _ ← check_extra model_config fields o;
  assertion ← required str "assertion" o;
  value ← defaulted bool_ "value" true o;
  description ← defaulted (optional str) "description" None o;
  Ok (mk assertion value description).

Definition dump_model (x : t) : Json.obj :=
  exclude_none [
    ("assertion", Some (JStr (assertion x)));
    ("value", Some (JBool (value x)));
    ("description", JStr <$> description x) ].
End KnowledgeAssertion.

(** [KnowledgeEntry = Union[str, KnowledgeAssertion]] *)
Module KnowledgeEntry.
Inductive t :=
| Bare (s : string)
| Assertion (a : KnowledgeAssertion.t).

(** A string is taken as it is; anything else has to be a
    [KnowledgeAssertion]. *)
Definition validate (j : Json.t) : result t :=
  match j with
  | JStr s => Ok (Bare s)
  | _ => Assertion <$> KnowledgeAssertion.model_validate j
  end.
End KnowledgeEntry.

Module QuantifiedVariable.
Record t := mk {
  name : string;
  sort : string }.

Definition model_config : extra := forbid.
Definition fields : list string := ["name"; "sort"].

Definition model_validate (j : Json.t) : result t :=
  o ← model j;
  _ ← check_extra model_config fields o;
  name ← required str "name" o;
  sort ← required str "sort" o;
  Ok (mk name sort).

Definition dump_model (x : t) : Json.obj :=
  exclude_none [
    ("name", Some (JStr (name x)));
    ("sort", Some (JStr (sort x))) ].
End QuantifiedVariable.

Module RuleImplication.
Record t := mk {
  antecedent : string;
  consequent : string }.

Definition model_config : extra := forbid.
Definition fields : list string := ["antecedent"; "consequent"].

Definition model_validate (j : Json.t) : result t :=
  o ← model j;
  _ ← check_extra model_config fields o;
  antecedent ← required str "antecedent" o;
  consequent ← required str "consequent" o;
  Ok (mk antecedent consequent).

Definition dump_model (x : t) : Json.obj :=
  exclude_none [
    ("antecedent", Some (JStr (antecedent x)));
    ("consequent", Some (JStr (consequent x))) ].
End RuleImplication.

Module RuleDefinition.
Record t := mk {
  name : option string;
  forall_ : option (list QuantifiedVariable.t);
  implies : option RuleImplication.t;
  constraint : option string;
  description : option string }.

Definition model_config : extra := forbid.
Definition fields : list string :=
  ["name"; "forall"; "implies"; "constraint"; "description"].

Definition model_validate (j : Json.t) : result t :=
  o ← model j;
  _ ← check_extra model_config fields o;
  name ← defaulted (optional str) "name" None o;
  forall_ ← defaulted (optional (list_of QuantifiedVariable.model_validate))
              "forall" None o;
  implies ← defaulted (optional RuleImplication.model_validate) "implies" None o;
  constraint ← defaulted (optional str) "constraint" None o;
  description ← defaulted (optional str) "description" None o;
  Ok (mk name forall_ implies constraint description).

Definition dump_model (x : t) : Json.obj :=
  exclude_none [
    ("name", JStr <$> name x);
    ("forall", (λ l, JArr (JObj ∘ QuantifiedVariable.dump_model <$> l)) <$> forall_ x);
    ("implies", JObj ∘ RuleImplication.dump_model <$> implies x);
    ("constraint", JStr <$> constraint x);
    ("description", JStr <$> description x) ].
End RuleDefinition.

Module VerificationImplication.
Record t := mk {
  antecedent : string;
  consequent : string }.

Definition model_config : extra := forbid.
Definition fields : list string := ["antecedent"; "consequent"].

Definition model_validate (j : Json.t) : result t :=
  o ← model j;
  _ ← check_extra model_config fields o;
  antecedent ← required str "antecedent" o;
  consequent ← required str "consequent" o;
  Ok (mk antecedent consequent).

Definition dump_model (x : t) : Json.obj :=
  exclude_none [
    ("antecedent", Some (JStr (antecedent x)));
    ("consequent", Some (JStr (consequent x))) ].
End VerificationImplication.

Module VerificationDefinition.
Record t := mk {
  name : option string;
  constraint : option string;
  exists_ : option (list QuantifiedVariable.t);
  forall_ : option (list QuantifiedVariable.t);
  implies : option VerificationImplication.t;
  description : option string }.

Definition model_config : extra := forbid.
Definition fields : list string :=
  ["name"; "constraint"; "exists"; "forall"; "implies"; "description"].

Definition model_validate (j : Json.t) : result t :=
  o ← model j;
  _ ← check_extra model_config fields o;
  name ← defaulted (optional str) "name" None o;
  constraint ← defaulted (optional str) "constraint" None o;
  exists_ ← defaulted (optional (list_of QuantifiedVariable.model_validate))
              "exists" None o;
  forall_ ← defaulted (optional (list_of QuantifiedVariable.model_validate))
              "forall" None o;
  implies ← defaulted (optional VerificationImplication.model_validate)
              "implies" None o;
  description ← defaulted (optional str) "description" None o;
  Ok (mk name constraint exists_ forall_ implies description).

Definition dump_model (x : t) : Json.obj :=
  exclude_none [
    ("name", JStr <$> name x);
    ("constraint", JStr <$> constraint x);
    ("exists", (λ l, JArr (JObj ∘ QuantifiedVariable.dump_model <$> l)) <$> exists_ x);
    ("forall", (λ l, JArr (JObj ∘ QuantifiedVariable.dump_model <$> l)) <$> forall_ x);
    ("implies", JObj ∘ VerificationImplication.dump_model <$> implies x);
    ("description", JStr <$> description x) ].
End VerificationDefinition.

Module ObjectiveDefinition.
Record t := mk {
  type : string;
  expression : string }.

Definition model_config : extra := forbid.
Definition fields : list string := ["type"; "expression"].

Definition model_validate (j : Json.t) : result t :=
  o ← model j;
  _ ← check_extra model_config fields o;
  type ← required (literal ["maximize"; "minimize"]) "type" o;
  expression ← required str "expression" o;
  Ok (mk type expression).

Definition dump_model (x : t) : Json.obj :=
  exclude_none [
    ("type", Some (JStr (type x)));
    ("expression", Some (JStr (expression x))) ].
End ObjectiveDefinition.

Module OptimizationConfig.
Record t := mk {
  variables : list VariableDefinition.t;
  constraints : list string;
  objectives : list ObjectiveDefinition.t;
  description : option string }.

Definition model_config : extra := forbid.
Definition fields : list string :=
  ["variables"; "constraints"; "objectives"; "description"].

Definition model_validate (j : Json.t) : result t :=
  o ← model j;
  _ ← check_extra model_config fields o;
  variables ← defaulted (list_of VariableDefinition.model_validate) "variables" [] o;
  constraints ← defaulted (list_of str) "constraints" [] o;
  objectives ← defaulted (list_of ObjectiveDefinition.model_validate) "objectives" [] o;
  description ← defaulted (optional str) "description" None o;
  Ok (mk variables constraints objectives description).

Definition dump_model (x : t) : Json.obj :=
  exclude_none [
    ("variables", Some (JArr (JObj ∘ VariableDefinition.dump_model <$> variables x)));
    ("constraints", Some (Json.strs (constraints x)));
    ("objectives", Some (JArr (JObj ∘ ObjectiveDefinition.dump_model <$> objectives x)));
    ("description", JStr <$> description x) ].
End OptimizationConfig.

Module ConstantDefinition.
(** [Union[List[str], Dict[str, str]]] *)
Inductive members_t :=
| MemberList (l : list string)
| MemberDict (d : list (string * string)).

Record t := mk {
  sort : string;
  members : members_t;
  description : option string }.

Definition model_config : extra := forbid.
Definition fields : list string := ["sort"; "members"; "description"].

Definition validate_members (j : Json.t) : result members_t :=
  match j with
  | JObj _ => MemberDict <$> dict_of str j
  | _ => MemberList <$> list_of str j
  end.

Definition model_validate (j : Json.t) : result t :=
  o ← model j;
  _ ← check_extra model_config fields o;
  sort ← required str "sort" o;
  members ← required validate_members "members" o;
  description ← defaulted (optional str) "description" None o;
  Ok (mk sort members description).

Definition dump_members (m : members_t) : Json.t :=
  match m with
  | MemberList l => Json.strs l
  | MemberDict d => JObj (prod_map id JStr <$> d)
  end.

Definition dump_model (x : t) : Json.obj :=
  exclude_none [
    ("sort", Some (JStr (sort x)));
    ("members", Some (dump_members (members x)));
    ("description", JStr <$> description x) ].
End ConstantDefinition.

Module StructuredProgram.
Record t := mk {
  sorts : list SortDefinition.t;
  functions : list FunctionDefinition.t;
  constants : list (string * ConstantDefinition.t);
  variables : list VariableDefinition.t;
  knowledge_base : list KnowledgeEntry.t;
  rules : list RuleDefinition.t;
  verifications : list VerificationDefinition.t;
  optimization : option OptimizationConfig.t;
  actions : list string }.

Definition model_config : extra := forbid.
Definition fields : list string :=
  ["sorts"; "functions"; "constants"; "variables"; "knowledge_base"; "rules";
   "verifications"; "optimization"; "actions"].

Definition model_validate (j : Json.t) : result t :=
  o ← model j;
  _ ← check_extra model_config fields o;
  sorts ← defaulted (list_of SortDefinition.model_validate) "sorts" [] o;
  functions ← defaulted (list_of FunctionDefinition.model_validate) "functions" [] o;
  constants ← defaulted (dict_of ConstantDefinition.model_validate) "constants" [] o;
  variables ← defaulted (list_of VariableDefinition.model_validate) "variables" [] o;
  knowledge_base ← defaulted (list_of KnowledgeEntry.validate) "knowledge_base" [] o;
  rules ← defaulted (list_of RuleDefinition.model_validate) "rules" [] o;
  verifications ← defaulted (list_of VerificationDefinition.model_validate)
                    "verifications" [] o;
  optimization ← defaulted (optional OptimizationConfig.model_validate)
                   "optimization" None o;
  actions ← defaulted (list_of str) "actions" [] o;
  Ok (mk sorts functions constants variables knowledge_base rules verifications
        optimization actions).

(** The loop over [self.knowledge_base]: one append per entry. *)
Definition knowledge_step (knowledge_entries : list Json.t) (entry : KnowledgeEntry.t)
  : list Json.t :=
  match entry with
  | KnowledgeEntry.Assertion a =>
      knowledge_entries ++ [JObj (KnowledgeAssertion.dump_model a)]
  | KnowledgeEntry.Bare s => knowledge_entries ++ [JStr s]
  end.

Definition to_dsl_dict (self : t) : Json.obj :=
  let sorts_data := JObj ∘ SortDefinition.dump_model <$> sorts self in
  let functions_data := JObj ∘ FunctionDefinition.dump_model <$> functions self in
  let variables_data := JObj ∘ VariableDefinition.dump_model <$> variables self in
  let knowledge_entries := foldl knowledge_step [] (knowledge_base self) in
  let rules_data := JObj ∘ RuleDefinition.dump_model <$> rules self in
  let verifications_data :=
    JObj ∘ VerificationDefinition.dump_model <$> verifications self in
  let actions :=
    match actions self with
    | [] => ["verify_conditions"]
    | _ :: _ => actions self
    end in
  let program := [
    ("sorts", JArr sorts_data);
    ("functions", JArr functions_data);
    ("constants",
      JObj (prod_map id (JObj ∘ ConstantDefinition.dump_model) <$> constants self));
    ("variables", JArr variables_data);
    ("knowledge_base", JArr knowledge_entries);
    ("rules", JArr rules_data);
    ("verifications", JArr verifications_data);
    ("actions", Json.strs actions) ] in
  match optimization self with
  | Some opt => program ++ [("optimization", JObj (OptimizationConfig.dump_model opt))]
  | None => program
  end.
End StructuredProgram.

(** ** Keys outside the schema

    [Unknown.X j] tells whether the document [j], read as an [X], carries a
    key that is no field of [X], at its own level or in a definition nested
    in one of its fields. *)

Module Unknown.
Definition here (fields : list string) (o : Json.obj) : bool :=
  bool_decide (unknown_keys fields o ≠ []).

Definition in_list (f : Json.t → bool) (j : Json.t) : bool :=
  match j with
  | JArr items => existsb f items
  | _ => false
  end.

Definition in_dict (f : Json.t → bool) (j : Json.t) : bool :=
  match j with
  | JObj entries => existsb (f ∘ snd) entries
  | _ => false
  end.

Definition in_field (k : string) (f : Json.t → bool) (o : Json.obj) : bool :=
  match Json.get k o with
  | Some j => f j
  | None => false
  end.

Definition leaf (fields : list string) (j : Json.t) : bool :=
  match j with
  | JObj o => here fields o
  | _ => false
  end.

Definition SortDefinition := leaf SortDefinition.fields.
Definition FunctionDefinition := leaf FunctionDefinition.fields.
Definition VariableDefinition := leaf VariableDefinition.fields.
Definition KnowledgeAssertion := leaf KnowledgeAssertion.fields.
Definition QuantifiedVariable := leaf QuantifiedVariable.fields.
Definition RuleImplication := leaf RuleImplication.fields.
Definition VerificationImplication := leaf VerificationImplication.fields.
Definition ObjectiveDefinition := leaf ObjectiveDefinition.fields.
Definition ConstantDefinition := leaf ConstantDefinition.fields.

Definition RuleDefinition (j : Json.t) : bool :=
  match j with
  | JObj o =>
      here RuleDefinition.fields o
      || in_field "forall" (in_list QuantifiedVariable) o
      || in_field "implies" RuleImplication o
  | _ => false
  end.

Definition VerificationDefinition (j : Json.t) : bool :=
  match j with
  | JObj o =>
      here VerificationDefinition.fields o
      || in_field "exists" (in_list QuantifiedVariable) o
      || in_field "forall" (in_list QuantifiedVariable) o
      || in_field "implies" VerificationImplication o
  | _ => false
  end.

Definition OptimizationConfig (j : Json.t) : bool :=
  match j with
  | JObj o =>
      here OptimizationConfig.fields o
      || in_field "variables" (in_list VariableDefinition) o
      || in_field "objectives" (in_list ObjectiveDefinition) o
  | _ => false
  end.

Definition StructuredProgram (j : Json.t) : bool :=
  match j with
  | JObj o =>
      here StructuredProgram.fields o
      || in_field "sorts" (in_list SortDefinition) o
      || in_field "functions" (in_list FunctionDefinition) o
      || in_field "constants" (in_dict ConstantDefinition) o
      || in_field "variables" (in_list VariableDefinition) o
      || in_field "knowledge_base" (in_list KnowledgeAssertion) o
      || in_field "rules" (in_list RuleDefinition) o
      || in_field "verifications" (in_list VerificationDefinition) o
      || in_field "optimization" OptimizationConfig o
  | _ => false
  end.
End Unknown.

(** ** What a document declares *)

Module Document.
(** The entries a document lists under [k]. *)
Definition declared (k : string) (o : Json.obj) : list Json.t :=
  match Json.get k o with
  | Some (JArr items) => items
  | _ => []
  end.

(** The name an entry declares. *)
Definition name_of (j : Json.t) : option string :=
  match j with
  | JObj entry =>
      match Json.get "name" entry with
      | Some (JStr s) => Some s
      | _ => None
      end
  | _ => None
  end.

(** The names of the constant groups, the keys of [constants]. *)
Definition groups (o : Json.obj) : list string :=
  match Json.get "constants" o with
  | Some (JObj entries) => Json.keys entries
  | _ => []
  end.

(** [dumped entry j]: [j] is what a knowledge entry looks like in the
    interpreter format, the string itself or a dict with the assertion
    and its truth value. *)
Inductive dumped : KnowledgeEntry.t → Json.t → Prop :=
| dumped_bare s : dumped (KnowledgeEntry.Bare s) (JStr s)
| dumped_assertion a d :
    Json.get "assertion" d = Some (JStr (KnowledgeAssertion.assertion a)) →
    Json.get "value" d = Some (JBool (KnowledgeAssertion.value a)) →
    dumped (KnowledgeEntry.Assertion a) (JObj d).
End Document.

(** ** Dicts without [None]

    [without_none j]: no [None] in [j], at any depth. *)

Fixpoint without_none (j : Json.t) : bool :=
  match j with
  | JNull => false
  | JArr items => forallb without_none items
  | JObj entries => forallb (λ kv, without_none kv.2) entries
  | _ => true
  end.

(** ** The program generator *)

Module Generator.

(** *** Extracting the JSON of a response

    Text is a sequence of characters with code points below 256. *)

(** [\s]: the characters Python counts as white space. *)
Definition is_space (c : Ascii.ascii) : bool :=
  bool_decide (Ascii.nat_of_ascii c ∈ [9; 10; 11; 12; 13; 28; 29; 30; 31; 32; 133; 160]%nat).

(** [\s*]: greedy; what follows in both patterns is no white space, so the
    whole run is taken. *)
Fixpoint skip_space (s : string) : string :=
  match s with
  | String c s' => if is_space c then skip_space s' else s
  | EmptyString => EmptyString
  end.

Fixpoint strip_prefix (p s : string) : option string :=
  match p, s with
  | EmptyString, _ => Some s
  | String a p', String b s' => if Ascii.eqb a b then strip_prefix p' s' else None
  | String _ _, EmptyString => None
  end.

(** [\s*```] *)
Definition closes (s : string) : bool :=
  bool_decide (is_Some (strip_prefix "```" (skip_space s))).

(** [[\s\S]*?\}] followed by [\s*```]: the shortest run of characters up
    to a closing brace after which the fence closes.  Returns the run with
    its brace. *)
Fixpoint lazy_body (s : string) : option string :=
  match s with
  | EmptyString => None
  | String c s' =>
      if Ascii.eqb c "}"%char && closes s' then Some (String c EmptyString)
      else String c <$> lazy_body s'
  end.

(** The pattern [```json\s*(\{[\s\S]*?\})\s*```] tried at the start of
    [s]: group 1 of the match. *)
Definition fenced_at (s : string) : option string :=
  match strip_prefix "```json" s with
  | Some r =>
      match skip_space r with
      | String c body => if Ascii.eqb c "{"%char then String c <$> lazy_body body else None
      | EmptyString => None
      end
  | None => None
  end.

(** [re.search(json_pattern, s)]: the leftmost position where the pattern
    matches. *)
Fixpoint search_fenced (s : string) : option string :=
  match fenced_at s with
  | Some g => Some g
  | None =>
      match s with
      | String _ s' => search_fenced s'
      | EmptyString => None
      end
  end.

(** [[\s\S]*\}]: greedy, the longest run ending in a closing brace. *)
Fixpoint upto_last_brace (s : string) : option string :=
  match s with
  | EmptyString => None
  | String c s' =>
      match upto_last_brace s' with
      | Some r => Some (String c r)
      | None => if Ascii.eqb c "}"%char then Some (String c EmptyString) else None
      end
  end.

(** The pattern [\{[\s\S]*\}] tried at the start of [s]: group 0. *)
Definition braces_at (s : string) : option string :=
  match s with
  | String c s' => if Ascii.eqb c "{"%char then String c <$> upto_last_brace s' else None
  | EmptyString => None
  end.

(** [re.search(brace_pattern, s)] *)
Fixpoint search_braces (s : string) : option string :=
  match braces_at s with
  | Some g => Some g
  | None =>
      match s with
      | String _ s' => search_braces s'
      | EmptyString => None
      end
  end.

(** A run of white space. *)
Fixpoint all_space (s : string) : bool :=
  match s with
  | EmptyString => true
  | String c s' => is_space c && all_space s'
  end.

(** The character [c] occurs in [s]. *)
Fixpoint has (c : Ascii.ascii) (s : string) : bool :=
  match s with
  | EmptyString => false
  | String c' s' => Ascii.eqb c' c || has c s'
  end.

(** [json_block text content]: [text] holds a fenced code block, opened
    by [```json] and closed by the next [```], with [content] in between. *)
Definition json_block (text content : string) : Prop :=
  ∃ pre post,
    text = pre +:+ "```json" +:+ content +:+ "```" +:+ post
    ∧ has "`" content = false.

(** [fenced_match text pre g]: the fenced pattern matches [text] right
    after [pre], with [g] as its group 1: the text goes on with [```json],
    white space, [g], which is an opening brace through a closing brace,
    white space and [```]. *)
Definition fenced_match (text pre g : string) : Prop :=
  ∃ ws1 body ws2 post,
    text = pre +:+ "```json" +:+ ws1 +:+ g +:+ ws2 +:+ "```" +:+ post
    ∧ all_space ws1 = true ∧ all_space ws2 = true
    ∧ g = "{" +:+ body +:+ "}".

(** [fenced text g]: [g] is group 1 of the match a search for the fenced
    pattern finds in [text]: of all matches the one that starts first,
    and of those that start there the shortest. *)
Definition fenced (text g : string) : Prop :=
  ∃ pre,
    fenced_match text pre g
    ∧ ∀ pre' g',
        fenced_match text pre' g' →
        String.length pre < String.length pre'
        ∨ (pre' = pre ∧ String.length g ≤ String.length g').

(** [braced text g]: [g] is [text] from its first opening brace through
    its last closing brace. *)
Definition braced (text g : string) : Prop :=
  ∃ pre mid post,
    text = pre +:+ g +:+ post
    ∧ g = "{" +:+ mid +:+ "}"
    ∧ has "{" pre = false ∧ has "}" post = false.

Record message := { role : string; content : string }.

Definition STRUCTURED_SYSTEM_PROMPT : string :=
  "You are an assistant that produces Z3 DSL programs. "
  +:+ "Always respond with JSON that matches the provided schema.".

Record GenerationResult := {
  json_program : option Json.t;
  raw_response : string;
  success : bool;
  error : option string }.

(** What a call ends in: a value, or an exception, kept as its message
    [str(exc)]. *)
Inductive outcome (A : Type) :=
| Returns (a : A)
| Raises (exc : string).
Arguments Returns {A} a.
Arguments Raises {A} exc.

(** The requests a client receives. *)
Inductive request :=
| responses_parse (model : string) (input : list message) (temperature : Q)
    (max_output_tokens : Z)
| chat_completions_create (model : string) (messages : list message)
    (max_completion_tokens : Z).

Definition sent (r : request) : list message :=
  match r with
  | responses_parse _ input _ _ => input
  | chat_completions_create _ messages _ => messages
  end.

(** The answer to [responses.parse]. *)
Record parsed_response := { output_parsed : option StructuredProgram.t }.

(** The answer to [chat.completions.create]. *)
Record chat_message := { message_content : option string }.
Record chat_choice := { message_of : chat_message }.
Record chat_response := { choices : list chat_choice }.

Record responses_api := {
  parse : option (request → outcome parsed_response) }.

(** The client, as far as the generator looks at it: [responses] may be
    missing, and so may [responses.parse]; every call may raise. *)
Record llm_client := {
  responses : option responses_api;
  create : request → outcome chat_response }.

(** What [json.loads] makes of a text: a value, a [JSONDecodeError], or an
    exception of another class ([RecursionError] on nesting too deep,
    [ValueError] on a number of too many digits), kept as its message. *)
Inductive decoded :=
| Decoded (j : Json.t)
| JSONDecodeError
| OtherError (exc : string).

(** Computations that call the client: the requests sent so far are the
    state, and a computation may raise. *)
Definition M (A : Type) : Type := list request → outcome A * list request.

#[global] Instance M_ret : MRet M := λ A a log, (Returns a, log).
#[global] Instance M_bind : MBind M := λ A B f m log,
  match m log with
  | (Returns a, log') => f a log'
  | (Raises exc, log') => (Raises exc, log')
  end.

(** Send [r] and answer as [f] does. *)
Definition call {A} (f : request → outcome A) (r : request) : M A :=
  λ log, (f r, log ++ [r]).

Definition throw {A} (exc : string) : M A := λ log, (Raises exc, log).

(** A step that sends nothing: it returns or raises as [out] says. *)
Definition finish {A} (out : outcome A) : M A := λ log, (out, log).

(** [try: m except Exception as exc: ...]: the exception, if any, becomes
    a value. *)
Definition try_ {A} (m : M A) : M (string + A) :=
  λ log,
    match m log with
    | (Returns a, log') => (Returns (inr a), log')
    | (Raises exc, log') => (Returns (inl exc), log')
    end.

Section generator.
(** [z3dsl.reasoning.prompt_template.build_prompt], the JSON decoder
    [json.loads] and pydantic's
    [model_dump_json(indent=2, exclude_none=True)]. *)
Variable build_prompt : string → string.
Variable json_loads : string → decoded.
Variable model_dump_json : StructuredProgram.t → string.

(** [try: return json.loads(s)] with [except json.JSONDecodeError]
    leading to [return None]: any other exception goes on. *)
Definition loads_or_none (s : string) : outcome (option Json.t) :=
  match json_loads s with
  | Decoded j => Returns (Some j)
  | JSONDecodeError => Returns None
  | OtherError exc => Raises exc
  end.

(** The content of a chat message is a string or [None]; [re.search]
    raises [TypeError] on [None]. *)
Definition _extract_json (markdown_content : option string)
  : outcome (option Json.t) :=
  match markdown_content with
  | Some markdown_content =>
      match search_fenced markdown_content with
      | Some json_str => loads_or_none json_str
      | None =>
          match search_braces markdown_content with
          | Some group0 => loads_or_none group0
          | None => Returns None
          end
      end
  | None => Raises "expected string or bytes-like object, got 'NoneType'"
  end.

Record Z3ProgramGenerator := {
  client : llm_client;
  model_name : string }.

Definition _initial_messages (prompt : string) : list message :=
  [ {| role := "system"; content := STRUCTURED_SYSTEM_PROMPT |};
    {| role := "user"; content := prompt |} ].

Definition _feedback_messages (prompt previous_response feedback_message : string)
  : list message :=
  [ {| role := "system"; content := STRUCTURED_SYSTEM_PROMPT |};
    {| role := "user"; content := prompt |};
    {| role := "assistant"; content := previous_response |};
    {| role := "user"; content := feedback_message |} ].

Definition _call_structured_api (self : Z3ProgramGenerator)
    (messages : list message) (temperature : Q) (max_tokens : Z)
  : M (option (Json.t * string)) :=
  let responses_api := responses (client self) in
  let parse_fn :=
    match responses_api with
    | Some api => parse api
    | None => None
    end in
  match parse_fn with
  | None => mret None
  | Some parse_fn =>
      r ← try_ (call parse_fn
                  (responses_parse (model_name self) messages temperature max_tokens));
      match r with
      | inl exc => mret None
      | inr response =>
          match output_parsed response with
          | None => mret None
          | Some parsed_program =>
              let json_text := model_dump_json parsed_program in
              let json_program := JObj (StructuredProgram.to_dsl_dict parsed_program) in
              mret (Some (json_program, json_text))
          end
      end
  end.

Definition _call_chat_completion (self : Z3ProgramGenerator)
    (messages : list message) (max_tokens : Z) : M (option string) :=
  response ← call (create (client self))
                (chat_completions_create (model_name self) messages max_tokens);
  match choices response with
  | choice :: _ => mret (message_content (message_of choice))
  | [] => throw "list index out of range"
  end.

Definition default_temperature : Q := 1 # 10.
Definition default_max_tokens : Z := 16384.

Definition generate (self : Z3ProgramGenerator) (question : string)
    (temperature : Q) (max_tokens : Z) : M GenerationResult :=
  let prompt := build_prompt question in
  let messages := _initial_messages prompt in
  structured_result ← _call_structured_api self messages temperature max_tokens;
  match structured_result with
  | Some (json_program, raw_response) =>
      mret {| json_program := Some json_program; raw_response := raw_response;
              success := true; error := None |}
  | None =>
      r ← try_ (_call_chat_completion self messages max_tokens);
      match r with
      | inl exc =>
          mret {| json_program := None; raw_response := "";
                  success := false; error := Some exc |}
      | inr raw_response =>
          json_program ← finish (_extract_json raw_response);
          (* a string from here on: [_extract_json] raised on [None] *)
          let raw_response := default "" raw_response in
          if from_option Json.truthy false json_program
          then mret {| json_program := json_program; raw_response := raw_response;
                       success := true; error := None |}
          else mret {| json_program := None; raw_response := raw_response;
                       success := false;
                       error := Some "Failed to extract valid JSON from response" |}
      end
  end.

Definition generate_with_feedback (self : Z3ProgramGenerator)
    (question error_trace previous_response : string)
    (temperature : Q) (max_tokens : Z) : M GenerationResult :=
  let prompt := build_prompt question in
  let feedback_message :=
    "There was an error processing your response:"
    +:+ String "010"%char error_trace
    +:+ String "010"%char "Please fix the JSON accordingly." in
  let messages := _feedback_messages prompt previous_response feedback_message in
  structured_result ← _call_structured_api self messages temperature max_tokens;
  match structured_result with
  | Some (json_program, raw_response) =>
      mret {| json_program := Some json_program; raw_response := raw_response;
              success := true; error := None |}
  | None =>
      r ← try_ (_call_chat_completion self messages max_tokens);
      match r with
      | inl exc =>
          mret {| json_program := None; raw_response := "";
                  success := false; error := Some exc |}
      | inr raw_response =>
          json_program ← finish (_extract_json raw_response);
          (* a string from here on: [_extract_json] raised on [None] *)
          let raw_response := default "" raw_response in
          if from_option Json.truthy false json_program
          then mret {| json_program := json_program; raw_response := raw_response;
                       success := true; error := None |}
          else mret {| json_program := None; raw_response := raw_response;
                       success := false;
                       error :=
                         Some "Failed to extract valid JSON from feedback response" |}
      end
  end.
End generator.

End Generator.

(** ** Programs as objects in a store

    A validated program is a graph of Python objects: model instances,
    lists and dicts, each with an identity, holding strings, booleans,
    [None] and references to other objects.  [to_dsl_dict] reads that
    graph and builds a new one.  Here the objects live in a store indexed
    by their identity; creating an object extends the store, [append] and
    item assignment change an object in place. *)

Module Store.

Inductive value :=
| VNone
| VBool (b : bool)
| VStr (s : string)
| VRef (l : nat).

Inductive object :=
| OList (items : list value)
| ODict (entries : list (string * value))
| OModel (cls : string) (attrs : list (string * value)).

Abbreviation store := (list object).

(** The values an object holds. *)
Definition children (o : object) : list value :=
  match o with
  | OList items => items
  | ODict entries => entries.*2
  | OModel _ attrs => attrs.*2
  end.

(** [reach h v l]: the object [l] can be reached from [v] by following
    references in [h]. *)
Inductive reach (h : store) : value → nat → Prop :=
| reach_here l : reach h (VRef l) l
| reach_step l o v l' :
    h !! l = Some o → v ∈ children o → reach h v l' → reach h (VRef l) l'.

(** A value that refers to nothing older than [n]: not a reference, or a
    reference to an object created at or after [n]. *)
Definition fresh_val (n : nat) (v : value) : Prop :=
  match v with
  | VRef l => n ≤ l
  | _ => True
  end.

(** An object all of whose values are fresh. *)
Definition fresh_obj (n : nat) (o : object) : Prop :=
  Forall (fresh_val n) (children o).

(** [grown n h h']: [h'] is [h] with objects added at its end, each
    fresh with respect to [n]. *)
Definition grown (n : nat) (h h' : store) : Prop :=
  h `prefix_of` h' ∧ Forall (fresh_obj n) (drop (length h) h').

(** Computations on the store; [None] when the Python code would raise. *)
Definition S (A : Type) : Type := store → option (A * store).

#[global] Instance S_ret : MRet S := λ A a h, Some (a, h).
#[global] Instance S_bind : MBind S := λ A B f m h,
  match m h with
  | Some (a, h') => f a h'
  | None => None
  end.

Definition fail {A} : S A := λ _, None.

Definition alloc (o : object) : S value :=
  λ h, Some (VRef (length h), h ++ [o]).

Definition load (v : value) : S object :=
  λ h, match v with
       | VRef l => o ← h !! l; Some (o, h)
       | _ => None
       end.

Definition write (l : nat) (o : object) : S unit :=
  λ h, if decide (l < length h) then Some (tt, <[l := o]> h) else None.

Fixpoint mapS {A B} (f : A → S B) (l : list A) : S (list B) :=
  match l with
  | [] => mret []
  | x :: l' => y ← f x; ys ← mapS f l'; mret (y :: ys)
  end.

(** [for x in l: f(x)] *)
Fixpoint forS {A} (f : A → S unit) (l : list A) : S unit :=
  match l with
  | [] => mret tt
  | x :: l' => _ ← f x; forS f l'
  end.

(** [self.k] *)
Definition getattr (self : value) (k : string) : S value :=
  o ← load self;
  match o with
  | OModel _ attrs => from_option mret fail (Json.get k attrs)
  | _ => fail
  end.

(** The items a list holds, as iterating over it yields them. *)
Definition iter (v : value) : S (list value) :=
  o ← load v;
  match o with
  | OList items => mret items
  | _ => fail
  end.

(** [d.items()] *)
Definition dict_items (v : value) : S (list (string * value)) :=
  o ← load v;
  match o with
  | ODict entries => mret entries
  | _ => fail
  end.

(** [[f(x) for x in v]] *)
Definition comprehension (f : value → S value) (v : value) : S value :=
  items ← iter v; ys ← mapS f items; alloc (OList ys).

(** [list(v)] *)
Definition list_ (v : value) : S value :=
  items ← iter v; alloc (OList items).

(** [lst.append(x)] *)
Definition append (lst x : value) : S unit :=
  items ← iter lst;
  match lst with
  | VRef l => write l (OList (items ++ [x]))
  | _ => fail
  end.

Fixpoint set_entry (k : string) (x : value) (entries : list (string * value))
  : list (string * value) :=
  match entries with
  | [] => [(k, x)]
  | (k', x') :: entries' =>
      if String.eqb k k' then (k, x) :: entries' else (k', x') :: set_entry k x entries'
  end.

(** [d[k] = x] *)
Definition setitem (d : value) (k : string) (x : value) : S unit :=
  entries ← dict_items d;
  match d with
  | VRef l => write l (ODict (set_entry k x entries))
  | _ => fail
  end.

(** [if v:] *)
Definition truthy (v : value) : S bool :=
  match v with
  | VNone => mret false
  | VBool b => mret b
  | VStr s => mret (negb (String.eqb s ""))
  | VRef _ =>
      o ← load v;
      match o with
      | OList items => mret (match items with [] => false | _ => true end)
      | ODict entries => mret (match entries with [] => false | _ => true end)
      | OModel _ _ => mret true
      end
  end.

(** [isinstance(v, BaseModel)] *)
Definition isinstance_BaseModel (v : value) : S bool :=
  match v with
  | VRef _ =>
      o ← load v;
      match o with
      | OModel _ _ => mret true
      | _ => mret false
      end
  | _ => mret false
  end.

(** The field types of the class declarations. *)
#[local] Unset Elimination Schemes.
Inductive ty :=
| TStr
| TBool
| TLiteral (allowed : list string)
| TOptional (t : ty)
| TList (t : ty)
| TDict (t : ty)
| TUnion (t1 t2 : ty)
| TModel (cls : string) (fields : list (string * ty)).
#[local] Set Elimination Schemes.

(** The attributes of an instance have the types of the fields. *)
Definition typed_fields (typed_at : ty → value → bool)
    (attrs : list (string * value)) (fields : list (string * ty)) : bool :=
  forallb (λ kt, match Json.get kt.1 attrs with
                 | Some x => typed_at kt.2 x
                 | None => false
                 end) fields.

(** [typed h t v]: in the store [h], [v] is a value of type [t]. *)
Fixpoint typed (h : store) (t : ty) (v : value) {struct t} : bool :=
  match t with
  | TStr => match v with VStr _ => true | _ => false end
  | TBool => match v with VBool _ => true | _ => false end
  | TLiteral allowed => match v with VStr s => one_of allowed s | _ => false end
  | TOptional t' => match v with VNone => true | _ => typed h t' v end
  | TList t' =>
      match v with
      | VRef l =>
          match h !! l with
          | Some (OList items) => forallb (typed h t') items
          | _ => false
          end
      | _ => false
      end
  | TDict t' =>
      match v with
      | VRef l =>
          match h !! l with
          | Some (ODict entries) => forallb (typed h t') entries.*2
          | _ => false
          end
      | _ => false
      end
  | TUnion t1 t2 => typed h t1 v || typed h t2 v
  | TModel cls fields =>
      match v with
      | VRef l =>
          match h !! l with
          | Some (OModel cls' attrs) =>
              String.eqb cls cls' && typed_fields (typed h) attrs fields
          | _ => false
          end
      | _ => false
      end
  end.

(** The fields of an instance, dumped in the order of the declaration;
    those that are [None] are left out. *)
Definition dump_fields (dump_at : ty → value → S value)
    (attrs : list (string * value))
  : list (string * ty) → S (list (string * value)) :=
  fix go fields :=
    match fields with
    | [] => mret []
    | (k, t') :: fields' =>
        x ← from_option mret fail (Json.get k attrs);
        match x with
        | VNone => go fields'
        | _ => y ← dump_at t' x; ys ← go fields'; mret ((k, y) :: ys)
        end
    end.

(** [model_dump(mode="python", exclude_none=True)], driven by the field
    types: strings and booleans are kept, lists, dicts and models are
    built anew, fields that are [None] are left out. *)
Fixpoint dump (t : ty) (v : value) {struct t} : S value :=
  match t with
  | TStr | TLiteral _ => match v with VStr _ => mret v | _ => fail end
  | TBool => match v with VBool _ => mret v | _ => fail end
  | TOptional t' => match v with VNone => mret VNone | _ => dump t' v end
  | TList t' =>
      items ← iter v; ys ← mapS (dump t') items; alloc (OList ys)
  | TDict t' =>
      entries ← dict_items v;
      ys ← mapS (λ kv, y ← dump t' kv.2; mret (kv.1, y)) entries;
      alloc (ODict ys)
  | TUnion t1 t2 =>
      λ h, match dump t1 v h with
           | Some r => Some r
           | None => dump t2 v h
           end
  | TModel cls fields =>
      o ← load v;
      match o with
      | OModel _ attrs => ys ← dump_fields dump attrs fields; alloc (ODict ys)
      | _ => fail
      end
  end.

Module Class.
Definition SortDefinition : ty :=
  TModel "SortDefinition"
    [("name", TStr); ("type", TStr); ("values", TOptional (TList TStr));
     ("description", TOptional TStr)].
Definition FunctionDefinition : ty :=
  TModel "FunctionDefinition"
    [("name", TStr); ("domain", TList TStr); ("range", TStr);
     ("description", TOptional TStr)].
Definition VariableDefinition : ty :=
  TModel "VariableDefinition"
    [("name", TStr); ("sort", TStr); ("description", TOptional TStr)].
Definition KnowledgeAssertion : ty :=
  TModel "KnowledgeAssertion"
    [("assertion", TStr); ("value", TBool); ("description", TOptional TStr)].
Definition KnowledgeEntry : ty := TUnion TStr KnowledgeAssertion.
Definition QuantifiedVariable : ty :=
  TModel "QuantifiedVariable" [("name", TStr); ("sort", TStr)].
Definition RuleImplication : ty :=
  TModel "RuleImplication" [("antecedent", TStr); ("consequent", TStr)].
Definition RuleDefinition : ty :=
  TModel "RuleDefinition"
    [("name", TOptional TStr); ("forall", TOptional (TList QuantifiedVariable));
     ("implies", TOptional RuleImplication); ("constraint", TOptional TStr);
     ("description", TOptional TStr)].
Definition VerificationImplication : ty :=
  TModel "VerificationImplication" [("antecedent", TStr); ("consequent", TStr)].
Definition VerificationDefinition : ty :=
  TModel "VerificationDefinition"
    [("name", TOptional TStr); ("constraint", TOptional TStr);
     ("exists", TOptional (TList QuantifiedVariable));
     ("forall", TOptional (TList QuantifiedVariable));
     ("implies", TOptional VerificationImplication);
     ("description", TOptional TStr)].
Definition ObjectiveDefinition : ty :=
  TModel "ObjectiveDefinition"
    [("type", TLiteral ["maximize"; "minimize"]); ("expression", TStr)].
Definition OptimizationConfig : ty :=
  TModel "OptimizationConfig"
    [("variables", TList VariableDefinition); ("constraints", TList TStr);
     ("objectives", TList ObjectiveDefinition); ("description", TOptional TStr)].
Definition ConstantDefinition : ty :=
  TModel "ConstantDefinition"
    [("sort", TStr); ("members", TUnion (TList TStr) (TDict TStr));
     ("description", TOptional TStr)].
Definition StructuredProgram : ty :=
  TModel "StructuredProgram"
    [("sorts", TList SortDefinition); ("functions", TList FunctionDefinition);
     ("constants", TDict ConstantDefinition);
     ("variables", TList VariableDefinition);
     ("knowledge_base", TList KnowledgeEntry); ("rules", TList RuleDefinition);
     ("verifications", TList VerificationDefinition);
     ("optimization", TOptional OptimizationConfig); ("actions", TList TStr)].

Definition all : list ty :=
  [SortDefinition; FunctionDefinition; VariableDefinition; KnowledgeAssertion;
   QuantifiedVariable; RuleImplication; RuleDefinition; VerificationImplication;
   VerificationDefinition; ObjectiveDefinition; OptimizationConfig;
   ConstantDefinition; StructuredProgram].
End Class.

Definition class_name (t : ty) : option string :=
  match t with
  | TModel cls _ => Some cls
  | _ => None
  end.

(** The declaration of the class named [cls]. *)
Definition schema_of (cls : string) : option ty :=
  List.find (λ t, bool_decide (class_name t = Some cls)) Class.all.

(** A class of the schema, with its declaration. *)
Definition declared_class (t : ty) : Prop :=
  ∃ cls, class_name t = Some cls ∧ schema_of cls = Some t.

(** [obj.model_dump(mode="python", exclude_none=True)], found through the
    class of [obj]. *)
Definition dump_model (obj : value) : S value :=
  o ← load obj;
  match o with
  | OModel cls _ => from_option (λ t, dump t obj) fail (schema_of cls)
  | _ => fail
  end.

Definition to_dsl_dict (self : value) : S value :=
  sorts ← getattr self "sorts";
  sorts_data ← comprehension dump_model sorts;
  functions ← getattr self "functions";
  functions_data ← comprehension dump_model functions;
  variables ← getattr self "variables";
  variables_data ← comprehension dump_model variables;
  knowledge_entries ← alloc (OList []);
  knowledge_base ← getattr self "knowledge_base";
  entries ← iter knowledge_base;
  _ ← forS (λ entry,
        is_model ← isinstance_BaseModel entry;
        if is_model : bool
        then d ← dump_model entry; append knowledge_entries d
        else append knowledge_entries entry) entries;
  rules ← getattr self "rules";
  rules_data ← comprehension dump_model rules;
  verifications ← getattr self "verifications";
  verifications_data ← comprehension dump_model verifications;
  self_actions ← getattr self "actions";
  nonempty ← truthy self_actions;
  actions ← (if nonempty : bool then list_ self_actions
             else alloc (OList [VStr "verify_conditions"]));
  constants ← getattr self "constants";
  items ← dict_items constants;
  dumped ← mapS (λ kv, d ← dump_model kv.2; mret (kv.1, d)) items;
  constants_data ← alloc (ODict dumped);
  program ← alloc (ODict [
    ("sorts", sorts_data);
    ("functions", functions_data);
    ("constants", constants_data);
    ("variables", variables_data);
    ("knowledge_base", knowledge_entries);
    ("rules", rules_data);
    ("verifications", verifications_data);
    ("actions", actions) ]);
  optimization ← getattr self "optimization";
  present ← truthy optimization;
  _ ← (if present : bool
       then d ← dump_model optimization; setitem program "optimization" d
       else mret tt);
  mret program.

(** The document an object graph stands for, read down to depth [depth]. *)
Fixpoint read (depth : nat) (h : store) (v : value) : option Json.t :=
  match v with
  | VNone => Some JNull
  | VBool b => Some (JBool b)
  | VStr s => Some (JStr s)
  | VRef l =>
      match depth with
      | 0 => None
      | Datatypes.S depth' =>
          match h !! l with
          | Some (OList items) => JArr <$> mapM (read depth' h) items
          | Some (ODict entries) =>
              JObj <$> mapM (λ kv, pair kv.1 <$> read depth' h kv.2) entries
          | _ => None
          end
      end
  end.

End Store.

(** ** The audited workflow

    [examples/with_second_llm_verification.py] wraps the generator: a
    program is generated, a second model audits it, a rejected program is
    generated once more with the auditor's justification as feedback, and
    a program goes to the verifier only after an audit has passed.

    The client, the temporary files and the verifier are oracles that see
    what has happened so far; what the workflow asks of them is recorded
    in order. *)

Module Audited.
Import Generator.

Definition PROGRAMMER_MODEL : string := "gpt-5".
Definition AUDITOR_MODEL : string := "gpt-5".

Module AuditReport.
Record t := mk {
  risk_score : Z;
  is_safe : bool;
  justification : string }.

Definition model_config : extra := forbid.
End AuditReport.

(** What the workflow does to the world around it. *)
Inductive event :=
| generator_request (r : request)
    (** a request of [self.programmer_generator] *)
| audit_parse (model : string) (input : list message)
    (** [responses.parse(model, input, text_format=AuditReport)] *)
| audit_create (model : string) (messages : list message)
    (** [chat.completions.create(model, messages,
        response_format={"type": "json_object"})] *)
| file_created (name : string)
    (** [tempfile.NamedTemporaryFile(mode='w', delete=False, suffix=".json")] *)
| file_written (name : string) (text : string)
    (** [text] written to the file and the file closed *)
| verifier_verify (json_path : string)
| os_remove (path : string).

(** The requests to the client, among the events. *)
Definition is_request (e : event) : bool :=
  match e with
  | generator_request _ | audit_parse _ _ | audit_create _ _ => true
  | _ => false
  end.

Definition is_audit (e : event) : bool :=
  match e with
  | audit_parse _ _ | audit_create _ _ => true
  | _ => false
  end.

(** A request of the generator opens with the system prompt and the user
    message [prompt]. *)
Definition opens_with (prompt : string) (e : event) : Prop :=
  match e with
  | generator_request r => take 2 (sent r) = _initial_messages prompt
  | _ => True
  end.

(** Computations of the workflow: the events so far are the state, and a
    computation may raise. *)
Definition IO (A : Type) : Type := list event → outcome A * list event.

#[global] Instance IO_ret : MRet IO := λ A a log, (Returns a, log).
#[global] Instance IO_bind : MBind IO := λ A B f m log,
  match m log with
  | (Returns a, log') => f a log'
  | (Raises exc, log') => (Raises exc, log')
  end.

(** Record [e] and answer as [f] does, given all that has happened. *)
Definition ask {A} (f : list event → outcome A) (e : event) : IO A :=
  λ log, (f (log ++ [e]), log ++ [e]).

Definition throw {A} (exc : string) : IO A := λ log, (Raises exc, log).

(** [try: m except Exception as exc: ...] *)
Definition try_ {A} (m : IO A) : IO (string + A) :=
  λ log,
    match m log with
    | (Returns a, log') => (Returns (inr a), log')
    | (Raises exc, log') => (Returns (inl exc), log')
    end.

(** [try: m finally: cleanup]: [cleanup] runs however [m] ends; an
    exception of [cleanup] replaces the outcome of [m]. *)
Definition finally {A} (m : IO A) (cleanup : IO unit) : IO A :=
  λ log,
    match m log with
    | (out, log') =>
        match cleanup log' with
        | (Returns _, log'') => (out, log'')
        | (Raises exc, log'') => (Raises exc, log'')
        end
    end.

(** A call into the generator: its requests join the events. *)
Definition lift {A} (m : M A) : IO A :=
  λ log,
    match m [] with
    | (out, requests) => (out, log ++ (generator_request <$> requests))
    end.

(** The answer to [responses.parse] with [text_format=AuditReport]. *)
Record structured_response := { output_parsed : option AuditReport.t }.

(** The client.  The generator uses it as [to_generator] says; the
    auditor's requests differ from the generator's in their keyword
    arguments and are answered by [parse_report] and [create_json]. *)
Record llm_client := {
  to_generator : Generator.llm_client;
  parse_report : list event → outcome structured_response;
  create_json : list event → outcome chat_response }.

Definition quote : string := String "034"%char "".
Definition quoted (s : string) : string := quote +:+ s +:+ quote.
Definition newline : string := String "010"%char "".

(** [str(n)] for an [int]. *)
Definition str_int (n : Z) : string := NilZero.string_of_int (Z.to_int n).

(** The name of the type of a JSON value, [type(x).__name__]. *)
Definition type_name (x : Json.t) : string :=
  match x with
  | JNull => "NoneType"
  | JBool _ => "bool"
  | JInt _ => "int"
  | JFloat _ => "float"
  | JStr _ => "str"
  | JArr _ => "list"
  | JObj _ => "dict"
  end.

(** [x.get(k, default)]: only a dict has it. *)
Definition get_default (x : Json.t) (k : string) (default : Json.t) : IO Json.t :=
  match x with
  | JObj entries => mret (from_option id default (Json.get k entries))
  | _ => throw ("'" +:+ type_name x +:+ "' object has no attribute 'get'")
  end.

(** [x < n] for an [int] [n]: numbers compare, a boolean as 0 or 1. *)
Definition lt (x : Json.t) (n : Z) : IO bool :=
  match x with
  | JInt z => mret (z <? n)%Z
  | JBool b => mret ((if b then 1 else 0) <? n)%Z
  | JFloat q => mret (negb (Qle_bool (inject_Z n) q))
  | _ =>
      throw ("'<' not supported between instances of '" +:+ type_name x
             +:+ "' and 'int'")
  end.

Section workflow.
(** Of the library: [build_prompt] and [DSL_INSTRUCTIONS] of
    [z3dsl.reasoning.prompt_template], [Z3Verifier] and its
    [VerificationResult].  Of Python: [json.loads],
    [json.dumps(x, indent=2)], which is also what
    [json.dump(x, f, indent=2)] writes, [model_dump_json], [str(x)] for
    an [x] that is no string, and the files: the name of the temporary
    file created, writing and closing it, removing it. *)
Variable build_prompt : string → string.
Variable DSL_INSTRUCTIONS : string.
Variable json_loads : string → Generator.decoded.
Variable json_dumps : Json.t → string.
Variable model_dump_json : StructuredProgram.t → string.
Variable str_of : Json.t → string.
Context {VerificationResult : Type}.
Variable NamedTemporaryFile : list event → outcome string.
Variable json_dump : list event → outcome unit.
Variable remove : list event → outcome unit.

Record Z3Verifier := { verify : list event → outcome VerificationResult }.

Variable new_Z3Verifier : Z3Verifier.

Record AuditedProofOfThought := {
  programmer_generator : Z3ProgramGenerator;
  auditor_llm : llm_client;
  verifier : Z3Verifier;
  risk_threshold : Z }.

Definition __init__ (llm_client : llm_client) (risk_threshold : Z)
  : AuditedProofOfThought :=
  {| programmer_generator :=
       {| client := to_generator llm_client;
          model_name := PROGRAMMER_MODEL |};
     auditor_llm := llm_client;
     verifier := new_Z3Verifier;
     risk_threshold := risk_threshold |}.

Definition default_risk_threshold : Z := 5.

Definition _get_programmer_prompt (question : string) : string :=
  let neutrality_instructions :=
    String.concat newline [
      "";
      "        **CRITICAL Directives for Neutrality and Accuracy**:";
      "        1.  **Principle of Charity**: You are a neutral logician. Represent all concepts in their most objective, verifiable, and quantitative form.";
      "        2.  **Avoid Subjectivity**: Do not use emotionally loaded or subjective terms (e.g., 'good', 'bad', 'chaotic'). Instead, model the world using measurable metrics (e.g., 'air_quality_score', 'cost_in_usd').";
      "        3.  **Fallacy Check**: Before outputting the JSON, you must review your logic for common fallacies (ad hominem, straw man, false dichotomy, overgeneralization). Your primary goal is logical soundness, not persuasive rhetoric.";
      "        ---";
      "        " ] in
  neutrality_instructions +:+ DSL_INSTRUCTIONS +:+ newline +:+ "Question: " +:+ question.

Definition _get_auditor_prompt (self : AuditedProofOfThought)
    (json_program_str original_question : string) : string :=
  String.concat newline [
    "";
    "        You are a specialist in detecting logical fallacies, cognitive biases, and stereotypes in structured reasoning programs. Your sole purpose is to ensure neutrality.";
    "";
    "        Analyze the following JSON program, which was generated to answer the question: " +:+ quoted original_question;
    "";
    "        Program:";
    "        ```json";
    "        " +:+ json_program_str;
    "        ```";
    "";
    "        Your Task:";
    "        1.  Scrutinize the 'knowledge_base' for biased assumptions, overgeneralizations, or subjective opinions presented as objective facts.";
    "        2.  Examine all names (functions, constants, variables) for emotionally loaded or non-neutral language.";
    "        3.  Assess if the 'verifications' section neutrally and accurately represents the core of the original question.";
    "        4.  Provide a JSON response with exactly three fields:";
    "            - " +:+ quoted "risk_score" +:+ ": An integer from 1 (completely neutral) to 10 (highly biased or fallacious).";
    "            - " +:+ quoted "is_safe" +:+ ": A boolean (true if risk_score is below " +:+ str_int (risk_threshold self) +:+ ", otherwise false).";
    "            - " +:+ quoted "justification" +:+ ": A concise string explaining your reasoning, especially if the program is unsafe. This justification will be used as feedback.";
    "        " ].

(** The verdict of the auditor and its justification: from the structured
    request when it gives a report, from the chat request otherwise.
    [json.loads] raises [TypeError] on a content that is [None], and of
    its exceptions only [JSONDecodeError] is caught. *)
Definition _audit_program (self : AuditedProofOfThought) (json_program : Json.t)
    (original_question : string) : IO (bool * Json.t) :=
  let json_program_str := json_dumps json_program in
  let auditor_prompt := _get_auditor_prompt self json_program_str original_question in
  let responses_api := responses (to_generator (auditor_llm self)) in
  let parse_fn :=
    match responses_api with
    | Some api => parse api
    | None => None
    end in
  structured ←
    match parse_fn with
    | Some _ =>
        r ← try_ (
          structured_response ←
            ask (parse_report (auditor_llm self))
              (audit_parse AUDITOR_MODEL [
                 {| role := "system";
                    content :=
                      "You review DSL programs for bias. "
                      +:+ "Respond using the provided schema." |};
                 {| role := "user";
                    content := auditor_prompt |} ]);
          match output_parsed structured_response with
          | Some audit_report =>
              let risk_score := AuditReport.risk_score audit_report in
              let is_safe :=
                AuditReport.is_safe audit_report
                && (risk_score <? risk_threshold self)%Z in
              let justification := AuditReport.justification audit_report in
              mret (Some (is_safe, JStr justification))
          | None => mret None
          end);
        match r with
        | inl exc => mret None
        | inr returned => mret returned
        end
    | None => mret None
    end;
  match structured with
  | Some returned => mret returned
  | None =>
      response ←
        ask (create_json (auditor_llm self))
          (audit_create AUDITOR_MODEL [
             {| role := "user"; content := auditor_prompt |} ]);
      match choices response with
      | [] => throw "list index out of range"
      | choice :: _ =>
          match message_content (message_of choice) with
          | Some text =>
              match json_loads text with
              | Decoded audit_result =>
                  risk_score ← get_default audit_result "risk_score" (JInt 10);
                  is_safe ← lt risk_score (risk_threshold self);
                  justification ←
                    get_default audit_result "justification"
                      (JStr "No justification provided.");
                  mret (is_safe, justification)
              | JSONDecodeError =>
                  mret (false, JStr "Auditor LLM response was malformed.")
              | OtherError exc => throw exc
              end
          | None =>
              throw "the JSON object must be str, bytes or bytearray, not NoneType"
          end
      end
  end.

(** [f"{x}"] *)
Definition format (x : Json.t) : string :=
  match x with
  | JStr s => s
  | _ => str_of x
  end.

(** [not gen_result.success or not gen_result.json_program] *)
Definition unusable (gen_result : GenerationResult) : bool :=
  negb (success gen_result)
  || negb (from_option Json.truthy false (json_program gen_result)).

(** [query] up to the verifier: the program that passed an audit, or
    [None] where [query] returns [None] before it reaches the verifier. *)
Definition audited_program (self : AuditedProofOfThought) (question : string)
  : IO (option Json.t) :=
  let programmer_prompt := _get_programmer_prompt question in
  gen_result ←
    lift (generate build_prompt json_loads model_dump_json
            (programmer_generator self) question
            default_temperature default_max_tokens);
  if unusable gen_result then mret None
  else
    match json_program gen_result with
    | Some program =>
        '(is_safe, justification) ← _audit_program self program question;
        if negb is_safe then
          gen_result ←
            lift (generate_with_feedback build_prompt json_loads
                    model_dump_json (programmer_generator self) question
                    ("The initial program was rejected by a logical audit. Reason: "
                     +:+ format justification
                     +:+ ". Please generate a new, more neutral program based on "
                     +:+ "objective, verifiable metrics.")
                    (raw_response gen_result)
                    default_temperature default_max_tokens);
          if unusable gen_result then mret None
          else
            match json_program gen_result with
            | Some program =>
                '(is_safe, justification) ← _audit_program self program question;
                if negb is_safe then mret None else mret (Some program)
            | None => mret None
            end
        else mret (Some program)
    | None => mret None
    end.

(** [with tempfile.NamedTemporaryFile(...) as tmp_file:
       json.dump(x, tmp_file, indent=2); json_path = tmp_file.name] *)
Definition write_temporary (text : string) : IO string :=
  json_path ←
    (λ log,
       match NamedTemporaryFile log with
       | Returns name => (Returns name, log ++ [file_created name])
       | Raises exc => (Raises exc, log)
       end);
  _ ← ask json_dump (file_written json_path text);
  mret json_path.

Definition query (self : AuditedProofOfThought) (question : string)
  : IO (option VerificationResult) :=
  checked ← audited_program self question;
  match checked with
  | Some program =>
      json_path ← write_temporary (json_dumps program);
      finally
        (verification_result ←
           ask (verify (verifier self)) (verifier_verify json_path);
         mret (Some verification_result))
        (ask remove (os_remove json_path))
  | None => mret None
  end.
End workflow.

End Audited.

(** * Properties *)

(** ** Validation *)

Section validation_facts.
Context {A : Type}.
Implicit Types (v : Json.t → result A) (bad : Json.t → bool).

Lemma bind_Ok {B} (m : result A) (k : A → result B) (b : B) :
  m ≫= k = Ok b → ∃ a, m = Ok a ∧ k a = Ok b.
Proof. destruct m as [a|e]; simpl; [eauto | discriminate]. Qed.

Lemma fmap_Ok {B} (f : A → B) (m : result A) (b : B) :
  f <$> m = Ok b → ∃ a, m = Ok a ∧ b = f a.
Proof. destruct m as [a|e]; simpl; [|discriminate]. intros [= <-]. eauto. Qed.

Lemma at_loc_Ok (k : string) (r : result A) (a : A) :
  at_loc k r = Ok a → r = Ok a.
Proof. destruct r; simpl; congruence. Qed.

Lemma validate_items_Ok v items l :
  validate_items v items = Ok l → Forall2 (λ j a, v j = Ok a) items l.
Proof.
  revert l. induction items as [|j items IH]; simpl; intros l H.
  - injection H as <-. constructor.
  - apply bind_Ok in H as (a & Ha & H).
    destruct (validate_items v items) as [l'|e]; simpl in H; [|discriminate].
    injection H as <-. constructor; auto.
Qed.

Lemma validate_items_complete v items l :
  Forall2 (λ j a, v j = Ok a) items l → validate_items v items = Ok l.
Proof. induction 1 as [|j a items l Hj _ IH]; simpl; [done|]. by rewrite Hj, IH. Qed.

Lemma validate_entries_Ok v entries l :
  validate_entries v entries = Ok l →
  Forall2 (λ kj ka, kj.1 = ka.1 ∧ v kj.2 = Ok ka.2) entries l.
Proof.
  revert l. induction entries as [|[k j] entries IH]; simpl; intros l H.
  - injection H as <-. constructor.
  - apply bind_Ok in H as (a & Ha & H). apply at_loc_Ok in Ha.
    destruct (validate_entries v entries) as [l'|e]; simpl in H; [|discriminate].
    injection H as <-. constructor; auto.
Qed.

Lemma list_of_known v bad j l :
  (∀ j a, v j = Ok a → bad j = false) →
  list_of v j = Ok l → Unknown.in_list bad j = false.
Proof.
  intros Hv H. destruct j; simpl in *; try done.
  apply validate_items_Ok in H. clear -H Hv.
  induction H as [|j a items l Hj _ IH]; simpl; [done|].
  by rewrite (Hv _ _ Hj), IH.
Qed.

Lemma dict_of_known v bad j l :
  (∀ j a, v j = Ok a → bad j = false) →
  dict_of v j = Ok l → Unknown.in_dict bad j = false.
Proof.
  intros Hv H. destruct j; simpl in *; try done.
  apply validate_entries_Ok in H. clear -H Hv.
  induction H as [|[k j] [k' a] entries l [_ Hj] _ IH]; simpl in *; [done|].
  by rewrite (Hv _ _ Hj), IH.
Qed.

Lemma optional_known v bad j x :
  bad JNull = false →
  (∀ j a, v j = Ok a → bad j = false) →
  optional v j = Ok x → bad j = false.
Proof.
  intros Hnull Hv H.
  destruct j; simpl in H; try done;
    apply fmap_Ok in H as (a & Ha & _); eauto.
Qed.

Lemma defaulted_known v bad k d o a :
  (∀ j a, v j = Ok a → bad j = false) →
  defaulted v k d o = Ok a → Unknown.in_field k bad o = false.
Proof.
  unfold defaulted, Unknown.in_field. intros Hv H.
  destruct (Json.get k o) as [j|]; [|done].
  apply at_loc_Ok in H. eauto.
Qed.
End validation_facts.

Lemma check_extra_here fields o u :
  check_extra forbid fields o = Ok u → Unknown.here fields o = false.
Proof.
  unfold check_extra, Unknown.here.
  destruct (unknown_keys fields o); [reflexivity | discriminate].
Qed.

Lemma model_bind_Ok {B} (j : Json.t) (k : Json.obj → result B) (b : B) :
  model j ≫= k = Ok b → ∃ o, j = JObj o ∧ k o = Ok b.
Proof. destruct j; simpl; try discriminate. eauto. Qed.

(** Unfold the validation of a model whose document was accepted: the
    document is an object, it passed [check_extra], and what is left is
    the chain of its fields. *)
Ltac accepted H :=
  let o := fresh "o" in
  let u := fresh "u" in
  let Hextra := fresh "Hextra" in
  apply model_bind_Ok in H as (o & -> & H);
  apply bind_Ok in H as (u & Hextra & H);
  apply check_extra_here in Hextra.

(** Take the next field off the chain. *)
Ltac next_field H Hf :=
  let x := fresh "x" in
  apply bind_Ok in H as (x & Hf & H).

Lemma SortDefinition_known j p :
  SortDefinition.model_validate j = Ok p → Unknown.SortDefinition j = false.
Proof. intros H. unfold SortDefinition.model_validate in H. by accepted H. Qed.

Lemma FunctionDefinition_known j p :
  FunctionDefinition.model_validate j = Ok p → Unknown.FunctionDefinition j = false.
Proof. intros H. unfold FunctionDefinition.model_validate in H. by accepted H. Qed.

Lemma VariableDefinition_known j p :
  VariableDefinition.model_validate j = Ok p → Unknown.VariableDefinition j = false.
Proof. intros H. unfold VariableDefinition.model_validate in H. by accepted H. Qed.

Lemma KnowledgeAssertion_known j p :
  KnowledgeAssertion.model_validate j = Ok p → Unknown.KnowledgeAssertion j = false.
Proof. intros H. unfold KnowledgeAssertion.model_validate in H. by accepted H. Qed.

Lemma KnowledgeEntry_known j p :
  KnowledgeEntry.validate j = Ok p → Unknown.KnowledgeAssertion j = false.
Proof.
  destruct j; simpl; try done; intros (a & Ha & _)%fmap_Ok;
    by apply KnowledgeAssertion_known in Ha.
Qed.

Lemma QuantifiedVariable_known j p :
  QuantifiedVariable.model_validate j = Ok p → Unknown.QuantifiedVariable j = false.
Proof. intros H. unfold QuantifiedVariable.model_validate in H. by accepted H. Qed.

Lemma RuleImplication_known j p :
  RuleImplication.model_validate j = Ok p → Unknown.RuleImplication j = false.
Proof. intros H. unfold RuleImplication.model_validate in H. by accepted H. Qed.

Lemma VerificationImplication_known j p :
  VerificationImplication.model_validate j = Ok p →
  Unknown.VerificationImplication j = false.
Proof. intros H. unfold VerificationImplication.model_validate in H. by accepted H. Qed.

Lemma ObjectiveDefinition_known j p :
  ObjectiveDefinition.model_validate j = Ok p → Unknown.ObjectiveDefinition j = false.
Proof. intros H. unfold ObjectiveDefinition.model_validate in H. by accepted H. Qed.

Lemma ConstantDefinition_known j p :
  ConstantDefinition.model_validate j = Ok p → Unknown.ConstantDefinition j = false.
Proof. intros H. unfold ConstantDefinition.model_validate in H. by accepted H. Qed.

Create HintDb known.
#[local] Hint Resolve SortDefinition_known FunctionDefinition_known
  VariableDefinition_known KnowledgeEntry_known QuantifiedVariable_known
  RuleImplication_known VerificationImplication_known ObjectiveDefinition_known
  ConstantDefinition_known : known.

Lemma quantified_known j l :
  optional (list_of QuantifiedVariable.model_validate) j = Ok l →
  Unknown.in_list Unknown.QuantifiedVariable j = false.
Proof.
  apply (optional_known _ (Unknown.in_list Unknown.QuantifiedVariable)); [done|].
  intros j' a. apply list_of_known. eauto with known.
Qed.

Lemma RuleDefinition_known j p :
  RuleDefinition.model_validate j = Ok p → Unknown.RuleDefinition j = false.
Proof.
  intros H. unfold RuleDefinition.model_validate in H. accepted H.
  next_field H Hname. next_field H Hforall. next_field H Himplies.
  unfold Unknown.RuleDefinition. rewrite Hextra. cbn [orb].
  erewrite defaulted_known; [|apply quantified_known|exact Hforall]. cbn [orb].
  erewrite defaulted_known; [done| |exact Himplies].
  intros j a. apply optional_known; [done|]. eauto with known.
Qed.

Lemma VerificationDefinition_known j p :
  VerificationDefinition.model_validate j = Ok p →
  Unknown.VerificationDefinition j = false.
Proof.
  intros H. unfold VerificationDefinition.model_validate in H. accepted H.
  next_field H Hname. next_field H Hconstraint. next_field H Hexists.
  next_field H Hforall. next_field H Himplies.
  unfold Unknown.VerificationDefinition. rewrite Hextra. cbn [orb].
  erewrite defaulted_known; [|apply quantified_known|exact Hexists]. cbn [orb].
  erewrite defaulted_known; [|apply quantified_known|exact Hforall]. cbn [orb].
  erewrite defaulted_known; [done| |exact Himplies].
  intros j a. apply optional_known; [done|]. eauto with known.
Qed.

Lemma OptimizationConfig_known j p :
  OptimizationConfig.model_validate j = Ok p → Unknown.OptimizationConfig j = false.
Proof.
  intros H. unfold OptimizationConfig.model_validate in H. accepted H.
  next_field H Hvariables. next_field H Hconstraints. next_field H Hobjectives.
  unfold Unknown.OptimizationConfig. rewrite Hextra. cbn [orb].
  erewrite defaulted_known; [| |exact Hvariables].
  2:{ intros j a. apply list_of_known. eauto with known. }
  cbn [orb].
  erewrite defaulted_known; [done| |exact Hobjectives].
  intros j a. apply list_of_known. eauto with known.
Qed.

#[local] Hint Resolve RuleDefinition_known VerificationDefinition_known
  OptimizationConfig_known : known.

Lemma StructuredProgram_known j p :
  StructuredProgram.model_validate j = Ok p → Unknown.StructuredProgram j = false.
Proof.
  intros H. unfold StructuredProgram.model_validate in H. accepted H.
  next_field H Hsorts. next_field H Hfunctions. next_field H Hconstants.
  next_field H Hvariables. next_field H Hknowledge. next_field H Hrules.
  next_field H Hverifications. next_field H Hoptimization.
  unfold Unknown.StructuredProgram. rewrite Hextra. cbn [orb].
  repeat (erewrite defaulted_known; [| |eassumption];
          [|intros ??; first [apply list_of_known | apply dict_of_known];
            eauto with known]; cbn [orb]).
  eapply defaulted_known; [|exact Hoptimization].
  intros j a. apply optional_known; [done|]. eauto with known.
Qed.

(** C1. A document with a key outside the schema, at the top level or in
    any nested definition, is rejected with a validation error. *)
Theorem unknown_key_rejected (j : Json.t) :
  Unknown.StructuredProgram j = true →
  ∃ e, StructuredProgram.model_validate j = Err e.
Proof.
  intros Hunknown.
  destruct (StructuredProgram.model_validate j) as [p|e] eqn:Hvalid; [|eauto].
  apply StructuredProgram_known in Hvalid. congruence.
Qed.

Lemma unknown_key_rejected_witness :
  let doc := JObj [("sorts", JArr [JObj [("name", JStr "Person");
                                         ("type", JStr "DeclareSort");
                                         ("colour", JStr "red")]])] in
  Unknown.StructuredProgram doc = true
  ∧ ∃ e, StructuredProgram.model_validate doc = Err e.
Proof.
  intros doc. split; [reflexivity|].
  apply (unknown_key_rejected doc). reflexivity.
Defined.

(** ** Fields of an accepted document *)

Lemma str_Ok j s : str j = Ok s → j = JStr s.
Proof. destruct j; try discriminate. simpl. congruence. Qed.

Lemma list_of_str_Ok j l : list_of str j = Ok l → j = Json.strs l.
Proof.
  destruct j; simpl; try discriminate. intros H%validate_items_Ok.
  unfold Json.strs. f_equal.
  induction H as [|j s items l Hj%str_Ok _ IH]; [done | by rewrite Hj, IH].
Qed.

Lemma list_of_strs l : list_of str (Json.strs l) = Ok l.
Proof.
  unfold Json.strs, list_of. apply validate_items_complete.
  induction l; simpl; constructor; auto.
Qed.

Lemma required_name_of (o : Json.obj) s :
  required str "name" o = Ok s → Document.name_of (JObj o) = Some s.
Proof.
  unfold required, Document.name_of.
  destruct (Json.get "name" o) as [j|]; [|discriminate].
  by intros ->%at_loc_Ok%str_Ok.
Qed.

Lemma SortDefinition_name j x :
  SortDefinition.model_validate j = Ok x →
  Document.name_of j = Some (SortDefinition.name x).
Proof.
  intros H. unfold SortDefinition.model_validate in H. accepted H.
  next_field H Hname. do 3 (let Hf := fresh in next_field H Hf).
  injection H as <-. by apply required_name_of.
Qed.

Lemma FunctionDefinition_name j x :
  FunctionDefinition.model_validate j = Ok x →
  Document.name_of j = Some (FunctionDefinition.name x).
Proof.
  intros H. unfold FunctionDefinition.model_validate in H. accepted H.
  next_field H Hname. do 3 (let Hf := fresh in next_field H Hf).
  injection H as <-. by apply required_name_of.
Qed.

Lemma VariableDefinition_name j x :
  VariableDefinition.model_validate j = Ok x →
  Document.name_of j = Some (VariableDefinition.name x).
Proof.
  intros H. unfold VariableDefinition.model_validate in H. accepted H.
  next_field H Hname. do 2 (let Hf := fresh in next_field H Hf).
  injection H as <-. by apply required_name_of.
Qed.

Lemma declared_names {A} (v : Json.t → result A) (name : A → string) k o l :
  (∀ j x, v j = Ok x → Document.name_of j = Some (name x)) →
  defaulted (list_of v) k [] o = Ok l →
  Some ∘ name <$> l = Document.name_of <$> Document.declared k o.
Proof.
  unfold defaulted, Document.declared. intros Hv H.
  destruct (Json.get k o) as [j|]; [|by injection H as <-].
  apply at_loc_Ok in H. destruct j; simpl in H; try discriminate.
  apply validate_items_Ok in H.
  induction H as [|j x items l Hj _ IH]; [done|].
  by rewrite !fmap_cons, <- IH, (Hv _ _ Hj).
Qed.

Lemma declared_groups {A} (v : Json.t → result A) o (l : list (string * A)) :
  defaulted (dict_of v) "constants" [] o = Ok l → l.*1 = Document.groups o.
Proof.
  unfold defaulted, Document.groups. intros H.
  destruct (Json.get "constants" o) as [j|]; [|by injection H as <-].
  apply at_loc_Ok in H. destruct j; simpl in H; try discriminate.
  apply validate_entries_Ok in H. unfold Json.keys.
  induction H as [|[k j] [k' x] entries l [Hk _] _ IH]; [done|].
  rewrite !fmap_cons. simpl in Hk. by rewrite IH, Hk.
Qed.

(** The fields of the program an accepted document yields, one by one. *)
Lemma StructuredProgram_fields o p :
  StructuredProgram.model_validate (JObj o) = Ok p →
  defaulted (list_of SortDefinition.model_validate) "sorts" [] o
    = Ok (StructuredProgram.sorts p)
  ∧ defaulted (list_of FunctionDefinition.model_validate) "functions" [] o
    = Ok (StructuredProgram.functions p)
  ∧ defaulted (dict_of ConstantDefinition.model_validate) "constants" [] o
    = Ok (StructuredProgram.constants p)
  ∧ defaulted (list_of VariableDefinition.model_validate) "variables" [] o
    = Ok (StructuredProgram.variables p)
  ∧ defaulted (list_of KnowledgeEntry.validate) "knowledge_base" [] o
    = Ok (StructuredProgram.knowledge_base p)
  ∧ defaulted (list_of str) "actions" [] o = Ok (StructuredProgram.actions p).
Proof.
  intros H. unfold StructuredProgram.model_validate in H.
  apply (model_bind_Ok (JObj o)) in H as (o' & [= <-] & H).
  apply bind_Ok in H as (u & _ & H).
  next_field H Hsorts. next_field H Hfunctions. next_field H Hconstants.
  next_field H Hvariables. next_field H Hknowledge. next_field H Hrules.
  next_field H Hverifications. next_field H Hoptimization. next_field H Hactions.
  by injection H as <-.
Qed.

(** ** The interpreter format *)

Lemma to_dsl_dict_get_actions p :
  Json.get "actions" (StructuredProgram.to_dsl_dict p)
  = Some (Json.strs match StructuredProgram.actions p with
                    | [] => ["verify_conditions"]
                    | _ :: _ => StructuredProgram.actions p
                    end).
Proof. unfold StructuredProgram.to_dsl_dict. by destruct (StructuredProgram.optimization p). Qed.

(** C2. With an empty actions list, and so for a document without an
    actions key, the "actions" entry of the dict is
    ["verify_conditions"]; with a non-empty list it is that list. *)
Theorem to_dsl_dict_actions (p : StructuredProgram.t) :
  (StructuredProgram.actions p = [] →
   Json.get "actions" (StructuredProgram.to_dsl_dict p)
   = Some (Json.strs ["verify_conditions"]))
  ∧ (StructuredProgram.actions p ≠ [] →
     Json.get "actions" (StructuredProgram.to_dsl_dict p)
     = Some (Json.strs (StructuredProgram.actions p)))
  ∧ (∀ o, Json.get "actions" o = None →
          StructuredProgram.model_validate (JObj o) = Ok p →
          Json.get "actions" (StructuredProgram.to_dsl_dict p)
          = Some (Json.strs ["verify_conditions"])).
Proof.
  rewrite to_dsl_dict_get_actions. split_and!.
  - by intros ->.
  - by destruct (StructuredProgram.actions p).
  - intros o Hkey (_ & _ & _ & _ & _ & Hactions)%StructuredProgram_fields.
    unfold defaulted in Hactions. rewrite Hkey in Hactions.
    by injection Hactions as <-.
Qed.

Lemma to_dsl_dict_actions_witness :
  let doc := [("knowledge_base", JArr [JStr "x > 0"])] in
  let chosen := StructuredProgram.mk [] [] [] [] [] [] [] None ["optimize"] in
  (∃ p, StructuredProgram.model_validate (JObj doc) = Ok p
        ∧ Json.get "actions" (StructuredProgram.to_dsl_dict p)
          = Some (Json.strs ["verify_conditions"]))
  ∧ Json.get "actions" (StructuredProgram.to_dsl_dict chosen)
    = Some (Json.strs ["optimize"]).
Proof.
  intros doc chosen. split.
  - eexists. split; [reflexivity|].
    eapply (proj2 (proj2 (to_dsl_dict_actions _)) doc); reflexivity.
  - apply (proj1 (proj2 (to_dsl_dict_actions chosen))). discriminate.
Defined.

(** C3, as stated, fails: this document is accepted although its actions
    list holds a string that is neither "verify_conditions" nor
    "optimize", and the string is kept. *)
Lemma actions_not_restricted :
  let doc := JObj [("actions", JArr [JStr "prove"])] in
  ∃ p, StructuredProgram.model_validate doc = Ok p
       ∧ ¬ Forall (λ a, a = "verify_conditions" ∨ a = "optimize")
             (StructuredProgram.actions p).
Proof.
  intros doc. eexists. split; [reflexivity|]. simpl.
  intros [[?|?] _]%Forall_cons; discriminate.
Qed.

(** C3, amended. Every element of the actions list of an accepted
    document is a string, kept as written, and the list is empty without
    the key; a document whose actions value is no list of strings is
    rejected; any list of strings is accepted. *)
Theorem accepted_actions :
  (∀ o p, StructuredProgram.model_validate (JObj o) = Ok p →
          match Json.get "actions" o with
          | Some j => j = Json.strs (StructuredProgram.actions p)
          | None => StructuredProgram.actions p = []
          end)
  ∧ (∀ o j, Json.get "actions" o = Some j → (∀ l, j ≠ Json.strs l) →
            ∃ e, StructuredProgram.model_validate (JObj o) = Err e)
  ∧ (∀ l, ∃ p, StructuredProgram.model_validate (JObj [("actions", Json.strs l)]) = Ok p
               ∧ StructuredProgram.actions p = l).
Proof.
  assert (∀ o p, StructuredProgram.model_validate (JObj o) = Ok p →
            match Json.get "actions" o with
            | Some j => j = Json.strs (StructuredProgram.actions p)
            | None => StructuredProgram.actions p = []
            end) as Hkept.
  { intros o p (_ & _ & _ & _ & _ & Hactions)%StructuredProgram_fields.
    unfold defaulted in Hactions. destruct (Json.get "actions" o) as [j|].
    - by apply at_loc_Ok, list_of_str_Ok in Hactions.
    - by injection Hactions as <-. }
  split_and!; [done| |].
  - intros o j Hj Hstrs.
    destruct (StructuredProgram.model_validate (JObj o)) as [p|e] eqn:Hvalid; [|eauto].
    apply Hkept in Hvalid. rewrite Hj in Hvalid. by destruct (Hstrs _ Hvalid).
  - intros l. eexists (StructuredProgram.mk [] [] [] [] [] [] [] None l).
    split; [|done].
    change (StructuredProgram.model_validate (JObj [("actions", Json.strs l)]))
      with (at_loc "actions" (list_of str (Json.strs l))
            ≫= λ actions, Ok (StructuredProgram.mk [] [] [] [] [] [] [] None actions)).
    by rewrite list_of_strs.
Qed.

Lemma accepted_actions_witness :
  let o := [("actions", JArr [JStr "optimize"; JStr "prove"])] in
  (∃ p, StructuredProgram.model_validate (JObj o) = Ok p
        ∧ JArr [JStr "optimize"; JStr "prove"]
          = Json.strs (StructuredProgram.actions p))
  ∧ ∃ e, StructuredProgram.model_validate (JObj [("actions", JStr "optimize")])
         = Err e.
Proof.
  intros o. split.
  - eexists. split; [reflexivity|].
    exact (proj1 accepted_actions o _ eq_refl).
  - apply (proj1 (proj2 accepted_actions) [("actions", JStr "optimize")]
             (JStr "optimize") eq_refl).
    intros l. discriminate.
Defined.

(** C4, as stated, fails: this document declares the sort Person twice
    and is accepted, with both declarations. *)
Lemma duplicate_sort_accepted :
  let sort := JObj [("name", JStr "Person"); ("type", JStr "DeclareSort")] in
  let doc := JObj [("sorts", JArr [sort; sort])] in
  ∃ p, StructuredProgram.model_validate doc = Ok p
       ∧ ¬ NoDup (SortDefinition.name <$> StructuredProgram.sorts p).
Proof.
  intros sort doc. eexists. split; [reflexivity|]. simpl.
  intros [Hin _]%NoDup_cons. apply Hin. by left.
Qed.

Lemma validate_items_total {A} (v : Json.t → result A) items :
  Forall (λ j, is_ok (v j) = true) items → is_ok (validate_items v items) = true.
Proof.
  induction 1 as [|j items Hj _ IH]; simpl; [done|].
  destruct (v j); [|done]. simpl. by destruct (validate_items v items).
Qed.

(** C4, amended. Validation keeps every declaration and compares no
    names: the sorts, functions and variables of an accepted document
    carry the names of its entries, one per entry and in order, repeated
    or not, and a list of sorts, functions or variables is accepted as
    soon as each entry is valid by itself; the constant groups are the
    keys of the constants mapping, distinct when those are. *)
Theorem declarations_kept :
  (∀ o p, StructuredProgram.model_validate (JObj o) = Ok p →
     Some ∘ SortDefinition.name <$> StructuredProgram.sorts p
       = Document.name_of <$> Document.declared "sorts" o
     ∧ Some ∘ FunctionDefinition.name <$> StructuredProgram.functions p
       = Document.name_of <$> Document.declared "functions" o
     ∧ Some ∘ VariableDefinition.name <$> StructuredProgram.variables p
       = Document.name_of <$> Document.declared "variables" o
     ∧ (StructuredProgram.constants p).*1 = Document.groups o
     ∧ (NoDup (Document.groups o) → NoDup (StructuredProgram.constants p).*1))
  ∧ (∀ items, Forall (λ j, is_ok (SortDefinition.model_validate j) = true) items →
       is_ok (StructuredProgram.model_validate (JObj [("sorts", JArr items)])) = true)
  ∧ (∀ items, Forall (λ j, is_ok (FunctionDefinition.model_validate j) = true) items →
       is_ok (StructuredProgram.model_validate (JObj [("functions", JArr items)])) = true)
  ∧ (∀ items, Forall (λ j, is_ok (VariableDefinition.model_validate j) = true) items →
       is_ok (StructuredProgram.model_validate (JObj [("variables", JArr items)])) = true).
Proof.
  split_and!.
  - intros o p.
    intros (Hsorts & Hfunctions & Hconstants & Hvariables & _)%StructuredProgram_fields.
    apply declared_groups in Hconstants. rewrite Hconstants.
    split_and!; [| | |done|done].
    + eapply declared_names; [apply SortDefinition_name|done].
    + eapply declared_names; [apply FunctionDefinition_name|done].
    + eapply declared_names; [apply VariableDefinition_name|done].
  - intros items Hitems%validate_items_total.
    change (StructuredProgram.model_validate (JObj [("sorts", JArr items)]))
      with (at_loc "sorts" (validate_items SortDefinition.model_validate items)
            ≫= λ sorts, Ok (StructuredProgram.mk sorts [] [] [] [] [] [] None [])).
    by destruct (validate_items SortDefinition.model_validate items).
  - intros items Hitems%validate_items_total.
    change (StructuredProgram.model_validate (JObj [("functions", JArr items)]))
      with (at_loc "functions" (validate_items FunctionDefinition.model_validate items)
            ≫= λ functions,
                 Ok (StructuredProgram.mk [] functions [] [] [] [] [] None [])).
    by destruct (validate_items FunctionDefinition.model_validate items).
  - intros items Hitems%validate_items_total.
    change (StructuredProgram.model_validate (JObj [("variables", JArr items)]))
      with (at_loc "variables" (validate_items VariableDefinition.model_validate items)
            ≫= λ variables,
                 Ok (StructuredProgram.mk [] [] [] variables [] [] [] None [])).
    by destruct (validate_items VariableDefinition.model_validate items).
Qed.

Lemma declarations_kept_witness :
  let sort := JObj [("name", JStr "Person"); ("type", JStr "DeclareSort")] in
  let o := [("sorts", JArr [sort; sort])] in
  (∃ p, StructuredProgram.model_validate (JObj o) = Ok p
        ∧ Some ∘ SortDefinition.name <$> StructuredProgram.sorts p
          = [Some "Person"; Some "Person"])
  ∧ is_ok (StructuredProgram.model_validate (JObj o)) = true.
Proof.
  intros sort o. split.
  - eexists. split; [reflexivity|].
    exact (proj1 (proj1 declarations_kept o _ eq_refl)).
  - apply (proj1 (proj2 declarations_kept)). by repeat constructor.
Defined.

Lemma knowledge_loop acc kb pre :
  Forall2 Document.dumped pre acc →
  Forall2 Document.dumped (pre ++ kb) (foldl StructuredProgram.knowledge_step acc kb).
Proof.
  revert acc pre. induction kb as [|entry kb IH]; intros acc pre Hacc; simpl.
  - by rewrite app_nil_r.
  - rewrite (cons_middle entry pre kb), app_assoc. apply IH.
    destruct entry as [s|a]; simpl; (apply Forall2_app; [done|]);
      repeat constructor.
Qed.

Lemma to_dsl_dict_get_knowledge_base p :
  Json.get "knowledge_base" (StructuredProgram.to_dsl_dict p)
  = Some (JArr (foldl StructuredProgram.knowledge_step []
                  (StructuredProgram.knowledge_base p))).
Proof. unfold StructuredProgram.to_dsl_dict. by destruct (StructuredProgram.optimization p). Qed.

(** C6. In the dict, the knowledge base lists its entries in order: a
    bare string as it is, an assertion as a dict with its text and its
    truth value; and the truth value of an assertion whose document gave
    none is true. *)
Theorem to_dsl_dict_knowledge_base :
  (∀ p, ∃ out,
      Json.get "knowledge_base" (StructuredProgram.to_dsl_dict p) = Some (JArr out)
      ∧ Forall2 Document.dumped (StructuredProgram.knowledge_base p) out)
  ∧ (∀ o a, KnowledgeAssertion.model_validate (JObj o) = Ok a →
            Json.get "assertion" o = Some (JStr (KnowledgeAssertion.assertion a))
            ∧ (Json.get "value" o = None → KnowledgeAssertion.value a = true)
            ∧ (∀ b, Json.get "value" o = Some (JBool b) →
                    KnowledgeAssertion.value a = b)).
Proof.
  split.
  - intros p. eexists. split; [apply to_dsl_dict_get_knowledge_base|].
    apply (knowledge_loop [] _ []). constructor.
  - intros o a H. unfold KnowledgeAssertion.model_validate in H.
    apply (model_bind_Ok (JObj o)) in H as (o' & [= <-] & H).
    apply bind_Ok in H as (u & _ & H).
    next_field H Hassertion. next_field H Hvalue. next_field H Hdescription.
    injection H as <-. simpl. unfold required, defaulted in *.
    destruct (Json.get "assertion" o) as [j|]; [|discriminate].
    apply at_loc_Ok, str_Ok in Hassertion as ->. split_and!; [done| |].
    + intros Hnone. rewrite Hnone in Hvalue. by injection Hvalue as <-.
    + intros b Hsome. rewrite Hsome in Hvalue. by injection Hvalue as <-.
Qed.

Lemma to_dsl_dict_knowledge_base_witness :
  let o := [("assertion", JStr "x > 0")] in
  ∃ a, KnowledgeAssertion.model_validate (JObj o) = Ok a
       ∧ KnowledgeAssertion.value a = true.
Proof.
  intros o. eexists. split; [reflexivity|].
  exact (proj1 (proj2 (proj2 to_dsl_dict_knowledge_base o _ eq_refl)) eq_refl).
Defined.

(** ** The generator *)

Section generator_facts.
Import Generator.
Variable build_prompt : string → string.
Variable json_loads : string → Generator.decoded.
Variable model_dump_json : StructuredProgram.t → string.
Implicit Types (self : Z3ProgramGenerator) (messages : list message)
  (log : list request).

Lemma M_bind_returns {A B} (m : M A) (k : A → M B) log a log' :
  m log = (Returns a, log') → (m ≫= k) log = k a log'.
Proof. unfold mbind, M_bind. by intros ->. Qed.

Lemma try_outcome {A} (m : M A) log out log' :
  m log = (out, log') →
  try_ m log
  = (Returns match out with Returns a => inr a | Raises exc => inl exc end, log').
Proof. unfold try_. intros ->. by destruct out. Qed.

(** The structured request never raises, and sends at most one request,
    which carries the messages. *)
Lemma structured_api_returns self messages temperature max_tokens log :
  ∃ structured_result new,
    _call_structured_api model_dump_json self messages temperature max_tokens log
    = (Returns structured_result, log ++ new)
    ∧ Forall (λ r, sent r = messages) new
    ∧ (is_Some structured_result → new ≠ []).
Proof.
  unfold _call_structured_api.
  destruct (responses (client self)) as [[[parse_fn|]]|]; cbn;
    try (exists None, []; rewrite app_nil_r; split_and!;
         [done | constructor | by intros []]).
  unfold mbind, M_bind, try_, call.
  destruct (parse_fn (responses_parse (model_name self) messages temperature
              max_tokens)) as [[[p|]]|exc];
    eexists _, [_]; (split; [reflexivity|]); by repeat constructor.
Qed.

(** The chat request sends one request, which carries the messages. *)
Lemma chat_completion_sends self messages max_tokens log :
  ∃ out r,
    _call_chat_completion self messages max_tokens log = (out, log ++ [r])
    ∧ sent r = messages.
Proof.
  unfold _call_chat_completion, mbind, M_bind, call, throw.
  destruct (create (client self)
              (chat_completions_create (model_name self) messages max_tokens))
    as [[[|choice ?]]|exc];
    by eexists _, _.
Qed.

(** What [generate] and [generate_with_feedback] make of the outcome of
    the chat request: a failure when it raised, the extraction's exception
    when that raised, and the result of the extraction otherwise. *)
Lemma chat_outcome (error_message : string) (out : outcome (option string)) log1 log2
    (k : string + option string → M GenerationResult) (m : M (option string)) :
  m log1 = (out, log2) →
  (∀ r, k r
        = match r with
          | inl exc =>
              mret {| json_program := None; raw_response := "";
                      success := false; error := Some exc |}
          | inr raw_response =>
              json_program ← finish (_extract_json json_loads raw_response);
              if from_option Json.truthy false json_program
              then mret {| json_program := json_program;
                           raw_response := default "" raw_response;
                           success := true; error := None |}
              else mret {| json_program := None;
                           raw_response := default "" raw_response;
                           success := false; error := Some error_message |}
          end) →
  (try_ m ≫= k) log1
  = (match out with
     | Raises exc =>
         Returns {| json_program := None; raw_response := "";
                    success := false; error := Some exc |}
     | Returns content =>
         match _extract_json json_loads content with
         | Raises exc => Raises exc
         | Returns extracted =>
             Returns
               match extracted with
               | Some j =>
                   if Json.truthy j
                   then {| json_program := Some j;
                           raw_response := default "" content;
                           success := true; error := None |}
                   else {| json_program := None;
                           raw_response := default "" content;
                           success := false; error := Some error_message |}
               | None =>
                   {| json_program := None;
                      raw_response := default "" content;
                      success := false; error := Some error_message |}
               end
         end
     end, log2).
Proof.
  intros Hm Hk.
  rewrite (M_bind_returns _ _ _ _ _ (try_outcome _ _ _ _ Hm)), Hk.
  destruct out as [content|exc]; [|done].
  unfold mbind, M_bind, finish.
  destruct (_extract_json json_loads content) as [[j|]|exc]; [|done..].
  simpl. by destruct (Json.truthy j).
Qed.

(** The result of [generate], by what the client answered. *)
Lemma generate_cases self question temperature max_tokens log :
  let messages := _initial_messages (build_prompt question) in
  ∃ structured_result log1,
    _call_structured_api model_dump_json self messages temperature max_tokens log
    = (Returns structured_result, log1)
    ∧ match structured_result with
      | Some (json_program, raw_response) =>
          generate build_prompt json_loads model_dump_json self question
            temperature max_tokens log
          = (Returns {| json_program := Some json_program;
                        raw_response := raw_response;
                        success := true; error := None |}, log1)
      | None =>
          ∃ out log2,
            _call_chat_completion self messages max_tokens log1 = (out, log2)
            ∧ generate build_prompt json_loads model_dump_json self question
                temperature max_tokens log
              = (match out with
                 | Raises exc =>
                     Returns {| json_program := None; raw_response := "";
                                success := false; error := Some exc |}
                 | Returns content =>
                     match _extract_json json_loads content with
                     | Raises exc => Raises exc
                     | Returns extracted =>
                         Returns
                           match extracted with
                           | Some j =>
                               if Json.truthy j
                               then {| json_program := Some j;
                                       raw_response := default "" content;
                                       success := true; error := None |}
                               else {| json_program := None;
                                       raw_response := default "" content;
                                       success := false;
                                       error := Some "Failed to extract valid JSON from response" |}
                           | None =>
                               {| json_program := None;
                                  raw_response := default "" content;
                                  success := false;
                                  error := Some "Failed to extract valid JSON from response" |}
                           end
                     end
                 end, log2)
      end.
Proof.
  intros messages.
  destruct (structured_api_returns self messages temperature max_tokens log)
    as (structured_result & new & Hstructured & _).
  exists structured_result, (log ++ new). split; [done|].
  unfold generate. fold messages.
  rewrite (M_bind_returns _ _ _ _ _ Hstructured).
  destruct structured_result as [[json_program raw_response]|]; [done|].
  destruct (_call_chat_completion self messages max_tokens (log ++ new))
    as [out log2] eqn:Hchat.
  exists out, log2. split; [done|].
  apply (chat_outcome _ _ _ _ _ _ Hchat). by intros [exc|raw_response].
Qed.

(** The result of [generate_with_feedback], by what the client answered. *)
Lemma generate_with_feedback_cases self question error_trace previous_response
    temperature max_tokens log :
  let messages :=
    _feedback_messages (build_prompt question) previous_response
      ("There was an error processing your response:"
       +:+ String "010"%char error_trace
       +:+ String "010"%char "Please fix the JSON accordingly.") in
  ∃ structured_result log1,
    _call_structured_api model_dump_json self messages temperature max_tokens log
    = (Returns structured_result, log1)
    ∧ match structured_result with
      | Some (json_program, raw_response) =>
          generate_with_feedback build_prompt json_loads model_dump_json self
            question error_trace previous_response temperature max_tokens log
          = (Returns {| json_program := Some json_program;
                        raw_response := raw_response;
                        success := true; error := None |}, log1)
      | None =>
          ∃ out log2,
            _call_chat_completion self messages max_tokens log1 = (out, log2)
            ∧ generate_with_feedback build_prompt json_loads model_dump_json self
                question error_trace previous_response temperature max_tokens log
              = (match out with
                 | Raises exc =>
                     Returns {| json_program := None; raw_response := "";
                                success := false; error := Some exc |}
                 | Returns content =>
                     match _extract_json json_loads content with
                     | Raises exc => Raises exc
                     | Returns extracted =>
                         Returns
                           match extracted with
                           | Some j =>
                               if Json.truthy j
                               then {| json_program := Some j;
                                       raw_response := default "" content;
                                       success := true; error := None |}
                               else {| json_program := None;
                                       raw_response := default "" content;
                                       success := false;
                                       error := Some "Failed to extract valid JSON from feedback response" |}
                           | None =>
                               {| json_program := None;
                                  raw_response := default "" content;
                                  success := false;
                                  error := Some "Failed to extract valid JSON from feedback response" |}
                           end
                     end
                 end, log2)
      end.
Proof.
  intros messages.
  destruct (structured_api_returns self messages temperature max_tokens log)
    as (structured_result & new & Hstructured & _).
  exists structured_result, (log ++ new). split; [done|].
  unfold generate_with_feedback. fold messages.
  rewrite (M_bind_returns _ _ _ _ _ Hstructured).
  destruct structured_result as [[json_program raw_response]|]; [done|].
  destruct (_call_chat_completion self messages max_tokens (log ++ new))
    as [out log2] eqn:Hchat.
  exists out, log2. split; [done|].
  apply (chat_outcome _ _ _ _ _ _ Hchat). by intros [exc|raw_response].
Qed.

(** [_extract_json] raises on a content that is [None] and when
    [json.loads] raises something else than [JSONDecodeError], and only
    then. *)
Lemma extract_json_raises (content : option string) (exc : string) :
  _extract_json json_loads content = Raises exc →
  content = None ∨ ∃ g, json_loads g = OtherError exc.
Proof.
  destruct content as [text|]; [|by left]. right. revert H.
  unfold _extract_json, loads_or_none.
  destruct (search_fenced text) as [g|].
  - destruct (json_loads g) eqn:Hg; try done. intros [= <-]. by exists g.
  - destruct (search_braces text) as [g|]; [|done].
    destruct (json_loads g) eqn:Hg; try done. intros [= <-]. by exists g.
Qed.

(** C5, amended. [generate] lets no exception of the chat request
    through: when the request raises, the result is a failure without
    program, with an empty raw response and the message of the exception;
    when it answers with a text from which [_extract_json] returns
    nothing, the result is a failure with the whole text as raw response
    and a message.  An exception leaves [generate] only from
    [_extract_json], called outside the [try]: on a content that is
    [None], or when [json.loads] raises something else than
    [JSONDecodeError]. *)
Theorem generate_failure_results self question temperature max_tokens log :
  let messages := _initial_messages (build_prompt question) in
  let run :=
    generate build_prompt json_loads model_dump_json self question temperature
      max_tokens log in
  (∀ log1 exc log2,
     _call_structured_api model_dump_json self messages temperature max_tokens log
     = (Returns None, log1) →
     _call_chat_completion self messages max_tokens log1 = (Raises exc, log2) →
     run = (Returns {| json_program := None; raw_response := "";
                       success := false; error := Some exc |}, log2))
  ∧ (∀ log1 raw log2,
       _call_structured_api model_dump_json self messages temperature max_tokens log
       = (Returns None, log1) →
       _call_chat_completion self messages max_tokens log1
       = (Returns (Some raw), log2) →
       _extract_json json_loads (Some raw) = Returns None →
       ∃ msg, msg ≠ ""
              ∧ run = (Returns {| json_program := None; raw_response := raw;
                                  success := false; error := Some msg |}, log2))
  ∧ (∀ exc log',
       run = (Raises exc, log') →
       ∃ log1 content,
         _call_structured_api model_dump_json self messages temperature max_tokens
           log = (Returns None, log1)
         ∧ _call_chat_completion self messages max_tokens log1
           = (Returns content, log')
         ∧ _extract_json json_loads content = Raises exc
         ∧ (content = None ∨ ∃ g, json_loads g = OtherError exc)).
Proof.
  intros messages run.
  destruct (generate_cases self question temperature max_tokens log)
    as (structured_result & log1 & Hstructured & Hrun).
  fold messages in Hstructured, Hrun. fold run in Hrun. split_and!.
  - intros log1' exc log2' Hnone Hchat.
    rewrite Hnone in Hstructured. injection Hstructured as <- <-.
    destruct Hrun as (out & log2 & Hchat' & ->).
    rewrite Hchat in Hchat'. by injection Hchat' as <- <-.
  - intros log1' raw log2' Hnone Hchat Hextract.
    rewrite Hnone in Hstructured. injection Hstructured as <- <-.
    destruct Hrun as (out & log2 & Hchat' & ->).
    rewrite Hchat in Hchat'. injection Hchat' as <- <-. rewrite Hextract.
    eexists. split; [|reflexivity]. discriminate.
  - intros exc log' Hraises.
    destruct structured_result as [[json_program raw_response]|];
      [by rewrite Hrun in Hraises|].
    destruct Hrun as (out & log2 & Hchat & Hrun). rewrite Hrun in Hraises.
    destruct out as [content|exc']; [|done].
    destruct (_extract_json json_loads content) as [extracted|exc'] eqn:Hextract;
      [done|].
    injection Hraises as -> ->. exists log1, content.
    split_and!; [done..|]. by apply extract_json_raises.
Qed.

(** C9. In every result of [generate] and of [generate_with_feedback],
    success holds exactly when there is a program, and then there is no
    error.  Each of them ends in such a result or in an exception of
    [_extract_json]. *)
Theorem generation_result_consistent self question error_trace previous_response
    temperature max_tokens log :
  (∃ out log',
     generate build_prompt json_loads model_dump_json self question temperature
       max_tokens log = (out, log')
     ∧ match out with
       | Returns result =>
           (success result = true ↔ is_Some (json_program result))
           ∧ (success result = true → error result = None)
       | Raises exc => ∃ content, _extract_json json_loads content = Raises exc
       end)
  ∧ (∃ out log',
       generate_with_feedback build_prompt json_loads model_dump_json self question
         error_trace previous_response temperature max_tokens log
       = (out, log')
       ∧ match out with
         | Returns result =>
             (success result = true ↔ is_Some (json_program result))
             ∧ (success result = true → error result = None)
         | Raises exc => ∃ content, _extract_json json_loads content = Raises exc
         end).
Proof.
  split.
  - destruct (generate_cases self question temperature max_tokens log)
      as ([[json_program raw_response]|] & log1 & _ & Hrun).
    + eexists _, _. split; [exact Hrun|]. simpl. by split.
    + destruct Hrun as (out & log2 & _ & ->). eexists _, _. split; [done|].
      destruct out as [content|exc];
        [destruct (_extract_json json_loads content) as [[j|]|exc] eqn:Hextract;
           [destruct (Json.truthy j)| |by exists content]|];
        simpl; (split; [split; [done|]|done]);
        first [done | by intros ?%is_Some_None].
  - destruct (generate_with_feedback_cases self question error_trace
                previous_response temperature max_tokens log)
      as ([[json_program raw_response]|] & log1 & _ & Hrun).
    + eexists _, _. split; [exact Hrun|]. simpl. by split.
    + destruct Hrun as (out & log2 & _ & ->). eexists _, _. split; [done|].
      destruct out as [content|exc];
        [destruct (_extract_json json_loads content) as [[j|]|exc] eqn:Hextract;
           [destruct (Json.truthy j)| |by exists content]|];
        simpl; (split; [split; [done|]|done]);
        first [done | by intros ?%is_Some_None].
Qed.

(** C7. Every request [generate_with_feedback] sends carries the same
    four messages, in this order: the system prompt, the question prompt
    of the user, the previous response as the assistant's, and the
    feedback of the user, which opens with "There was an error processing
    your response:" and the error trace on the next line.  At least one
    request is sent. *)
Theorem feedback_messages_sent self question error_trace previous_response
    temperature max_tokens log :
  ∃ out new,
    generate_with_feedback build_prompt json_loads model_dump_json self question
      error_trace previous_response temperature max_tokens log
    = (out, log ++ new)
    ∧ new ≠ []
    ∧ Forall (λ r, sent r = [
        {| role := "system"; content := STRUCTURED_SYSTEM_PROMPT |};
        {| role := "user"; content := build_prompt question |};
        {| role := "assistant"; content := previous_response |};
        {| role := "user";
           content := "There was an error processing your response:"
                      +:+ String "010"%char error_trace
                      +:+ String "010"%char "Please fix the JSON accordingly." |} ])
        new.
Proof.
  destruct (generate_with_feedback_cases self question error_trace
              previous_response temperature max_tokens log)
    as (structured_result & log1 & Hstructured & Hrun).
  destruct (structured_api_returns self
              (_feedback_messages (build_prompt question) previous_response
                 ("There was an error processing your response:"
                  +:+ String "010"%char error_trace
                  +:+ String "010"%char "Please fix the JSON accordingly."))
              temperature max_tokens log)
    as (structured_result' & new1 & Hstructured' & Hsent1 & Hnonempty).
  rewrite Hstructured' in Hstructured. injection Hstructured as -> <-.
  destruct structured_result as [[json_program raw_response]|].
  - exists (Returns {| json_program := Some json_program;
                       raw_response := raw_response;
                       success := true; error := None |}), new1.
    split_and!; [done| |done]. by apply Hnonempty.
  - destruct Hrun as (out & log2 & Hchat & ->).
    edestruct chat_completion_sends as (out' & r & Hchat' & Hsent2).
    rewrite Hchat' in Hchat. injection Hchat as -> <-.
    eexists _, (new1 ++ [r]). rewrite app_assoc. split_and!; [done| |].
    + by intros [_ ?]%app_eq_nil.
    + apply Forall_app. by repeat constructor.
Qed.
End generator_facts.

(** ** Extraction of the JSON text *)

Section extraction_facts.
Import Generator.
Implicit Types (s r g pre post body : string) (c : Ascii.ascii).

Lemma app_String c s r : String c s +:+ r = String c (s +:+ r).
Proof. reflexivity. Qed.

Lemma app_assoc_string s r g : (s +:+ r) +:+ g = s +:+ r +:+ g.
Proof. induction s as [|c s IH]; [done|]. by rewrite !app_String, IH. Qed.

Lemma strip_prefix_Some p s r : strip_prefix p s = Some r → s = p +:+ r.
Proof.
  revert s. induction p as [|a p IH]; intros s; simpl.
  - by intros [= ->].
  - destruct s as [|b s]; [done|].
    destruct (Ascii.eqb_spec a b) as [->|]; [|done].
    intros H%IH. by rewrite app_String, H.
Qed.

Lemma skip_space_split s :
  ∃ ws, s = ws +:+ skip_space s ∧ all_space ws = true.
Proof.
  induction s as [|c s (ws & IH & Hws)]; [by exists ""|]. simpl.
  destruct (is_space c) eqn:Hc; [|by exists ""].
  exists (String c ws). rewrite app_String, <- IH. simpl. by rewrite Hc.
Qed.

Lemma skip_space_app ws c r :
  all_space ws = true → is_space c = false →
  skip_space (ws +:+ String c r) = String c r.
Proof.
  intros Hws Hc. induction ws as [|c' ws IH]; simpl in *.
  - by rewrite Hc.
  - apply andb_true_iff in Hws as [-> Hws]. by apply IH.
Qed.

Lemma closes_split r :
  closes r = true →
  ∃ ws post, r = ws +:+ "```" +:+ post ∧ all_space ws = true.
Proof.
  unfold closes. intros [post Hpost]%bool_decide_eq_true.
  apply strip_prefix_Some in Hpost.
  destruct (skip_space_split r) as (ws & Hr & Hws).
  exists ws, post. by rewrite <- Hpost.
Qed.

Lemma closes_app ws post :
  all_space ws = true → closes (ws +:+ "```" +:+ post) = true.
Proof.
  intros Hws. unfold closes. apply bool_decide_eq_true.
  change ("```" +:+ post) with (String "`"%char ("``" +:+ post)).
  by rewrite skip_space_app.
Qed.

Lemma lazy_body_Some s g :
  lazy_body s = Some g →
  ∃ body r, g = body +:+ "}" ∧ s = g +:+ r ∧ closes r = true.
Proof.
  revert g. induction s as [|c s IH]; intros g; simpl; [done|].
  destruct (Ascii.eqb_spec c "}"%char) as [->|_]; simpl.
  - destruct (closes s) eqn:Hs.
    + intros [= <-]. by exists "", s.
    + destruct (lazy_body s) as [g'|]; simpl; [|done]. intros [= <-].
      destruct (IH g' eq_refl) as (body & r & -> & -> & Hr).
      by exists (String "}"%char body), r.
  - destruct (lazy_body s) as [g'|]; simpl; [|done]. intros [= <-].
    destruct (IH g' eq_refl) as (body & r & -> & -> & Hr).
    by exists (String c body), r.
Qed.

Lemma lazy_body_complete body r :
  closes r = true → is_Some (lazy_body (body +:+ String "}"%char r)).
Proof.
  intros Hr. induction body as [|c body [g IH]]; simpl.
  - by rewrite Hr.
  - rewrite IH.
    by destruct (Ascii.eqb c "}" && closes (body +:+ String "}"%char r)).
Qed.

Lemma fenced_at_Some s g :
  fenced_at s = Some g →
  ∃ ws1 body ws2 post,
    s = "```json" +:+ ws1 +:+ g +:+ ws2 +:+ "```" +:+ post
    ∧ all_space ws1 = true ∧ all_space ws2 = true
    ∧ g = "{" +:+ body +:+ "}".
Proof.
  unfold fenced_at.
  destruct (strip_prefix "```json" s) as [r|] eqn:Hr; [|done].
  apply strip_prefix_Some in Hr as ->.
  destruct (skip_space_split r) as (ws1 & Hr & Hws1).
  destruct (skip_space r) as [|c rest]; [done|].
  destruct (Ascii.eqb_spec c "{"%char) as [->|]; [|done].
  destruct (lazy_body rest) as [g'|] eqn:Hbody; simpl; [|done]. intros [= <-].
  apply lazy_body_Some in Hbody as (body & r' & -> & -> & Hclose).
  apply closes_split in Hclose as (ws2 & post & -> & Hws2).
  exists ws1, body, ws2, post. split_and!; try done.
  rewrite Hr at 1. by rewrite !app_String, app_assoc_string.
Qed.

Lemma fenced_at_match s g : fenced_at s = Some g → fenced_match s "" g.
Proof. exact (fenced_at_Some s g). Qed.

Lemma search_fenced_match s g :
  search_fenced s = Some g → ∃ pre, fenced_match s pre g.
Proof.
  induction s as [|c s IH]; simpl; [done|].
  destruct (fenced_at (String c s)) as [g'|] eqn:Hat.
  - intros [= <-]. exists "". by apply fenced_at_match.
  - intros (pre & ws1 & body & ws2 & post & -> & H)%IH.
    by exists (String c pre), ws1, body, ws2, post.
Qed.

Lemma search_fenced_here s g : fenced_at s = Some g → search_fenced s = Some g.
Proof. intros H. destruct s; simpl; [discriminate H | by rewrite H]. Qed.

(** The pattern tried where it matches: what is left to find is the
    shortest body. *)
Lemma fenced_at_here ws1 body ws2 post :
  all_space ws1 = true →
  fenced_at ("```json" +:+ ws1 +:+ ("{" +:+ body +:+ "}") +:+ ws2 +:+ "```" +:+ post)
  = String "{"%char <$> lazy_body (body +:+ String "}"%char (ws2 +:+ "```" +:+ post)).
Proof.
  intros Hws1. unfold fenced_at.
  change (strip_prefix "```json" ("```json" +:+ ?r)) with (Some r).
  rewrite !app_String, skip_space_app by done.
  rewrite Ascii.eqb_refl.
  change ("" +:+ ?r) with r. by rewrite app_assoc_string.
Qed.

Lemma fenced_at_complete s g : fenced_match s "" g → is_Some (fenced_at s).
Proof.
  intros (ws1 & body & ws2 & post & -> & Hws1 & Hws2 & ->).
  change ("" +:+ ?r) with r. rewrite fenced_at_here by done.
  destruct (lazy_body_complete body (ws2 +:+ "```" +:+ post)) as [g ->];
    [by apply closes_app|].
  by eexists.
Qed.

Lemma search_fenced_complete s pre g :
  fenced_match s pre g → is_Some (search_fenced s).
Proof.
  revert s. induction pre as [|c pre IH]; intros s Hmatch.
  - destruct (fenced_at_complete s g Hmatch) as [g' Hg'].
    exists g'. by apply search_fenced_here.
  - destruct Hmatch as (ws1 & body & ws2 & post & -> & Hws1 & Hws2 & ->).
    rewrite app_String. simpl. destruct (fenced_at _); [done|].
    apply IH. by exists ws1, body, ws2, post.
Qed.

Lemma length_append s r :
  String.length (s +:+ r) = String.length s + String.length r.
Proof. induction s as [|c s IH]; simpl; [done|]. by rewrite IH. Qed.

Lemma append_inv_head s r g : s +:+ r = s +:+ g → r = g.
Proof. induction s as [|c s IH]; simpl; [done|]. intros [= H]. auto. Qed.

Lemma append_same_length s r s' r' :
  s +:+ r = s' +:+ r' → String.length s = String.length s' → s = s'.
Proof.
  revert s'. induction s as [|c s IH]; intros [|c' s']; simpl; try done.
  intros [= -> H] [= Hlen]. f_equal. by apply IH.
Qed.

(** The lazy body is the shortest one after which the fence closes. *)
Lemma lazy_body_shortest s g body r :
  lazy_body s = Some g →
  s = body +:+ String "}"%char r → closes r = true →
  String.length g ≤ String.length (body +:+ "}").
Proof.
  revert g body. induction s as [|c s IH]; intros g body; simpl; [done|].
  destruct (Ascii.eqb c "}" && closes s) eqn:Hhere.
  - intros [= <-] _ _. rewrite length_append. simpl. lia.
  - destruct (lazy_body s) as [g'|] eqn:Hg'; simpl; [|done]. intros [= <-].
    destruct body as [|c' body]; simpl.
    + intros [= -> ->] Hr. by rewrite Ascii.eqb_refl, Hr in Hhere.
    + intros [= -> ->] Hr. apply le_n_S. by eapply IH.
Qed.

Lemma fenced_at_shortest s g g' :
  fenced_at s = Some g → fenced_match s "" g' →
  String.length g ≤ String.length g'.
Proof.
  intros Hat (ws1 & body & ws2 & post & -> & Hws1 & Hws2 & ->).
  change ("" +:+ ?r) with r in Hat. rewrite fenced_at_here in Hat by done.
  destruct (lazy_body _) as [g0|] eqn:Hg0; [|done]. injection Hat as <-.
  change ("{" +:+ body +:+ "}") with (String "{"%char (body +:+ "}")). simpl.
  apply le_n_S. eapply lazy_body_shortest; [exact Hg0|done|by apply closes_app].
Qed.

(** A match of a text that starts with the character [c] starts there or
    is a match of the rest. *)
Lemma fenced_match_cons c s pre g :
  fenced_match (String c s) pre g →
  pre = "" ∨ ∃ pre', pre = String c pre' ∧ fenced_match s pre' g.
Proof.
  intros (ws1 & body & ws2 & post & Htext & H).
  destruct pre as [|c' pre]; [by left|]. right.
  rewrite app_String in Htext. injection Htext as <- ->.
  exists pre. split; [done|]. by exists ws1, body, ws2, post.
Qed.

(** The search returns the match that starts first and is shortest. *)
Lemma search_fenced_first s g : search_fenced s = Some g → fenced s g.
Proof.
  induction s as [|c s IH]; simpl; [done|].
  destruct (fenced_at (String c s)) as [g0|] eqn:Hat.
  - intros [= <-]. exists "". split; [by apply fenced_at_match|].
    intros pre' g' Hmatch.
    destruct pre' as [|c' pre']; [|left; simpl; lia].
    right. split; [done|]. by eapply fenced_at_shortest.
  - intros (pre & Hmatch & Hfirst)%IH. exists (String c pre). split.
    + destruct Hmatch as (ws1 & body & ws2 & post & -> & H).
      by exists ws1, body, ws2, post.
    + intros pre' g' Hmatch'.
      destruct (fenced_match_cons _ _ _ _ Hmatch') as [->|(pre'' & -> & Hrest)].
      * apply fenced_at_complete in Hmatch' as [? Hsome]. congruence.
      * destruct (Hfirst _ _ Hrest) as [Hlt|[-> Hle]]; [left; simpl; lia|by right].
Qed.

Lemma fenced_unique s g g' : fenced s g → fenced s g' → g = g'.
Proof.
  intros (pre & Hmatch & Hfirst) (pre' & Hmatch' & Hfirst').
  destruct (Hfirst _ _ Hmatch') as [Hlt|[-> Hle]];
    destruct (Hfirst' _ _ Hmatch) as [Hlt'|[Heq Hle']]; try lia.
  { subst. lia. }
  destruct Hmatch as (ws1 & body & ws2 & post & -> & Hws1 & _ & Hg).
  destruct Hmatch' as (ws1' & body' & ws2' & post' & Htext & Hws1' & _ & Hg').
  apply append_inv_head in Htext.
  change ("```json" +:+ ?r) with ("```json" +:+ r) in Htext.
  apply (append_inv_head "```json") in Htext.
  apply (f_equal skip_space) in Htext.
  rewrite Hg in Htext at 1. rewrite Hg' in Htext at 1.
  rewrite !app_String, !skip_space_app in Htext by done.
  rewrite <- !app_String in Htext.
  change (String "{"%char ("" +:+ ?b +:+ "}")) with ("{" +:+ b +:+ "}") in Htext.
  rewrite <- Hg, <- Hg' in Htext.
  eapply append_same_length; [exact Htext|lia].
Qed.

Lemma fenced_search s g : fenced s g → search_fenced s = Some g.
Proof.
  intros Hg. destruct Hg as (pre & Hmatch & Hfirst).
  destruct (search_fenced_complete s pre g Hmatch) as [g' Hg'].
  rewrite Hg'. f_equal. apply (fenced_unique s); [by apply search_fenced_first|].
  by exists pre.
Qed.

Lemma upto_last_brace_None s : upto_last_brace s = None → has "}" s = false.
Proof.
  induction s as [|c s IH]; simpl; [done|].
  destruct (upto_last_brace s); [done|].
  destruct (Ascii.eqb c "}"); [done|]. auto.
Qed.

Lemma upto_last_brace_Some s r :
  upto_last_brace s = Some r →
  ∃ mid post, r = mid +:+ "}" ∧ s = r +:+ post ∧ has "}" post = false.
Proof.
  revert r. induction s as [|c s IH]; intros r; simpl; [done|].
  destruct (upto_last_brace s) as [r'|] eqn:Hs.
  - intros [= <-]. destruct (IH r' eq_refl) as (mid & post & -> & -> & Hpost).
    by exists (String c mid), post.
  - destruct (Ascii.eqb_spec c "}"%char) as [->|]; [|done]. intros [= <-].
    exists "", s. split_and!; [done..|]. by apply upto_last_brace_None.
Qed.

Lemma upto_last_brace_complete mid post :
  has "}" post = false →
  upto_last_brace (mid +:+ "}" +:+ post) = Some (mid +:+ "}").
Proof.
  intros Hpost. induction mid as [|c mid IH].
  - change ("" +:+ "}" +:+ post) with (String "}"%char post). simpl.
    destruct (upto_last_brace post) as [r|] eqn:Hr; [|done].
    apply upto_last_brace_Some in Hr as (mid & post' & -> & -> & _).
    rewrite app_assoc_string in Hpost. clear -Hpost. exfalso.
    induction mid as [|c mid IH]; simpl in Hpost; [done|].
    apply orb_false_iff in Hpost as [_ Hpost]. auto.
  - change (String c mid +:+ "}" +:+ post) with (String c (mid +:+ "}" +:+ post)).
    cbn [upto_last_brace]. by rewrite IH.
Qed.

Lemma search_braces_None s : has "}" s = false → search_braces s = None.
Proof.
  induction s as [|c s IH]; simpl; [done|].
  intros [Hc Hs]%orb_false_iff. rewrite (IH Hs).
  destruct (Ascii.eqb c "{"); [|done].
  destruct (upto_last_brace s) as [r|] eqn:Hr; [|done].
  apply upto_last_brace_Some in Hr as (mid & post & -> & -> & _).
  rewrite app_assoc_string in Hs. clear -Hs. exfalso.
  induction mid as [|c' mid IH']; simpl in Hs; [done|].
  apply orb_false_iff in Hs as [_ Hs]. auto.
Qed.

Lemma search_braces_sound s g : search_braces s = Some g → braced s g.
Proof.
  induction s as [|c s IH]; simpl; [done|].
  destruct (Ascii.eqb_spec c "{"%char) as [->|Hc].
  - destruct (upto_last_brace s) as [r|] eqn:Hr; simpl.
    + intros [= <-].
      apply upto_last_brace_Some in Hr as (mid & post & -> & -> & Hpost).
      by exists "", mid, post.
    + by rewrite (search_braces_None s (upto_last_brace_None s Hr)).
  - intros (pre & mid & post & -> & -> & Hpre & Hpost)%IH.
    exists (String c pre), mid, post. split_and!; try done.
    simpl. rewrite Hpre, orb_false_r. by apply Ascii.eqb_neq.
Qed.

Lemma search_braces_complete s g : braced s g → search_braces s = Some g.
Proof.
  intros (pre & mid & post & -> & -> & Hpre & Hpost).
  induction pre as [|c pre IH].
  - change ("" +:+ ("{" +:+ mid +:+ "}") +:+ post)
      with (String "{"%char ((mid +:+ "}") +:+ post)).
    rewrite app_assoc_string. simpl.
    by rewrite (upto_last_brace_complete mid post Hpost).
  - simpl in Hpre. apply orb_false_iff in Hpre as [Hc Hpre].
    rewrite app_String. simpl. rewrite Hc. auto.
Qed.

Variable json_loads : string → Generator.decoded.

(** C10, amended. When the fenced pattern matches somewhere in the text,
    [_extract_json] parses group 1 of the match the search returns, the
    one that starts first and is shortest, and nothing else: the result
    is what [json.loads] gives for it, [None] at once when that is a
    [JSONDecodeError], whatever the braces of the text hold.  When the
    pattern matches nowhere, which is also so when the content between
    [```json] and [```] is not an opening brace through a closing brace
    with white space around, the result is the parse of the text from
    its first opening brace through its last closing brace, and [None]
    when the text has no such braces. *)
Theorem extract_json_fence_first (text : string) :
  (∀ g, fenced text g →
        _extract_json json_loads (Some text) = loads_or_none json_loads g
        ∧ (json_loads g = JSONDecodeError →
           _extract_json json_loads (Some text) = Returns None))
  ∧ (∀ g g', fenced text g → fenced text g' → g = g')
  ∧ ((∃ pre g, fenced_match text pre g) → ∃ g, fenced text g)
  ∧ (¬ (∃ pre g, fenced_match text pre g) →
     (∀ g, braced text g →
           _extract_json json_loads (Some text) = loads_or_none json_loads g)
     ∧ (¬ (∃ g, braced text g) →
        _extract_json json_loads (Some text) = Returns None)).
Proof.
  unfold _extract_json. split_and!.
  - intros g ->%fenced_search. split; [done|]. unfold loads_or_none. by intros ->.
  - apply fenced_unique.
  - intros (pre & g & [g' Hg']%search_fenced_complete).
    exists g'. by apply search_fenced_first.
  - intros Hnone.
    destruct (search_fenced text) as [g|] eqn:Hg.
    { destruct Hnone. apply search_fenced_match in Hg as [pre Hg]. by exists pre, g. }
    split.
    + by intros g ->%search_braces_complete.
    + intros Hbraces. destruct (search_braces text) as [g'|] eqn:Hg'; [|done].
      destruct Hbraces. exists g'. by apply search_braces_sound.
Qed.
End extraction_facts.

(** C10, as stated, fails: this text holds a fenced block whose content
    is no JSON, and [_extract_json] does not return [None] but goes on to
    the braces of the text and returns their parse. *)
Lemma fenced_block_falls_back :
  let json_loads s :=
    if String.eqb s "{}" then Generator.Decoded (JObj [])
    else Generator.JSONDecodeError in
  let text := "```json {} // note ```" in
  Generator.json_block text " {} // note "
  ∧ Generator.loads_or_none json_loads " {} // note " = Generator.Returns None
  ∧ Generator._extract_json json_loads (Some text)
    = Generator.Returns (Some (JObj [])).
Proof.
  intros json_loads text. split_and!; [|reflexivity..].
  by exists "", "".
Qed.

Lemma extract_json_fence_first_witness :
  let json_loads s :=
    if String.eqb s "{}" then Generator.Decoded (JObj [])
    else Generator.JSONDecodeError in
  let text := "```json {broken} ``` and ```json {} ```, {}" in
  Generator.fenced text "{broken}"
  ∧ Generator._extract_json json_loads (Some text) = Generator.Returns None.
Proof.
  intros json_loads text.
  assert (Generator.fenced text "{broken}") as Hfenced
    by by apply search_fenced_first.
  split; [done|].
  by apply (proj1 (extract_json_fence_first json_loads text) "{broken}" Hfenced).
Defined.

(** C5, as stated, fails: the chat request succeeds and [generate]
    raises, on a message whose content is [None], and on a text whose
    number [json.loads] refuses with a [ValueError]. *)
Lemma generate_raises :
  let build_prompt question := "Question: " +:+ question in
  let model_dump_json (p : StructuredProgram.t) := "" in
  let answering content :=
    {| Generator.client :=
         {| Generator.responses := None;
            Generator.create := λ _, Generator.Returns
              {| Generator.choices :=
                   [ {| Generator.message_of :=
                          {| Generator.message_content := content |} |} ] |} |};
       Generator.model_name := "gpt-4o" |} in
  let huge :=
    "{" +:+ String "034"%char ("n" +:+ String "034"%char
      (": " +:+ Nat.iter 4301 (String "9"%char) "}")) in
  let limit :=
    "Exceeds the limit (4300 digits) for integer string conversion: "
    +:+ "value has 4301 digits; use sys.set_int_max_str_digits() "
    +:+ "to increase the limit" in
  let json_loads (s : string) :=
    if String.eqb s huge then Generator.OtherError limit
    else Generator.JSONDecodeError in
  (Generator.generate build_prompt json_loads model_dump_json (answering None)
     "Is 2 even?" Generator.default_temperature Generator.default_max_tokens []).1
  = Generator.Raises "expected string or bytes-like object, got 'NoneType'"
  ∧ (Generator.generate build_prompt json_loads model_dump_json
       (answering (Some huge)) "Is 2 even?" Generator.default_temperature
       Generator.default_max_tokens []).1
    = Generator.Raises limit.
Proof.
  intros build_prompt model_dump_json answering huge limit json_loads.
  split; vm_compute; reflexivity.
Qed.

Lemma generate_failure_results_witness :
  let build_prompt question := "Question: " +:+ question in
  let json_loads (s : string) := Generator.JSONDecodeError in
  let model_dump_json (p : StructuredProgram.t) := "" in
  let failing :=
    {| Generator.client :=
         {| Generator.responses := None;
            Generator.create := λ _, Generator.Raises "rate limit" |};
       Generator.model_name := "gpt-4o" |} in
  let chatty :=
    {| Generator.client :=
         {| Generator.responses := None;
            Generator.create := λ _, Generator.Returns
              {| Generator.choices :=
                   [ {| Generator.message_of :=
                          {| Generator.message_content :=
                               Some "I cannot answer." |} |} ] |} |};
       Generator.model_name := "gpt-4o" |} in
  let silent :=
    {| Generator.client :=
         {| Generator.responses := None;
            Generator.create := λ _, Generator.Returns
              {| Generator.choices :=
                   [ {| Generator.message_of :=
                          {| Generator.message_content := None |} |} ] |} |};
       Generator.model_name := "gpt-4o" |} in
  (Generator.generate build_prompt json_loads model_dump_json failing "Is 2 even?"
     Generator.default_temperature Generator.default_max_tokens []).1
  = Generator.Returns
      {| Generator.json_program := None; Generator.raw_response := "";
         Generator.success := false; Generator.error := Some "rate limit" |}
  ∧ (∃ msg,
       (Generator.generate build_prompt json_loads model_dump_json chatty "Is 2 even?"
          Generator.default_temperature Generator.default_max_tokens []).1
       = Generator.Returns
           {| Generator.json_program := None;
              Generator.raw_response := "I cannot answer.";
              Generator.success := false; Generator.error := Some msg |})
  ∧ Generator._extract_json json_loads None
    = Generator.Raises "expected string or bytes-like object, got 'NoneType'".
Proof.
  intros build_prompt json_loads model_dump_json failing chatty silent. split_and!.
  - by rewrite (proj1 (generate_failure_results build_prompt json_loads
                  model_dump_json failing "Is 2 even?" Generator.default_temperature
                  Generator.default_max_tokens [])
                _ _ _ eq_refl eq_refl).
  - destruct (proj1 (proj2 (generate_failure_results build_prompt json_loads
                  model_dump_json chatty "Is 2 even?" Generator.default_temperature
                  Generator.default_max_tokens []))
                _ _ _ eq_refl eq_refl eq_refl) as (msg & _ & ->).
    by exists msg.
  - destruct (proj2 (proj2 (generate_failure_results build_prompt json_loads
                  model_dump_json silent "Is 2 even?" Generator.default_temperature
                  Generator.default_max_tokens []))
                _ _ eq_refl) as (log1 & content & _ & Hchat & Hextract & _).
    injection Hchat as <-. exact Hextract.
Defined.

(** ** [to_dsl_dict] on the store *)

Section store_facts.
Import Store.
Implicit Types (h : store) (v : value) (o : object) (t : ty) (n l : nat).

Lemma S_bind_Some {A B} (m : S A) (k : A → S B) h a h' :
  m h = Some (a, h') → (m ≫= k) h = k a h'.
Proof. unfold mbind, S_bind. by intros ->. Qed.

Lemma S_bind_inv {A B} (m : S A) (k : A → S B) h b h'' :
  (m ≫= k) h = Some (b, h'') →
  ∃ a h', m h = Some (a, h') ∧ k a h' = Some (b, h'').
Proof.
  unfold mbind, S_bind. destruct (m h) as [[a h']|]; [|done]. eauto.
Qed.

Lemma load_inv v h o h' :
  load v h = Some (o, h') → h' = h ∧ ∃ l, v = VRef l ∧ h !! l = Some o.
Proof.
  destruct v as [| | |l]; simpl; try done.
  destruct (h !! l) as [o'|] eqn:Hl; simpl; [|done].
  intros [= <- <-]. eauto.
Qed.

Lemma load_Some l h o : h !! l = Some o → load (VRef l) h = Some (o, h).
Proof. simpl. by intros ->. Qed.

Lemma iter_inv v h items h' :
  iter v h = Some (items, h') →
  h' = h ∧ ∃ l, v = VRef l ∧ h !! l = Some (OList items).
Proof.
  unfold iter. intros (o & h1 & (-> & l & -> & Hl)%load_inv & H)%S_bind_inv.
  destruct o; try done. injection H as <- <-. eauto.
Qed.

Lemma iter_Some l h items :
  h !! l = Some (OList items) → iter (VRef l) h = Some (items, h).
Proof. intros Hl. unfold iter. by rewrite (S_bind_Some _ _ _ _ _ (load_Some _ _ _ Hl)). Qed.

Lemma dict_items_inv v h entries h' :
  dict_items v h = Some (entries, h') →
  h' = h ∧ ∃ l, v = VRef l ∧ h !! l = Some (ODict entries).
Proof.
  unfold dict_items. intros (o & h1 & (-> & l & -> & Hl)%load_inv & H)%S_bind_inv.
  destruct o; try done. injection H as <- <-. eauto.
Qed.

Lemma dict_items_Some l h entries :
  h !! l = Some (ODict entries) → dict_items (VRef l) h = Some (entries, h).
Proof.
  intros Hl. unfold dict_items.
  by rewrite (S_bind_Some _ _ _ _ _ (load_Some _ _ _ Hl)).
Qed.

Lemma getattr_Some l h cls attrs k v :
  h !! l = Some (OModel cls attrs) → Json.get k attrs = Some v →
  getattr (VRef l) k h = Some (v, h).
Proof.
  intros Hl Hk. unfold getattr.
  rewrite (S_bind_Some _ _ _ _ _ (load_Some _ _ _ Hl)). by rewrite Hk.
Qed.

(** *** Stores that only grow *)

Lemma grown_refl n h : grown n h h.
Proof. split; [done|]. by rewrite drop_all. Qed.

Lemma grown_trans n h1 h2 h3 : grown n h1 h2 → grown n h2 h3 → grown n h1 h3.
Proof.
  intros [[k1 ->] H1] [[k2 ->] H2]. split; [by eexists (k1 ++ k2); rewrite app_assoc|].
  rewrite <- app_assoc, drop_app_length in *.
  rewrite (app_assoc h1), drop_app_length in H2. by apply Forall_app.
Qed.

Lemma grown_alloc n h o : fresh_obj n o → grown n h (h ++ [o]).
Proof. intros Ho. split; [by eexists|]. rewrite drop_app_length. by constructor. Qed.

Lemma grown_length n h h' : grown n h h' → length h ≤ length h'.
Proof. intros [Hpre _]. by apply prefix_length. Qed.

Lemma grown_lookup n h h' l o : grown n h h' → h !! l = Some o → h' !! l = Some o.
Proof. intros [Hpre _] Hl. by eapply prefix_lookup_Some. Qed.

Lemma alloc_inv o h v h' :
  alloc o h = Some (v, h') → v = VRef (length h) ∧ h' = h ++ [o].
Proof. by intros [= <- <-]. Qed.

Lemma mapS_safe {A B} (f : A → S B) (P : B → Prop) n (xs : list A) :
  (∀ x h y h', n ≤ length h → f x h = Some (y, h') → grown n h h' ∧ P y) →
  ∀ h ys h', n ≤ length h → mapS f xs h = Some (ys, h') →
             grown n h h' ∧ Forall P ys.
Proof.
  intros Hf. induction xs as [|x xs IH]; intros h ys h' Hn; simpl.
  - intros [= <- <-]. split; [apply grown_refl|constructor].
  - intros (y & h1 & Hy & (ys' & h2 & Hys & [= <- <-])%S_bind_inv)%S_bind_inv.
    destruct (Hf _ _ _ _ Hn Hy) as [Hg1 HP].
    destruct (IH h1 ys' h2) as [Hg2 HPs]; [|done|].
    { apply grown_length in Hg1. lia. }
    split; [by eapply grown_trans|by constructor].
Qed.

Lemma mapS_total {A B} (f : A → S B) (xs : list A) h :
  (∀ x h y h', f x h = Some (y, h') → h `prefix_of` h') →
  (∀ x h', x ∈ xs → h `prefix_of` h' → is_Some (f x h')) →
  is_Some (mapS f xs h).
Proof.
  intros Hgrow. revert h. induction xs as [|x xs IH]; intros h Hf; simpl; [by eexists|].
  destruct (Hf x h) as [[y h1] Hy]; [by left|done|].
  rewrite (S_bind_Some _ _ _ _ _ Hy).
  destruct (IH h1) as [[ys h2] Hys].
  { intros x' h' Hx' Hh'. apply Hf; [by right|].
    etrans; [|exact Hh']. by apply (Hgrow _ _ _ _ Hy). }
  rewrite (S_bind_Some _ _ _ _ _ Hys). by eexists.
Qed.
(** *** Types *)

Lemma ty_deep_ind (P : ty → Prop) :
  P TStr → P TBool → (∀ allowed, P (TLiteral allowed)) →
  (∀ t, P t → P (TOptional t)) →
  (∀ t, P t → P (TList t)) →
  (∀ t, P t → P (TDict t)) →
  (∀ t1 t2, P t1 → P t2 → P (TUnion t1 t2)) →
  (∀ cls fields, Forall (λ kt, P kt.2) fields → P (TModel cls fields)) →
  ∀ t, P t.
Proof.
  intros Hstr Hbool Hlit Hopt Hlist Hdict Hunion Hmodel.
  fix IH 1. intros [ | | allowed | t | t | t | t1 t2 | cls fields ].
  - exact Hstr.
  - exact Hbool.
  - apply Hlit.
  - apply Hopt, IH.
  - apply Hlist, IH.
  - apply Hdict, IH.
  - apply Hunion; apply IH.
  - apply Hmodel. induction fields as [|[k t] fields IHfields];
      constructor; [apply IH|exact IHfields].
Qed.

Lemma forallb_mono {A} (f g : A → bool) (xs : list A) :
  Forall (λ x, f x = true → g x = true) xs →
  forallb f xs = true → forallb g xs = true.
Proof.
  induction 1 as [|x xs Hx _ IH]; simpl; [done|].
  intros [Hf Hfs]%andb_true_iff. by rewrite Hx, IH.
Qed.

(** A value keeps its type when the store grows. *)
Lemma typed_mono t : ∀ h h' v,
  h `prefix_of` h' → typed h t v = true → typed h' t v = true.
Proof.
  induction t as [ | | allowed | t IH | t IH | t IH | t1 t2 IH1 IH2 | cls fields IH ]
    using ty_deep_ind; intros h h' v Hpre; simpl; try done.
  - destruct v; eauto.
  - destruct v as [| | |l]; try done.
    destruct (h !! l) as [o|] eqn:Hl; [|done].
    rewrite (prefix_lookup_Some _ _ _ _ Hl Hpre). destruct o; try done.
    apply forallb_mono, Forall_forall. eauto.
  - destruct v as [| | |l]; try done.
    destruct (h !! l) as [o|] eqn:Hl; [|done].
    rewrite (prefix_lookup_Some _ _ _ _ Hl Hpre). destruct o; try done.
    apply forallb_mono, Forall_forall. eauto.
  - intros [H|H]%orb_true_iff; apply orb_true_iff; eauto.
  - destruct v as [| | |l]; try done.
    destruct (h !! l) as [o|] eqn:Hl; [|done].
    rewrite (prefix_lookup_Some _ _ _ _ Hl Hpre). destruct o; try done.
    intros [-> Hfields]%andb_true_iff. simpl.
    revert Hfields. apply forallb_mono.
    eapply Forall_impl; [exact IH|]. intros [k t] Ht. simpl in *.
    destruct (Json.get k attrs); eauto.
Qed.

(** *** [model_dump] builds new objects and changes none *)

Lemma dump_fields_safe (dump_at : ty → value → S value) attrs n fields :
  Forall (λ kt, ∀ v h v' h', n ≤ length h → dump_at kt.2 v h = Some (v', h') →
                             grown n h h' ∧ fresh_val n v') fields →
  ∀ h ys h', n ≤ length h → dump_fields dump_at attrs fields h = Some (ys, h') →
             grown n h h' ∧ Forall (fresh_val n) ys.*2.
Proof.
  induction 1 as [|[k t] fields Ht _ IH]; intros h ys h' Hn; simpl.
  - intros [= <- <-]. split; [apply grown_refl|constructor].
  - intros (x & h1 & Hx & H)%S_bind_inv.
    assert (h1 = h) as ->.
    { destruct (Json.get k attrs); simpl in Hx; [|done]. by injection Hx. }
    assert (dump_fields dump_at attrs fields h = Some (ys, h')
            ∨ ∃ y h2 ys', dump_at t x h = Some (y, h2)
                          ∧ dump_fields dump_at attrs fields h2 = Some (ys', h')
                          ∧ ys = (k, y) :: ys') as [Hrest|(y & h2 & ys' & Hy & Hrest & ->)].
    { destruct x; [by left|..];
        apply S_bind_inv in H as (y & h2 & Hy & (ys' & h3 & Hys & [= <- <-])%S_bind_inv);
        right; by eexists _, _, _. }
    + by apply IH.
    + destruct (Ht _ _ _ _ Hn Hy) as [Hg1 Hfresh].
      destruct (IH h2 ys' h') as [Hg2 Hys]; [|done|].
      { apply grown_length in Hg1. lia. }
      split; [by eapply grown_trans|by constructor].
Qed.

Lemma dump_safe t : ∀ n v h v' h',
  n ≤ length h → dump t v h = Some (v', h') → grown n h h' ∧ fresh_val n v'.
Proof.
  induction t as [ | | allowed | t IH | t IH | t IH | t1 t2 IH1 IH2 | cls fields IH ]
    using ty_deep_ind; intros n v h v' h' Hn; simpl.
  - destruct v; try done; intros [= <- <-]; split; [apply grown_refl|done].
  - destruct v; try done; intros [= <- <-]; split; [apply grown_refl|done].
  - destruct v; try done; intros [= <- <-]; split; [apply grown_refl|done].
  - destruct v; try (by apply IH); intros [= <- <-]; split; [apply grown_refl|done].
  - intros (items & h1 & [-> _]%iter_inv
            & (ys & h2 & Hys & [-> ->]%alloc_inv)%S_bind_inv)%S_bind_inv.
    destruct (mapS_safe (dump t) (fresh_val n) n items) with (3 := Hys) as [Hg Hfresh];
      [by intros ??????; eapply IH|done|].
    split; [|simpl; apply grown_length in Hg; lia].
    eapply grown_trans; [exact Hg|]. by apply grown_alloc.
  - intros (entries & h1 & [-> _]%dict_items_inv
            & (ys & h2 & Hys & [-> ->]%alloc_inv)%S_bind_inv)%S_bind_inv.
    destruct (mapS_safe (λ kv, y ← dump t kv.2; mret (kv.1, y))
                (λ ky, fresh_val n ky.2) n entries) with (3 := Hys) as [Hg Hfresh];
      [|done|].
    { intros kv h0 ky h0' Hn0 (y & h3 & Hy & [= <- <-])%S_bind_inv.
      by eapply IH. }
    split; [|simpl; apply grown_length in Hg; lia].
    eapply grown_trans; [exact Hg|]. apply grown_alloc.
    unfold fresh_obj. simpl. by apply Forall_fmap.
  - destruct (dump t1 v h) as [[v1 h1]|] eqn:H1.
    + intros [= <- <-]. by eapply IH1.
    + by apply IH2.
  - intros (o & h1 & [-> _]%load_inv & H)%S_bind_inv.
    destruct o as [| |cls' attrs]; try done.
    apply S_bind_inv in H as (ys & h2 & Hys & [-> ->]%alloc_inv).
    destruct (dump_fields_safe dump attrs n fields) with (3 := Hys) as [Hg Hfresh];
      [|done|].
    { eapply Forall_impl; [exact IH|]. intros kt Hkt ?????. by apply Hkt. }
    split; [|simpl; apply grown_length in Hg; lia].
    eapply grown_trans; [exact Hg|]. by apply grown_alloc.
Qed.
(** *** [model_dump] returns on well-typed values *)

Lemma dump_grows t v h v' h' : dump t v h = Some (v', h') → h `prefix_of` h'.
Proof. intros H. eapply (dump_safe t 0) in H as [[Hpre _] _]; [done|lia]. Qed.

Lemma dump_fields_total attrs fields h :
  Forall (λ kt, ∀ h v, typed h kt.2 v = true → is_Some (dump kt.2 v h)) fields →
  typed_fields (typed h) attrs fields = true →
  ∀ h', h `prefix_of` h' → is_Some (dump_fields dump attrs fields h').
Proof.
  induction 1 as [|[k t] fields Ht _ IH]; simpl; [by eexists|].
  intros [Hk Hfields]%andb_true_iff h' Hpre.
  destruct (Json.get k attrs) as [x|]; [|done]. simpl.
  unfold mbind at 1, S_bind at 1, mret at 1, S_ret at 1.
  destruct (Ht h' x) as [[y h2] Hy]; [by eapply typed_mono|].
  destruct (IH Hfields h2) as [[ys h3] Hys].
  { etrans; [exact Hpre|]. by eapply dump_grows. }
  assert (is_Some ((y ← dump t x; ys ← dump_fields dump attrs fields; mret ((k, y) :: ys)) h')).
  { rewrite (S_bind_Some _ _ _ _ _ Hy), (S_bind_Some _ _ _ _ _ Hys). by eexists. }
  destruct x; [by apply IH|done..].
Qed.

Lemma dump_total t : ∀ h v, typed h t v = true → is_Some (dump t v h).
Proof.
  induction t as [ | | allowed | t IH | t IH | t IH | t1 t2 IH1 IH2 | cls fields IH ]
    using ty_deep_ind; intros h v; simpl.
  - by destruct v; [..|by eexists|].
  - by destruct v; [|by eexists|..].
  - by destruct v; [..|by eexists|].
  - destruct v; [by eexists|by apply IH..].
  - destruct v as [| | |l]; try done.
    destruct (h !! l) as [[items| |]|] eqn:Hl; try done. intros Hitems.
    rewrite (S_bind_Some _ _ _ _ _ (iter_Some _ _ _ Hl)).
    destruct (mapS_total (dump t) items h) as [[ys h1] Hys].
    { intros x h0 y h0' Hy. by eapply dump_grows. }
    { intros x h' Hx%list_elem_of_In Hpre. apply IH.
      eapply typed_mono; [done|]. by eapply forallb_forall in Hitems. }
    rewrite (S_bind_Some _ _ _ _ _ Hys). by eexists.
  - destruct v as [| | |l]; try done.
    destruct (h !! l) as [[|entries|]|] eqn:Hl; try done. intros Hentries.
    rewrite (S_bind_Some _ _ _ _ _ (dict_items_Some _ _ _ Hl)).
    destruct (mapS_total (λ kv, y ← dump t kv.2; mret (kv.1, y)) entries h)
      as [[ys h1] Hys].
    { intros kv h0 ky h0' (y & h3 & Hy & [= <- <-])%S_bind_inv.
      by eapply dump_grows. }
    { intros kv h' Hkv Hpre.
      destruct (IH h' kv.2) as [[y h2] Hy].
      - eapply typed_mono; [done|]. eapply forallb_forall in Hentries; [exact Hentries|].
        apply list_elem_of_In, list_elem_of_fmap. eauto.
      - rewrite (S_bind_Some _ _ _ _ _ Hy). by eexists. }
    rewrite (S_bind_Some _ _ _ _ _ Hys). by eexists.
  - intros Htyped. destruct (dump t1 v h) as [r|] eqn:H1; [by eexists|].
    apply orb_true_iff in Htyped as [Htyped|Htyped]; [|by apply IH2].
    apply IH1 in Htyped as [r Hr]. congruence.
  - destruct v as [| | |l]; try done.
    destruct (h !! l) as [[| |cls' attrs]|] eqn:Hl; try done.
    intros [_ Hfields]%andb_true_iff.
    rewrite (S_bind_Some _ _ _ _ _ (load_Some _ _ _ Hl)).
    destruct (dump_fields_total attrs fields h IH Hfields h) as [[ys h1] Hys]; [done|].
    rewrite (S_bind_Some _ _ _ _ _ Hys). by eexists.
Qed.
(** *** The steps of [to_dsl_dict] *)

Lemma typed_attrs h cls fields l :
  typed h (TModel cls fields) (VRef l) = true →
  ∃ attrs, h !! l = Some (OModel cls attrs)
           ∧ ∀ k t, (k, t) ∈ fields →
                    ∃ x, Json.get k attrs = Some x ∧ typed h t x = true.
Proof.
  simpl. destruct (h !! l) as [[| |cls' attrs]|]; try done.
  intros [->%String.eqb_eq Hfields]%andb_true_iff. exists attrs. split; [done|].
  intros k t Hkt%list_elem_of_In. unfold typed_fields in Hfields.
  eapply forallb_forall in Hfields; [|exact Hkt]. simpl in Hfields.
  destruct (Json.get k attrs) as [x|]; [eauto|done].
Qed.

Lemma typed_items h t l :
  typed h (TList t) (VRef l) = true →
  ∃ items, h !! l = Some (OList items) ∧ Forall (λ x, typed h t x = true) items.
Proof.
  simpl. destruct (h !! l) as [[items| |]|]; try done.
  intros H. exists items. split; [done|]. apply Forall_forall.
  intros x Hx%list_elem_of_In. eapply forallb_forall in H; [exact H|exact Hx].
Qed.

Lemma typed_ref_list h t v :
  typed h (TList t) v = true → ∃ l, v = VRef l.
Proof. destruct v; try done. eauto. Qed.

Lemma typed_ref_dict h t v :
  typed h (TDict t) v = true →
  ∃ l entries, v = VRef l ∧ h !! l = Some (ODict entries)
               ∧ Forall (λ kv, typed h t kv.2 = true) entries.
Proof.
  destruct v as [| | |l]; try done. simpl.
  destruct (h !! l) as [[|entries|]|] eqn:Hl; try done.
  intros H. exists l, entries. split_and!; [done..|]. apply Forall_forall.
  intros kv Hkv. eapply forallb_forall in H; [exact H|].
  apply list_elem_of_In, list_elem_of_fmap. eauto.
Qed.

Lemma dump_model_spec n h t v :
  declared_class t → typed h t v = true → n ≤ length h →
  ∃ v' h', dump_model v h = Some (v', h') ∧ grown n h h' ∧ fresh_val n v'.
Proof.
  intros (cls & Hname & Hschema) Htyped Hn.
  destruct t as [| | | | | | |cls' fields]; try done. injection Hname as ->.
  destruct v as [| | |l]; try done.
  destruct (typed_attrs _ _ _ _ Htyped) as (attrs & Hl & _).
  destruct (dump_total _ _ _ Htyped) as [[v' h'] Hdump].
  exists v', h'. split; [|by eapply dump_safe].
  unfold dump_model. rewrite (S_bind_Some _ _ _ _ _ (load_Some _ _ _ Hl)).
  by rewrite Hschema.
Qed.

Lemma dump_model_inv n obj h v' h' :
  n ≤ length h → dump_model obj h = Some (v', h') → grown n h h' ∧ fresh_val n v'.
Proof.
  intros Hn (o & ? & [-> _]%load_inv & H)%S_bind_inv.
  destruct o as [| |cls attrs]; try done.
  destruct (schema_of cls) as [t|]; [|done]. by eapply dump_safe.
Qed.

Lemma comprehension_spec n h t v :
  declared_class t → typed h (TList t) v = true → n ≤ length h →
  ∃ v' h', comprehension dump_model v h = Some (v', h')
           ∧ grown n h h' ∧ fresh_val n v'.
Proof.
  intros Ht Htyped Hn. destruct (typed_ref_list _ _ _ Htyped) as [l ->].
  destruct (typed_items _ _ _ Htyped) as (items & Hl & Hitems).
  unfold comprehension. rewrite (S_bind_Some _ _ _ _ _ (iter_Some _ _ _ Hl)).
  destruct (mapS_total dump_model items h) as [[ys h1] Hys].
  { intros x h0 y h0' Hy. by eapply (dump_model_inv 0); [lia|]. }
  { intros x h' Hx Hpre.
    destruct (dump_model_spec 0 h' t x) as (y & h2 & Hy & _); [done| |lia|by eexists].
    eapply typed_mono; [done|]. by eapply Forall_forall in Hitems. }
  rewrite (S_bind_Some _ _ _ _ _ Hys).
  destruct (mapS_safe dump_model (fresh_val n) n items) with (3 := Hys)
    as [Hg Hfresh]; [|done|].
  { intros x h0 y h0' Hn0 Hy. by eapply dump_model_inv. }
  eexists _, _. split; [done|]. split.
  - eapply grown_trans; [exact Hg|]. by apply grown_alloc.
  - simpl. apply grown_length in Hg. lia.
Qed.
Lemma grown_write n h h' l o :
  grown n h h' → length h ≤ l → fresh_obj n o → grown n h (<[l := o]> h').
Proof.
  intros [[k ->] Hfresh] Hl Ho. rewrite drop_app_length in Hfresh.
  rewrite insert_app_r_alt by done. split; [by eexists|].
  rewrite drop_app_length. by apply Forall_insert.
Qed.

Lemma write_Some l o o' h :
  h !! l = Some o' → write l o h = Some (tt, <[l := o]> h).
Proof. intros Hl%lookup_lt_Some. unfold write. by rewrite decide_True. Qed.

Lemma append_Some l items x h :
  h !! l = Some (OList items) →
  append (VRef l) x h = Some (tt, <[l := OList (items ++ [x])]> h).
Proof.
  intros Hl. unfold append. rewrite (S_bind_Some _ _ _ _ _ (iter_Some _ _ _ Hl)).
  by eapply write_Some.
Qed.

Lemma setitem_Some l entries k x h :
  h !! l = Some (ODict entries) →
  setitem (VRef l) k x h = Some (tt, <[l := ODict (set_entry k x entries)]> h).
Proof.
  intros Hl. unfold setitem.
  rewrite (S_bind_Some _ _ _ _ _ (dict_items_Some _ _ _ Hl)).
  by eapply write_Some.
Qed.

Lemma fresh_obj_lookup n h h' l o :
  grown n h h' → length h ≤ l → h' !! l = Some o → fresh_obj n o.
Proof.
  intros [_ Hfresh] Hl Ho. eapply Forall_lookup_1; [exact Hfresh|].
  rewrite lookup_drop. by replace (length h + (l - length h)) with l by lia.
Qed.

Lemma forS_cons {A} (f : A → S unit) x xs h h1 :
  f x h = Some (tt, h1) → forS f (x :: xs) h = forS f xs h1.
Proof. intros Hx. simpl. by rewrite (S_bind_Some _ _ _ _ _ Hx). Qed.

(** The loop over the knowledge base: every round appends to the new
    list, and to nothing else. *)
Lemma knowledge_loop_store h lk entries :
  length h ≤ lk →
  Forall (λ entry, typed h Class.KnowledgeEntry entry = true) entries →
  ∀ hi acc,
    grown (length h) h hi → hi !! lk = Some (OList acc) →
    ∃ hj acc',
      forS (λ entry,
              is_model ← isinstance_BaseModel entry;
              if is_model : bool
              then d ← dump_model entry; append (VRef lk) d
              else append (VRef lk) entry) entries hi = Some (tt, hj)
      ∧ grown (length h) h hj ∧ hj !! lk = Some (OList acc').
Proof.
  intros Hlk. induction 1 as [|entry entries Hentry _ IH]; intros hi acc Hg Hacc.
  { exists hi, acc. by split_and!. }
  assert (Forall (fresh_val (length h)) acc) as Hfresh.
  { by apply (fresh_obj_lookup _ _ _ _ _ Hg Hlk Hacc). }
  change (typed h Class.KnowledgeEntry entry)
    with (typed h TStr entry || typed h Class.KnowledgeAssertion entry) in Hentry.
  apply orb_true_iff in Hentry as [Hstr|Hmodel].
  - destruct entry as [| |s|]; try done.
    rewrite (forS_cons _ _ _ _ (<[lk := OList (acc ++ [VStr s])]> hi))
      by by apply append_Some.
    apply (IH _ (acc ++ [VStr s])).
    + apply grown_write; [done..|]. apply Forall_app. by repeat constructor.
    + apply list_lookup_insert_eq. by eapply lookup_lt_Some.
  - destruct entry as [| | |le]; try done.
    destruct (typed_attrs _ _ _ _ Hmodel) as (attrs & Hle & _).
    destruct (dump_model_spec (length h) hi Class.KnowledgeAssertion (VRef le))
      as (d & hi' & Hd & Hg' & Hfreshd).
    { by eexists. }
    { eapply typed_mono; [apply Hg|done]. }
    { by eapply grown_length. }
    assert (hi' !! lk = Some (OList acc)) as Hacc' by by eapply grown_lookup.
    assert (isinstance_BaseModel (VRef le) hi = Some (true, hi)) as Hinst.
    { unfold isinstance_BaseModel.
      rewrite (S_bind_Some _ _ _ _ _
                 (load_Some _ _ _ (prefix_lookup_Some _ _ _ _ Hle (proj1 Hg)))).
      done. }
    rewrite (forS_cons _ _ _ _ (<[lk := OList (acc ++ [d])]> hi')).
    2:{ rewrite (S_bind_Some _ _ _ _ _ Hinst), (S_bind_Some _ _ _ _ _ Hd).
        by apply append_Some. }
    apply (IH _ (acc ++ [d])).
    + apply grown_write; [by eapply grown_trans|done|].
      apply Forall_app. by repeat constructor.
    + apply list_lookup_insert_eq. by eapply lookup_lt_Some.
Qed.
(** What can be reached from a fresh value lies in the grown part. *)
Lemma reach_fresh n h h' v l :
  grown n h h' → n = length h → fresh_val n v → reach h' v l → n ≤ l.
Proof.
  intros Hg Hn Hv Hreach. induction Hreach as [l|l o v l' Hl Hin _ IH]; [done|].
  apply IH. simpl in Hv. subst n.
  pose proof (fresh_obj_lookup _ _ _ _ _ Hg Hv Hl) as Ho.
  by eapply Forall_forall in Ho.
Qed.

Lemma declared_classes :
  Forall declared_class Class.all.
Proof. repeat constructor; by eexists. Qed.

(** One list of the program, dumped item by item into a new list. *)
Lemma attribute_comprehension h self cls attrs k t x hi :
  declared_class t →
  h !! self = Some (OModel cls attrs) → Json.get k attrs = Some x →
  typed h (TList t) x = true → grown (length h) h hi →
  ∃ v hj,
    getattr (VRef self) k hi = Some (x, hi)
    ∧ comprehension dump_model x hi = Some (v, hj)
    ∧ grown (length h) h hj ∧ hi `prefix_of` hj ∧ fresh_val (length h) v.
Proof.
  intros Ht Hself Hk Hx Hg.
  destruct (comprehension_spec (length h) hi t x Ht) as (v & hj & E & G & F).
  { by eapply typed_mono; [apply Hg|]. }
  { by eapply grown_length. }
  exists v, hj. split_and!; [|done| |apply G|done].
  - eapply getattr_Some; [|done]. by eapply grown_lookup.
  - by eapply grown_trans.
Qed.

Ltac run H := rewrite (S_bind_Some _ _ _ _ _ H).

Lemma alloc_Some o h : alloc o h = Some (VRef (length h), h ++ [o]).
Proof. reflexivity. Qed.

(** The constant groups, dumped one by one into a new dict. *)
Lemma constants_spec h x hi :
  typed h (TDict Class.ConstantDefinition) x = true → grown (length h) h hi →
  ∃ entries dumped hj,
    dict_items x hi = Some (entries, hi)
    ∧ mapS (λ kv, d ← dump_model kv.2; mret (kv.1, d)) entries hi = Some (dumped, hj)
    ∧ grown (length h) h hj ∧ hi `prefix_of` hj
    ∧ Forall (fresh_val (length h)) dumped.*2.
Proof.
  intros Hx Hg.
  destruct (typed_ref_dict _ _ _ Hx) as (l & entries & -> & Hl & Hentries).
  exists entries.
  destruct (mapS_total (λ kv, d ← dump_model kv.2; mret (kv.1, d)) entries hi)
    as [[dumped hj] Hdumped].
  { intros kv h0 ky h0' (y & h3 & Hy & [= <- <-])%S_bind_inv.
    by eapply (dump_model_inv 0); [lia|]. }
  { intros kv h' Hkv Hpre.
    destruct (dump_model_spec 0 h' Class.ConstantDefinition kv.2)
      as (y & h2 & Hy & _); [by eexists| |lia|].
    - eapply typed_mono; [by etrans; [apply Hg|]|].
      by eapply Forall_forall in Hentries.
    - run Hy. by eexists. }
  destruct (mapS_safe (λ kv, d ← dump_model kv.2; mret (kv.1, d))
              (λ ky, fresh_val (length h) ky.2) (length h) entries)
    with (3 := Hdumped) as [Hg' Hfresh].
  { intros kv h0 ky h0' Hn0 (y & h3 & Hy & [= <- <-])%S_bind_inv.
    by eapply dump_model_inv. }
  { by eapply grown_length. }
  exists dumped, hj. split_and!; [|done| |apply Hg'|by apply Forall_fmap].
  - apply dict_items_Some. by eapply grown_lookup.
  - by eapply grown_trans.
Qed.

Lemma prefix_insert_ge h h' l o :
  h `prefix_of` h' → length h ≤ l → h `prefix_of` <[l := o]> h'.
Proof. intros [k ->] Hl. rewrite insert_app_r_alt by done. by eexists. Qed.

(** Read an attribute of the program: its value and its type. *)
Ltac attribute Hattr k x Hget Hty :=
  destruct (Hattr k _ ltac:(apply list_elem_of_In; simpl; tauto))
    as (x & Hget & Hty).

Ltac declared :=
  eapply Forall_forall; [apply declared_classes|];
  apply list_elem_of_In; simpl; tauto.


(** C8. [to_dsl_dict] returns a dict and changes no object that existed
    before the call, so the program and all it refers to are as they
    were.  The "actions" of the dict is a list created by the call, with
    the items of [self.actions], or "verify_conditions" alone when there
    are none.  Everything that can be reached from the dict was created
    by the call: a write to any such object leaves every object that
    existed before as it was. *)
Theorem to_dsl_dict_frame (h : store) (self : nat) :
  typed h Class.StructuredProgram (VRef self) = true →
  ∃ program h',
    to_dsl_dict (VRef self) h = Some (VRef program, h')
    ∧ h `prefix_of` h'
    ∧ (∃ attrs self_actions items entries actions,
         h !! self = Some (OModel "StructuredProgram" attrs)
         ∧ Json.get "actions" attrs = Some (VRef self_actions)
         ∧ h !! self_actions = Some (OList items)
         ∧ h' !! program = Some (ODict entries)
         ∧ Json.get "actions" entries = Some (VRef actions)
         ∧ length h ≤ actions
         ∧ h' !! actions
           = Some (OList match items with
                         | [] => [VStr "verify_conditions"]
                         | _ :: _ => items
                         end))
    ∧ (∀ l, reach h' (VRef program) l → length h ≤ l)
    ∧ (∀ l o, reach h' (VRef program) l → h `prefix_of` <[l := o]> h').
Proof.
  intros Htyped.
  destruct (typed_attrs _ _ _ _ Htyped) as (attrs & Hself & Hattr).
  attribute Hattr "sorts" sorts Hsorts Tsorts.
  attribute Hattr "functions" functions Hfunctions Tfunctions.
  attribute Hattr "constants" constants Hconstants Tconstants.
  attribute Hattr "variables" variables Hvariables Tvariables.
  attribute Hattr "knowledge_base" knowledge_base Hknowledge Tknowledge.
  attribute Hattr "rules" rules Hrules Trules.
  attribute Hattr "verifications" verifications Hverifications Tverifications.
  attribute Hattr "optimization" optimization Hoptimization Toptimization.
  attribute Hattr "actions" self_actions Hactions Tactions.
  clear Hattr. unfold to_dsl_dict.
  (* sorts, functions, variables *)
  destruct (attribute_comprehension h self _ attrs "sorts" Class.SortDefinition
              sorts h ltac:(declared) Hself Hsorts Tsorts (grown_refl _ _))
    as (sorts_data & h1 & A1 & E1 & G1 & _ & F1).
  run A1. run E1.
  destruct (attribute_comprehension h self _ attrs "functions"
              Class.FunctionDefinition functions h1 ltac:(declared) Hself
              Hfunctions Tfunctions G1)
    as (functions_data & h2 & A2 & E2 & G2 & _ & F2).
  run A2. run E2.
  destruct (attribute_comprehension h self _ attrs "variables"
              Class.VariableDefinition variables h2 ltac:(declared) Hself
              Hvariables Tvariables G2)
    as (variables_data & h3 & A3 & E3 & G3 & _ & F3).
  run A3. run E3.
  (* the knowledge base *)
  run (alloc_Some (OList []) h3).
  assert (grown (length h) h (h3 ++ [OList []])) as G4.
  { eapply grown_trans; [exact G3|]. apply grown_alloc. constructor. }
  run (getattr_Some _ _ _ _ _ _ (grown_lookup _ _ _ _ _ G4 Hself) Hknowledge).
  destruct (typed_ref_list _ _ _ Tknowledge) as [lkb ->].
  destruct (typed_items _ _ _ Tknowledge) as (entries & Hlkb & Hentries).
  run (iter_Some _ _ _ (grown_lookup _ _ _ _ _ G4 Hlkb)).
  destruct (knowledge_loop_store h (length h3) entries (grown_length _ _ _ G3)
              Hentries (h3 ++ [OList []]) [] G4 (list_lookup_middle _ _ _ _ eq_refl))
    as (h5 & acc & E5 & G5 & _).
  run E5.
  (* rules, verifications *)
  destruct (attribute_comprehension h self _ attrs "rules" Class.RuleDefinition
              rules h5 ltac:(declared) Hself Hrules Trules G5)
    as (rules_data & h6 & A6 & E6 & G6 & _ & F6).
  run A6. run E6.
  destruct (attribute_comprehension h self _ attrs "verifications"
              Class.VerificationDefinition verifications h6 ltac:(declared) Hself
              Hverifications Tverifications G6)
    as (verifications_data & h7 & A7 & E7 & G7 & _ & F7).
  run A7. run E7.
  (* actions *)
  run (getattr_Some _ _ _ _ _ _ (grown_lookup _ _ _ _ _ G7 Hself) Hactions).
  destruct (typed_ref_list _ _ _ Tactions) as [la ->].
  destruct (typed_items _ _ _ Tactions) as (items & Hla & Hitems).
  pose proof (grown_lookup _ _ _ _ _ G7 Hla) as Hla7.
  set (content := match items with
                  | [] => [VStr "verify_conditions"]
                  | _ :: _ => items
                  end).
  assert (truthy (VRef la) h7
          = Some (match items with [] => false | _ :: _ => true end, h7)) as Etruthy.
  { unfold truthy. by run (load_Some _ _ _ Hla7). }
  run Etruthy.
  assert ((if match items with [] => false | _ :: _ => true end
           then list_ (VRef la) else alloc (OList [VStr "verify_conditions"])) h7
          = Some (VRef (length h7), h7 ++ [OList content])) as E8.
  { destruct items; [done|]. unfold list_. by run (iter_Some _ _ _ Hla7). }
  run E8.
  assert (Forall (fresh_val (length h)) content) as Fcontent.
  { destruct items; [by repeat constructor|].
    eapply Forall_impl; [exact Hitems|]. by intros [| | |]. }
  assert (grown (length h) h (h7 ++ [OList content])) as G8.
  { eapply grown_trans; [exact G7|]. by apply grown_alloc. }
  (* constants *)
  run (getattr_Some _ _ _ _ _ _ (grown_lookup _ _ _ _ _ G8 Hself) Hconstants).
  destruct (constants_spec h constants _ Tconstants G8)
    as (groups & dumped & h9 & A9 & E9 & G9 & P9 & F9).
  run A9. run E9. run (alloc_Some (ODict dumped) h9).
  assert (grown (length h) h (h9 ++ [ODict dumped])) as G10.
  { eapply grown_trans; [exact G9|]. by apply grown_alloc. }
  (* the dict *)
  match goal with
  | |- context [alloc (ODict ?e)] => set (fields := e)
  end.
  run (alloc_Some (ODict fields) (h9 ++ [ODict dumped])).
  set (h10 := h9 ++ [ODict dumped]) in *.
  set (program := length h10).
  assert (length h ≤ length h7) as Hn7 by by eapply grown_length.
  assert (length h7 < length h10) as Hn10.
  { apply prefix_length in P9. unfold h10. rewrite !length_app in *. simpl in *. lia. }
  assert (Forall (fresh_val (length h)) fields.*2) as Ffields.
  { unfold fields. repeat constructor; try done; simpl.
    - apply grown_length in G9. lia.
    - apply grown_length in G3. lia. }
  assert (grown (length h) h (h10 ++ [ODict fields])) as G11.
  { eapply grown_trans; [exact G10|]. by apply grown_alloc. }
  assert ((h10 ++ [ODict fields]) !! length h7 = Some (OList content)) as Hcontent.
  { apply lookup_app_l_Some. unfold h10. apply lookup_app_l_Some.
    eapply prefix_lookup_Some; [|exact P9]. by apply list_lookup_middle. }
  (* optimization *)
  run (getattr_Some _ _ _ _ _ _ (grown_lookup _ _ _ _ _ G11 Hself) Hoptimization).
  destruct optimization as [| | |lo]; try done.
  - (* no optimization *)
    change (truthy VNone ≫= ?k) with (k false).
    exists program, (h10 ++ [ODict fields]). split_and!.
    + done.
    + apply G11.
    + exists attrs, la, items, fields, (length h7).
      split_and!; try done. by apply list_lookup_middle.
    + intros l. apply (reach_fresh (length h) h _ _ _ G11 eq_refl).
      simpl. unfold program. lia.
    + intros l o Hl. apply prefix_insert_ge; [apply G11|].
      apply (reach_fresh (length h) h _ _ _ G11 eq_refl) in Hl; [done|].
      simpl. unfold program. lia.
  - (* an optimization *)
    change (typed h (TOptional Class.OptimizationConfig) (VRef lo))
      with (typed h Class.OptimizationConfig (VRef lo)) in Toptimization.
    destruct (typed_attrs _ _ _ _ Toptimization) as (oattrs & Hlo & _).
    assert (truthy (VRef lo) (h10 ++ [ODict fields])
            = Some (true, h10 ++ [ODict fields])) as Etruthy'.
    { unfold truthy. by run (load_Some _ _ _ (grown_lookup _ _ _ _ _ G11 Hlo)). }
    run Etruthy'.
    destruct (dump_model_spec (length h) (h10 ++ [ODict fields])
                Class.OptimizationConfig (VRef lo))
      as (d & h12 & E12 & G12' & F12); [by eexists| |by eapply grown_length|].
    { eapply typed_mono; [apply G11|done]. }
    pose proof (grown_trans _ _ _ _ G11 G12') as G12.
    assert (h12 !! program = Some (ODict fields)) as Hprogram.
    { eapply grown_lookup; [exact G12'|]. by apply list_lookup_middle. }
    assert ((d ← dump_model (VRef lo); setitem (VRef program) "optimization" d)
              (h10 ++ [ODict fields])
            = Some (tt, <[program := ODict (set_entry "optimization" d fields)]> h12))
      as E13.
    { run E12. by apply setitem_Some. }
    run E13.
    assert (length h ≤ program) as Hnp by (unfold program; lia).
    assert (grown (length h) h
              (<[program := ODict (set_entry "optimization" d fields)]> h12)) as G13.
    { apply grown_write; [done..|].
      unfold fresh_obj, fields. simpl. repeat constructor; try done.
      all: apply Forall_cons in Ffields as [? Ffields]; try done.
      all: repeat (apply Forall_cons in Ffields as [? Ffields]; try done). }
    exists program, (<[program := ODict (set_entry "optimization" d fields)]> h12).
    split_and!.
    + done.
    + apply G13.
    + exists attrs, la, items, (set_entry "optimization" d fields), (length h7).
      split_and!; try done.
      * apply list_lookup_insert_eq. by eapply lookup_lt_Some.
      * rewrite list_lookup_insert_ne by (unfold program; lia).
        eapply grown_lookup; [exact G12'|exact Hcontent].
    + intros l. by apply (reach_fresh (length h) h _ _ _ G13 eq_refl).
    + intros l o Hl. apply prefix_insert_ge; [apply G13|].
      by apply (reach_fresh (length h) h _ _ _ G13 eq_refl) in Hl.
Qed.
End store_facts.

Lemma to_dsl_dict_frame_witness :
  let h := [
    Store.OList []; Store.ODict [];
    Store.OModel "KnowledgeAssertion"
      [("assertion", Store.VStr "x > 0"); ("value", Store.VBool true);
       ("description", Store.VNone)];
    Store.OList [Store.VStr "y = 4"; Store.VRef 2];
    Store.OList [Store.VStr "optimize"];
    Store.OModel "StructuredProgram"
      [("sorts", Store.VRef 0); ("functions", Store.VRef 0);
       ("constants", Store.VRef 1); ("variables", Store.VRef 0);
       ("knowledge_base", Store.VRef 3); ("rules", Store.VRef 0);
       ("verifications", Store.VRef 0); ("optimization", Store.VNone);
       ("actions", Store.VRef 4)] ] in
  Store.typed h Store.Class.StructuredProgram (Store.VRef 5) = true
  ∧ ∃ program h',
      Store.to_dsl_dict (Store.VRef 5) h = Some (Store.VRef program, h')
      ∧ h `prefix_of` h'
      ∧ ∀ l o, Store.reach h' (Store.VRef program) l → h `prefix_of` <[l := o]> h'.
Proof.
  intros h. split; [reflexivity|].
  destruct (to_dsl_dict_frame h 5 eq_refl) as (program & h' & E & P & _ & _ & W).
  by exists program, h'.
Defined.

(** On this program the dict built in the store reads as the dict of
    the record. *)
Example to_dsl_dict_store_reads :
  let h := [
    Store.OList []; Store.ODict [];
    Store.OModel "KnowledgeAssertion"
      [("assertion", Store.VStr "x > 0"); ("value", Store.VBool true);
       ("description", Store.VNone)];
    Store.OList [Store.VStr "y = 4"; Store.VRef 2];
    Store.OList [Store.VStr "optimize"];
    Store.OModel "StructuredProgram"
      [("sorts", Store.VRef 0); ("functions", Store.VRef 0);
       ("constants", Store.VRef 1); ("variables", Store.VRef 0);
       ("knowledge_base", Store.VRef 3); ("rules", Store.VRef 0);
       ("verifications", Store.VRef 0); ("optimization", Store.VNone);
       ("actions", Store.VRef 4)] ] in
  let p :=
    StructuredProgram.mk [] [] [] []
      [KnowledgeEntry.Bare "y = 4";
       KnowledgeEntry.Assertion (KnowledgeAssertion.mk "x > 0" true None)]
      [] [] None ["optimize"] in
  ('(d, h') ← Store.to_dsl_dict (Store.VRef 5) h; Store.read 4 h' d)
  = Some (JObj (StructuredProgram.to_dsl_dict p)).
Proof. reflexivity. Qed.

(** * Further properties *)

(** ** The requests of the generator *)

Section generator_protocol.
Import Generator.
Variable build_prompt : string → string.
Variable json_loads : string → Generator.decoded.
Variable model_dump_json : StructuredProgram.t → string.
Implicit Types (self : Z3ProgramGenerator) (messages : list message)
  (log : list request).

(** [responses.parse] as the generator finds it: [None] when the client
    has no [responses], or [responses] no [parse]. *)
Lemma structured_api_cases self messages temperature max_tokens log :
  let request :=
    responses_parse (model_name self) messages temperature max_tokens in
  _call_structured_api model_dump_json self messages temperature max_tokens log
  = match responses (client self) ≫= parse with
    | None => (Returns None, log)
    | Some parse_fn =>
        (Returns match parse_fn request with
                 | Returns {| output_parsed := Some p |} =>
                     Some (JObj (StructuredProgram.to_dsl_dict p), model_dump_json p)
                 | _ => None
                 end, log ++ [request])
    end.
Proof.
  unfold _call_structured_api.
  destruct (responses (client self)) as [[[parse_fn|]]|]; try done. cbn.
  unfold mbind, M_bind, try_, call.
  by destruct (parse_fn (responses_parse (model_name self) messages temperature
                 max_tokens)) as [[[p|]]|exc].
Qed.

Lemma chat_completion_cases self messages max_tokens log :
  let request := chat_completions_create (model_name self) messages max_tokens in
  _call_chat_completion self messages max_tokens log
  = (match create (client self) request with
     | Returns response =>
         match choices response with
         | choice :: _ => Returns (message_content (message_of choice))
         | [] => Raises "list index out of range"
         end
     | Raises exc => Raises exc
     end, log ++ [request]).
Proof.
  intros request. unfold _call_chat_completion, mbind, M_bind, call, throw.
  fold request. by destruct (create (client self) request) as [[[|choice ?]]|exc].
Qed.

(** X1. [generate] sends one or two requests, all with the system prompt
    and the question prompt as messages, the model of the generator and
    the token limit: first the structured request, when the client has
    [responses.parse], then the chat request, unless the structured
    request gave a parsed program.  A parsed program ends the call at
    once, with success, the program's dict and its JSON text. *)
Theorem generate_protocol self question temperature max_tokens log :
  let messages := [ {| role := "system"; content := STRUCTURED_SYSTEM_PROMPT |};
                    {| role := "user"; content := build_prompt question |} ] in
  let structured :=
    responses_parse (model_name self) messages temperature max_tokens in
  let chat := chat_completions_create (model_name self) messages max_tokens in
  let run :=
    generate build_prompt json_loads model_dump_json self question temperature
      max_tokens log in
  match responses (client self) ≫= parse with
  | Some parse_fn =>
      match parse_fn structured with
      | Returns {| output_parsed := Some p |} =>
          run = (Returns
                   {| json_program := Some (JObj (StructuredProgram.to_dsl_dict p));
                      raw_response := model_dump_json p;
                      success := true; error := None |}, log ++ [structured])
      | _ => run.2 = log ++ [structured; chat]
      end
  | None => run.2 = log ++ [chat]
  end.
Proof.
  intros messages structured chat run. unfold run, generate.
  change (_initial_messages (build_prompt question)) with messages.
  pose proof (structured_api_cases self messages temperature max_tokens log) as Hs.
  cbn zeta in Hs. fold structured in Hs.
  assert (∀ log1, ∃ out,
            _call_chat_completion self messages max_tokens log1
            = (out, log1 ++ [chat])) as Hchat.
  { intros log1. eexists. apply chat_completion_cases. }
  destruct (responses (client self) ≫= parse) as [parse_fn|];
    rewrite (M_bind_returns _ _ _ _ _ Hs).
  - destruct (parse_fn structured) as [[[p|]]|exc]; [done|..];
      destruct (Hchat (log ++ [structured])) as [out Hout];
      rewrite (M_bind_returns _ _ _ _ _ (try_outcome _ _ _ _ Hout));
      rewrite <- app_assoc;
      (destruct out as [raw|exc']; [|done]);
      unfold mbind, M_bind, finish;
      (destruct (_extract_json json_loads raw) as [extracted|exc']; [|done]);
      by destruct (from_option truthy false _).
  - destruct (Hchat log) as [out Hout].
    rewrite (M_bind_returns _ _ _ _ _ (try_outcome _ _ _ _ Hout)).
    destruct out as [raw|exc']; [|done].
    unfold mbind, M_bind, finish.
    destruct (_extract_json json_loads raw) as [extracted|exc']; [|done].
    by destruct (from_option truthy false _).
Qed.
End generator_protocol.

Section generator_fallback.
Import Generator.
Variable build_prompt : string → string.
Variable json_loads : string → Generator.decoded.
Variable model_dump_json : StructuredProgram.t → string.
Implicit Types (self : Z3ProgramGenerator) (messages : list message)
  (log : list request).

(** X2. When the structured request gives no program (no such endpoint,
    an exception, a response without parsed output), [generate] returns
    what it returns for the client without structured endpoint: the
    failed attempt leaves no mark on the result.  Without structured
    endpoint the temperature plays no part. *)
Theorem structured_failure_falls_back self question temperature max_tokens log :
  let chat_only :=
    {| client := {| responses := None; create := create (client self) |};
       model_name := model_name self |} in
  ((_call_structured_api model_dump_json self
      (_initial_messages (build_prompt question)) temperature max_tokens log).1
   = Returns None →
   (generate build_prompt json_loads model_dump_json self question temperature
      max_tokens log).1
   = (generate build_prompt json_loads model_dump_json chat_only question
        temperature max_tokens log).1)
  ∧ (∀ temperature',
       generate build_prompt json_loads model_dump_json chat_only question
         temperature max_tokens log
       = generate build_prompt json_loads model_dump_json chat_only question
           temperature' max_tokens log).
Proof.
  intros chat_only.
  set (messages := _initial_messages (build_prompt question)).
  split; [|by intros t'].
  unfold generate. fold messages.
  destruct (_call_structured_api model_dump_json self messages temperature
              max_tokens log) as [out log1] eqn:Hs.
  simpl. intros ->. rewrite (M_bind_returns _ _ _ _ _ Hs).
  rewrite (M_bind_returns _ _ _ _ _
             (eq_refl : _call_structured_api model_dump_json chat_only messages
                          temperature max_tokens log = (Returns None, log))).
  rewrite (chat_outcome json_loads _ _ _ _ _ _
             (chat_completion_cases self messages max_tokens log1))
    by (by intros [exc|raw_response]).
  by rewrite (chat_outcome json_loads _ _ _ _ _ _
                (chat_completion_cases chat_only messages max_tokens log))
    by (by intros [exc|raw_response]).
Qed.

(** X3. On the chat path [generate] reports success exactly when the
    text yields JSON that is not empty: a response whose JSON is the
    empty object is a failure, without program, as when nothing could be
    extracted.  An exception of the extraction is the exception of
    [generate]. *)
Theorem success_needs_nonempty_json self question temperature max_tokens log
    log1 raw log2 :
  let messages := _initial_messages (build_prompt question) in
  _call_structured_api model_dump_json self messages temperature max_tokens log
  = (Returns None, log1) →
  _call_chat_completion self messages max_tokens log1 = (Returns (Some raw), log2) →
  (∀ extracted,
     _extract_json json_loads (Some raw) = Returns extracted →
     ∃ result,
       generate build_prompt json_loads model_dump_json self question temperature
         max_tokens log = (Returns result, log2)
       ∧ raw_response result = raw
       ∧ (success result = true ↔ ∃ j, extracted = Some j ∧ truthy j = true)
       ∧ (success result = true → json_program result = extracted)
       ∧ (extracted = Some (JObj []) →
          result = {| json_program := None; raw_response := raw; success := false;
                      error := Some "Failed to extract valid JSON from response" |}))
  ∧ (∀ exc,
       _extract_json json_loads (Some raw) = Raises exc →
       generate build_prompt json_loads model_dump_json self question temperature
         max_tokens log = (Raises exc, log2)).
Proof.
  intros messages Hs Hc. unfold generate. fold messages.
  rewrite (M_bind_returns _ _ _ _ _ Hs).
  rewrite (chat_outcome json_loads _ _ _ _ _ _ Hc) by (by intros [exc|raw_response]).
  split; [|by intros exc ->].
  intros extracted ->. destruct extracted as [j|]; simpl.
  - destruct (truthy j) eqn:Hj; eexists; (split; [reflexivity|]); simpl;
      split_and!; try done.
    + split; [by eauto|done].
    + by intros [= ->].
    + split; [done|]. intros (j' & [= <-] & Hj'). congruence.
  - eexists. split; [reflexivity|]. simpl. split_and!; try done.
    split; [done|]. by intros (j' & [=] & _).
Qed.
End generator_fallback.

Lemma structured_failure_falls_back_witness :
  let build_prompt question := "Question: " +:+ question in
  let json_loads s :=
    if String.eqb s "{}" then Generator.Decoded (JObj [])
    else Generator.JSONDecodeError in
  let model_dump_json (p : StructuredProgram.t) := "" in
  let answer :=
    Generator.Returns
      {| Generator.choices :=
           [ {| Generator.message_of :=
                  {| Generator.message_content := Some "{}" |} |} ] |} in
  let flaky :=
    {| Generator.client :=
         {| Generator.responses :=
              Some {| Generator.parse := Some (λ _, Generator.Raises "bad request") |};
            Generator.create := λ _, answer |};
       Generator.model_name := "gpt-4o" |} in
  let plain :=
    {| Generator.client :=
         {| Generator.responses := None; Generator.create := λ _, answer |};
       Generator.model_name := "gpt-4o" |} in
  (Generator.generate build_prompt json_loads model_dump_json flaky "Is 2 even?"
     Generator.default_temperature Generator.default_max_tokens []).1
  = (Generator.generate build_prompt json_loads model_dump_json plain "Is 2 even?"
       Generator.default_temperature Generator.default_max_tokens []).1.
Proof.
  intros build_prompt json_loads model_dump_json answer flaky plain.
  exact (proj1 (structured_failure_falls_back build_prompt json_loads
                  model_dump_json flaky "Is 2 even?" Generator.default_temperature
                  Generator.default_max_tokens []) eq_refl).
Defined.

Lemma success_needs_nonempty_json_witness :
  let build_prompt question := "Question: " +:+ question in
  let json_loads s :=
    if String.eqb s "{}" then Generator.Decoded (JObj [])
    else Generator.JSONDecodeError in
  let model_dump_json (p : StructuredProgram.t) := "" in
  let self :=
    {| Generator.client :=
         {| Generator.responses := None;
            Generator.create := λ _, Generator.Returns
              {| Generator.choices :=
                   [ {| Generator.message_of :=
                          {| Generator.message_content := Some "{}" |} |} ] |} |};
       Generator.model_name := "gpt-4o" |} in
  ∃ result log',
    Generator.generate build_prompt json_loads model_dump_json self "Is 2 even?"
      Generator.default_temperature Generator.default_max_tokens []
    = (Generator.Returns result, log')
    ∧ Generator.success result = false.
Proof.
  intros build_prompt json_loads model_dump_json self.
  destruct (proj1 (success_needs_nonempty_json build_prompt json_loads
                     model_dump_json self "Is 2 even?" Generator.default_temperature
                     Generator.default_max_tokens [] _ _ _ eq_refl eq_refl)
              _ eq_refl)
    as (result & Hrun & _ & _ & _ & Hempty).
  exists result. eexists. split; [exact Hrun|]. by rewrite (Hempty eq_refl).
Defined.

Section feedback_failures.
Import Generator.
Variable build_prompt : string → string.
Variable json_loads : string → Generator.decoded.
Variable model_dump_json : StructuredProgram.t → string.

(** X4. [generate_with_feedback] turns a chat request that raises into a
    failure with an empty raw response and the message of the exception,
    and a text from which [_extract_json] returns nothing into a failure
    with the text and the message "Failed to extract valid JSON from
    feedback response".  An exception leaves it only from
    [_extract_json], called outside the [try]: on a content that is
    [None], or when [json.loads] raises something else than
    [JSONDecodeError]. *)
Theorem generate_with_feedback_failures (self : Z3ProgramGenerator)
    (question error_trace previous_response : string) (temperature : Q)
    (max_tokens : Z) (log : list request) :
  let messages :=
    _feedback_messages (build_prompt question) previous_response
      ("There was an error processing your response:"
       +:+ String "010"%char error_trace
       +:+ String "010"%char "Please fix the JSON accordingly.") in
  let run :=
    generate_with_feedback build_prompt json_loads model_dump_json self question
      error_trace previous_response temperature max_tokens log in
  (∀ log1 exc log2,
     _call_structured_api model_dump_json self messages temperature max_tokens log
     = (Returns None, log1) →
     _call_chat_completion self messages max_tokens log1 = (Raises exc, log2) →
     run = (Returns {| json_program := None; raw_response := "";
                       success := false; error := Some exc |}, log2))
  ∧ (∀ log1 raw log2,
       _call_structured_api model_dump_json self messages temperature max_tokens log
       = (Returns None, log1) →
       _call_chat_completion self messages max_tokens log1
       = (Returns (Some raw), log2) →
       _extract_json json_loads (Some raw) = Returns None →
       run = (Returns {| json_program := None; raw_response := raw;
                         success := false;
                         error := Some "Failed to extract valid JSON from feedback response" |},
              log2))
  ∧ (∀ exc log',
       run = (Raises exc, log') →
       ∃ log1 content,
         _call_structured_api model_dump_json self messages temperature max_tokens
           log = (Returns None, log1)
         ∧ _call_chat_completion self messages max_tokens log1
           = (Returns content, log')
         ∧ _extract_json json_loads content = Raises exc
         ∧ (content = None ∨ ∃ g, json_loads g = OtherError exc)).
Proof.
  intros messages run.
  destruct (generate_with_feedback_cases build_prompt json_loads model_dump_json
              self question error_trace previous_response temperature max_tokens log)
    as (structured_result & log1 & Hstructured & Hrun).
  fold messages in Hstructured, Hrun. fold run in Hrun. split_and!.
  - intros log1' exc log2' Hnone Hchat.
    rewrite Hnone in Hstructured. injection Hstructured as <- <-.
    destruct Hrun as (out & log2 & Hchat' & ->).
    rewrite Hchat in Hchat'. by injection Hchat' as <- <-.
  - intros log1' raw log2' Hnone Hchat Hextract.
    rewrite Hnone in Hstructured. injection Hstructured as <- <-.
    destruct Hrun as (out & log2 & Hchat' & ->).
    rewrite Hchat in Hchat'. injection Hchat' as <- <-. by rewrite Hextract.
  - intros exc log' Hraises.
    destruct structured_result as [[json_program raw_response]|];
      [by rewrite Hrun in Hraises|].
    destruct Hrun as (out & log2 & Hchat & Hrun). rewrite Hrun in Hraises.
    destruct out as [content|exc']; [|done].
    destruct (_extract_json json_loads content) as [extracted|exc'] eqn:Hextract;
      [done|].
    injection Hraises as -> ->. exists log1, content.
    split_and!; [done..|]. by apply extract_json_raises.
Qed.
End feedback_failures.

Lemma generate_with_feedback_failures_witness :
  let build_prompt question := "Question: " +:+ question in
  let json_loads (s : string) := Generator.JSONDecodeError in
  let model_dump_json (p : StructuredProgram.t) := "" in
  let failing :=
    {| Generator.client :=
         {| Generator.responses := None;
            Generator.create := λ _, Generator.Raises "rate limit" |};
       Generator.model_name := "gpt-4o" |} in
  let silent :=
    {| Generator.client :=
         {| Generator.responses := None;
            Generator.create := λ _, Generator.Returns {| Generator.choices := [] |} |};
       Generator.model_name := "gpt-4o" |} in
  (Generator.generate_with_feedback build_prompt json_loads model_dump_json failing
     "Is 2 even?" "unknown sort" "{" Generator.default_temperature
     Generator.default_max_tokens []).1
  = Generator.Returns
      {| Generator.json_program := None; Generator.raw_response := "";
         Generator.success := false; Generator.error := Some "rate limit" |}
  ∧ (Generator.generate_with_feedback build_prompt json_loads model_dump_json silent
       "Is 2 even?" "unknown sort" "{" Generator.default_temperature
       Generator.default_max_tokens []).1
    = Generator.Returns
        {| Generator.json_program := None; Generator.raw_response := "";
           Generator.success := false;
           Generator.error := Some "list index out of range" |}.
Proof.
  intros build_prompt json_loads model_dump_json failing silent. split.
  - by rewrite (proj1 (generate_with_feedback_failures build_prompt json_loads
                  model_dump_json failing "Is 2 even?" "unknown sort" "{"
                  Generator.default_temperature Generator.default_max_tokens [])
                _ _ _ eq_refl eq_refl).
  - by rewrite (proj1 (generate_with_feedback_failures build_prompt json_loads
                  model_dump_json silent "Is 2 even?" "unknown sort" "{"
                  Generator.default_temperature Generator.default_max_tokens [])
                _ _ _ eq_refl eq_refl).
Defined.

(** ** What the extraction returns *)

Section extraction_exact.
Import Generator.
Implicit Types (s r g pre post body : string) (c : Ascii.ascii).

Lemma fenced_at_backtick c s : Ascii.eqb c "`" = false → fenced_at (String c s) = None.
Proof.
  intros Hc. unfold fenced_at. simpl.
  destruct c as [[] [] [] [] [] [] [] []]; try done.
Qed.

Lemma search_fenced_no_backtick s : has "`" s = false → search_fenced s = None.
Proof.
  induction s as [|c s IH]; [done|]. simpl.
  intros [Hc Hs]%orb_false_iff.
  change (match strip_prefix "```json" (String c s) with
          | Some r =>
              match skip_space r with
              | String c body =>
                  if Ascii.eqb c "{" then String c <$> lazy_body body else None
              | EmptyString => None
              end
          | None => None
          end) with (fenced_at (String c s)).
  rewrite (fenced_at_backtick c s Hc). auto.
Qed.
Lemma closes_no_backtick body r :
  has "`" body = false → closes (body +:+ String "}"%char r) = false.
Proof.
  intros Hbody. unfold closes. apply bool_decide_eq_false. intros [post Hpost].
  induction body as [|c body IH].
  - by vm_compute in Hpost.
  - simpl in Hbody. apply orb_false_iff in Hbody as [Hc Hbody].
    change (String c body +:+ String "}"%char r)
      with (String c (body +:+ String "}"%char r)) in Hpost.
    cbn [skip_space] in Hpost. destruct (is_space c); [by apply IH|].
    cbn [strip_prefix] in Hpost.
    rewrite (Ascii.eqb_sym "`" c), Hc in Hpost. done.
Qed.

Lemma lazy_body_exact body r :
  has "`" body = false → closes r = true →
  lazy_body (body +:+ String "}"%char r) = Some (body +:+ "}").
Proof.
  intros Hbody Hr. induction body as [|c body IH].
  - change ("" +:+ String "}"%char r) with (String "}"%char r).
    cbn [lazy_body]. by rewrite Ascii.eqb_refl, Hr.
  - pose proof Hbody as Hbody'. simpl in Hbody'.
    apply orb_false_iff in Hbody' as [Hc Hbody'].
    change (String c body +:+ String "}"%char r)
      with (String c (body +:+ String "}"%char r)).
    cbn [lazy_body]. rewrite (closes_no_backtick body r Hbody'), andb_false_r.
    by rewrite (IH Hbody').
Qed.

Variable json_loads : string → Generator.decoded.

(** X5. A response with a fenced block after text without backticks, the
    block an opening brace through a closing brace without backticks in
    between, yields the parse of exactly that block: braces before the
    fence and anything after it do not count.  A text without any
    backtick yields the parse of its first opening brace through its
    last closing brace, so a response that is a JSON object and nothing
    else is parsed whole. *)
Theorem extract_json_exact :
  (∀ pre ws1 body ws2 post,
     has "`" pre = false → has "`" body = false →
     all_space ws1 = true → all_space ws2 = true →
     _extract_json json_loads
       (Some (pre +:+ "```json" +:+ ws1 +:+ ("{" +:+ body +:+ "}") +:+ ws2
              +:+ "```" +:+ post))
     = loads_or_none json_loads ("{" +:+ body +:+ "}"))
  ∧ (∀ pre mid post,
       has "`" (pre +:+ ("{" +:+ mid +:+ "}") +:+ post) = false →
       has "{" pre = false → has "}" post = false →
       _extract_json json_loads (Some (pre +:+ ("{" +:+ mid +:+ "}") +:+ post))
       = loads_or_none json_loads ("{" +:+ mid +:+ "}"))
  ∧ (∀ mid,
       has "`" mid = false →
       _extract_json json_loads (Some ("{" +:+ mid +:+ "}"))
       = loads_or_none json_loads ("{" +:+ mid +:+ "}")).
Proof.
  assert (∀ pre mid post,
            has "`" (pre +:+ ("{" +:+ mid +:+ "}") +:+ post) = false →
            has "{" pre = false → has "}" post = false →
            _extract_json json_loads (Some (pre +:+ ("{" +:+ mid +:+ "}") +:+ post))
            = loads_or_none json_loads ("{" +:+ mid +:+ "}")) as Hbare.
  { intros pre mid post Hno Hpre Hpost. unfold _extract_json.
    rewrite (search_fenced_no_backtick _ Hno).
    by rewrite (search_braces_complete _ ("{" +:+ mid +:+ "}"))
      by by exists pre, mid, post. }
  split_and!; [|done|].
  - intros pre ws1 body ws2 post Hpre Hbody Hws1 Hws2. unfold _extract_json.
    assert (search_fenced
              (pre +:+ "```json" +:+ ws1 +:+ ("{" +:+ body +:+ "}") +:+ ws2 +:+ "```" +:+
               post) = Some ("{" +:+ body +:+ "}")) as ->; [|done].
    induction pre as [|c pre IH].
    + apply search_fenced_here. unfold fenced_at.
      change (strip_prefix "```json" ("" +:+ "```json" +:+ ?r)) with (Some r).
      change ("{" +:+ body +:+ "}") with (String "{"%char (body +:+ "}")).
      rewrite app_String, skip_space_app by done. rewrite Ascii.eqb_refl.
      rewrite app_assoc_string.
      change ("}" +:+ ?r) with (String "}"%char r).
      by rewrite lazy_body_exact by (by try apply closes_app).
    + simpl in Hpre. apply orb_false_iff in Hpre as [Hc Hpre].
      rewrite app_String. cbn [search_fenced].
      by rewrite (fenced_at_backtick c _ Hc), (IH Hpre).
  - intros mid Hmid.
    specialize (Hbare "" mid "").
    assert (∀ r, r +:+ "" = r) as Hnil.
    { intros r. induction r as [|c r IH]; [done|]. by rewrite app_String, IH. }
    change ("" +:+ ?r) with r in Hbare. rewrite Hnil in Hbare.
    apply Hbare; [|done..].
    change ("{" +:+ mid +:+ "}") with (String "{"%char (mid +:+ "}")). simpl.
    clear -Hmid. induction mid as [|c mid IH]; [done|].
    simpl in *. apply orb_false_iff in Hmid as [-> Hmid]. auto.
Qed.
End extraction_exact.

Lemma extract_json_exact_witness :
  let json_loads s :=
    if String.eqb s "{}" then Generator.Decoded (JObj [])
    else Generator.JSONDecodeError in
  Generator._extract_json json_loads
    (Some ("{x} Here it is: ```json" +:+ " " +:+ ("{" +:+ "" +:+ "}") +:+ " " +:+ "```"
           +:+ " {y}"))
  = Generator.Returns (Some (JObj [])).
Proof.
  intros json_loads.
  exact (proj1 (extract_json_exact json_loads) "{x} Here it is: " " " "" " " " {y}"
           eq_refl eq_refl eq_refl eq_refl).
Defined.

(** ** The schema and the interpreter format *)

(** *** Validating what [to_dsl_dict] returns *)

Lemma check_extra_known fields (o : Json.obj) :
  forallb (λ k, bool_decide (k ∈ fields)) (Json.keys o) = true →
  check_extra forbid fields o = Ok tt.
Proof.
  intros H. unfold check_extra, unknown_keys.
  assert (filter (λ k, k ∉ fields) (Json.keys o) = []) as ->; [|done].
  induction (Json.keys o) as [|k ks IH]; [done|].
  simpl in H. apply andb_true_iff in H as [Hk%bool_decide_eq_true Hks].
  rewrite filter_cons_False by tauto. auto.
Qed.

Lemma list_of_dump {A} (v : Json.t → result A) (dump : A → Json.t) l :
  (∀ x, v (dump x) = Ok x) → list_of v (JArr (dump <$> l)) = Ok l.
Proof.
  intros Hv. simpl. apply validate_items_complete.
  induction l; constructor; auto.
Qed.

Lemma list_of_dump_Forall {A} (v : Json.t → result A) (dump : A → Json.t) l :
  Forall (λ x, v (dump x) = Ok x) l → list_of v (JArr (dump <$> l)) = Ok l.
Proof.
  intros Hv. simpl. apply validate_items_complete.
  induction Hv; constructor; auto.
Qed.

Lemma dict_of_dump {A} (v : Json.t → result A) (dump : A → Json.t) l :
  (∀ x, v (dump x) = Ok x) → dict_of v (JObj (prod_map id dump <$> l)) = Ok l.
Proof.
  intros Hv. simpl. induction l as [|[k x] l IH]; [done|].
  cbn. rewrite Hv. cbn. cbn in IH. by rewrite IH.
Qed.

Lemma optional_strs l : optional (list_of str) (Json.strs l) = Ok (Some l).
Proof. unfold optional, Json.strs. fold (Json.strs l). by rewrite list_of_strs. Qed.


(** Validate a dumped model whose fields are strings and lists of
    strings: its keys are fields of the class, and each field reads back
    what was written. *)
Ltac dumped :=
  cbn -[check_extra list_of Json.strs];
  rewrite check_extra_known by reflexivity;
  cbn -[list_of Json.strs];
  rewrite ?optional_strs, ?list_of_strs; try reflexivity.

Lemma SortDefinition_dumped x :
  SortDefinition.model_validate (JObj (SortDefinition.dump_model x)) = Ok x.
Proof. destruct x as [n t [v|] [d|]]; unfold SortDefinition.model_validate; dumped. Qed.

Lemma FunctionDefinition_dumped x :
  FunctionDefinition.model_validate (JObj (FunctionDefinition.dump_model x)) = Ok x.
Proof. destruct x as [n dom r [d|]]; unfold FunctionDefinition.model_validate; dumped. Qed.

Lemma VariableDefinition_dumped x :
  VariableDefinition.model_validate (JObj (VariableDefinition.dump_model x)) = Ok x.
Proof. destruct x as [n s [d|]]; unfold VariableDefinition.model_validate; dumped. Qed.

Lemma KnowledgeAssertion_dumped x :
  KnowledgeAssertion.model_validate (JObj (KnowledgeAssertion.dump_model x)) = Ok x.
Proof. destruct x as [a b [d|]]; unfold KnowledgeAssertion.model_validate; dumped. Qed.

Lemma QuantifiedVariable_dumped x :
  QuantifiedVariable.model_validate (JObj (QuantifiedVariable.dump_model x)) = Ok x.
Proof. destruct x; unfold QuantifiedVariable.model_validate; dumped. Qed.

Lemma RuleImplication_dumped x :
  RuleImplication.model_validate (JObj (RuleImplication.dump_model x)) = Ok x.
Proof. destruct x; unfold RuleImplication.model_validate; dumped. Qed.

Lemma VerificationImplication_dumped x :
  VerificationImplication.model_validate (JObj (VerificationImplication.dump_model x))
  = Ok x.
Proof. destruct x; unfold VerificationImplication.model_validate; dumped. Qed.


Lemma quantified_dumped l :
  list_of QuantifiedVariable.model_validate
    (JArr (JObj ∘ QuantifiedVariable.dump_model <$> l)) = Ok l.
Proof. apply list_of_dump, QuantifiedVariable_dumped. Qed.

Lemma RuleDefinition_dumped x :
  RuleDefinition.model_validate (JObj (RuleDefinition.dump_model x)) = Ok x.
Proof.
  destruct x as [[n|] [f|] [i|] [c|] [d|]]; unfold RuleDefinition.model_validate;
    cbn -[check_extra list_of RuleImplication.model_validate
          RuleImplication.dump_model];
    rewrite check_extra_known by reflexivity;
    cbn -[list_of RuleImplication.model_validate RuleImplication.dump_model];
    rewrite ?quantified_dumped, ?RuleImplication_dumped; reflexivity.
Qed.

Lemma VerificationDefinition_dumped x :
  VerificationDefinition.model_validate (JObj (VerificationDefinition.dump_model x))
  = Ok x.
Proof.
  destruct x as [[n|] [c|] [e|] [f|] [i|] [d|]];
    unfold VerificationDefinition.model_validate;
    cbn -[check_extra list_of VerificationImplication.model_validate
          VerificationImplication.dump_model];
    rewrite check_extra_known by reflexivity;
    cbn -[list_of VerificationImplication.model_validate
          VerificationImplication.dump_model];
    rewrite ?quantified_dumped, ?VerificationImplication_dumped; reflexivity.
Qed.

Lemma ObjectiveDefinition_dumped x :
  one_of ["maximize"; "minimize"] (ObjectiveDefinition.type x) = true →
  ObjectiveDefinition.model_validate (JObj (ObjectiveDefinition.dump_model x)) = Ok x.
Proof.
  destruct x as [t e]. cbn [ObjectiveDefinition.type]. intros Ht.
  unfold ObjectiveDefinition.model_validate.
  cbn -[check_extra one_of]. rewrite check_extra_known by reflexivity.
  cbn -[one_of]. by rewrite Ht.
Qed.

Lemma ObjectiveDefinition_literal j x :
  ObjectiveDefinition.model_validate j = Ok x →
  one_of ["maximize"; "minimize"] (ObjectiveDefinition.type x) = true.
Proof.
  intros H. unfold ObjectiveDefinition.model_validate in H. accepted H.
  next_field H Htype. next_field H Hexpression. injection H as <-.
  cbn [ObjectiveDefinition.type]. unfold required in Htype.
  destruct (Json.get "type" o) as [j|]; [|discriminate].
  apply at_loc_Ok in Htype. destruct j; try discriminate.
  unfold literal in Htype.
  destruct (one_of _ s) eqn:Hs; [|discriminate]. by injection Htype as <-.
Qed.

Lemma OptimizationConfig_dumped x :
  Forall (λ o, one_of ["maximize"; "minimize"] (ObjectiveDefinition.type o) = true)
    (OptimizationConfig.objectives x) →
  OptimizationConfig.model_validate (JObj (OptimizationConfig.dump_model x)) = Ok x.
Proof.
  destruct x as [vs cs os d]. cbn [OptimizationConfig.objectives]. intros Hos.
  assert (list_of ObjectiveDefinition.model_validate
            (JArr (JObj ∘ ObjectiveDefinition.dump_model <$> os)) = Ok os) as Hobj.
  { apply list_of_dump_Forall. eapply Forall_impl; [exact Hos|].
    intros o. apply ObjectiveDefinition_dumped. }
  destruct d as [d|]; unfold OptimizationConfig.model_validate;
    cbn -[check_extra list_of Json.strs];
    rewrite check_extra_known by reflexivity;
    cbn -[list_of Json.strs];
    rewrite (list_of_dump _ _ _ VariableDefinition_dumped), list_of_strs, Hobj;
    reflexivity.
Qed.

Lemma OptimizationConfig_literal j x :
  OptimizationConfig.model_validate j = Ok x →
  Forall (λ o, one_of ["maximize"; "minimize"] (ObjectiveDefinition.type o) = true)
    (OptimizationConfig.objectives x).
Proof.
  intros H. unfold OptimizationConfig.model_validate in H. accepted H.
  next_field H Hvariables. next_field H Hconstraints. next_field H Hobjectives.
  next_field H Hdescription. injection H as <-.
  cbn [OptimizationConfig.objectives]. unfold defaulted in Hobjectives.
  destruct (Json.get "objectives" o) as [j|]; [|injection Hobjectives as <-; constructor].
  apply at_loc_Ok in Hobjectives. destruct j; try discriminate.
  apply validate_items_Ok in Hobjectives.
  induction Hobjectives as [|j a items l Hj _ IH]; constructor; [|done].
  by apply ObjectiveDefinition_literal in Hj.
Qed.

Lemma ConstantDefinition_dumped x :
  ConstantDefinition.model_validate (JObj (ConstantDefinition.dump_model x)) = Ok x.
Proof.
  assert (∀ m, ConstantDefinition.validate_members (ConstantDefinition.dump_members m)
               = Ok m) as Hm.
  { intros [l|d]; cbn [ConstantDefinition.dump_members].
    - unfold Json.strs, ConstantDefinition.validate_members. fold (Json.strs l).
      by rewrite list_of_strs.
    - unfold ConstantDefinition.validate_members.
      by rewrite (dict_of_dump str JStr d (λ _, eq_refl)). }
  destruct x as [s m [d|]]; unfold ConstantDefinition.model_validate;
    cbn -[check_extra ConstantDefinition.validate_members
          ConstantDefinition.dump_members];
    rewrite check_extra_known by reflexivity;
    cbn -[ConstantDefinition.validate_members ConstantDefinition.dump_members];
    rewrite Hm; reflexivity.
Qed.

Lemma KnowledgeEntry_dumped (l : list KnowledgeEntry.t) acc :
  foldl StructuredProgram.knowledge_step acc l
  = acc ++ ((λ entry, match entry with
                      | KnowledgeEntry.Assertion a => JObj (KnowledgeAssertion.dump_model a)
                      | KnowledgeEntry.Bare s => JStr s
                      end) <$> l).
Proof.
  revert acc. induction l as [|e l IH]; intros acc; simpl.
  - by rewrite app_nil_r.
  - rewrite IH. destruct e; simpl; by rewrite <- app_assoc.
Qed.

Lemma knowledge_base_dumped l :
  list_of KnowledgeEntry.validate (JArr (foldl StructuredProgram.knowledge_step [] l))
  = Ok l.
Proof.
  rewrite KnowledgeEntry_dumped, app_nil_l. apply list_of_dump.
  intros [s|a]; [done|].
  unfold KnowledgeEntry.validate. by rewrite KnowledgeAssertion_dumped.
Qed.

Lemma StructuredProgram_literal j p opt :
  StructuredProgram.model_validate j = Ok p →
  StructuredProgram.optimization p = Some opt →
  Forall (λ o, one_of ["maximize"; "minimize"] (ObjectiveDefinition.type o) = true)
    (OptimizationConfig.objectives opt).
Proof.
  intros H. unfold StructuredProgram.model_validate in H. accepted H.
  next_field H Hsorts. next_field H Hfunctions. next_field H Hconstants.
  next_field H Hvariables. next_field H Hknowledge. next_field H Hrules.
  next_field H Hverifications. next_field H Hoptimization. next_field H Hactions.
  injection H as <-. cbn [StructuredProgram.optimization]. intros ->.
  unfold defaulted in Hoptimization.
  destruct (Json.get "optimization" o) as [j|]; [|discriminate].
  apply at_loc_Ok in Hoptimization.
  destruct j; simpl in Hoptimization; try discriminate;
    apply fmap_Ok in Hoptimization as (a & Ha & [= ->]);
    by apply OptimizationConfig_literal in Ha.
Qed.

(** What [to_dsl_dict] returns is a document of the schema, as soon as the
    objective types of the program are the two the schema names. *)
Lemma to_dsl_dict_dumped p :
  (∀ opt, StructuredProgram.optimization p = Some opt →
     Forall (λ o, one_of ["maximize"; "minimize"] (ObjectiveDefinition.type o) = true)
       (OptimizationConfig.objectives opt)) →
  StructuredProgram.model_validate (JObj (StructuredProgram.to_dsl_dict p))
  = Ok {| StructuredProgram.sorts := StructuredProgram.sorts p;
          StructuredProgram.functions := StructuredProgram.functions p;
          StructuredProgram.constants := StructuredProgram.constants p;
          StructuredProgram.variables := StructuredProgram.variables p;
          StructuredProgram.knowledge_base := StructuredProgram.knowledge_base p;
          StructuredProgram.rules := StructuredProgram.rules p;
          StructuredProgram.verifications := StructuredProgram.verifications p;
          StructuredProgram.optimization := StructuredProgram.optimization p;
          StructuredProgram.actions :=
            match StructuredProgram.actions p with
            | [] => ["verify_conditions"]
            | _ :: _ => StructuredProgram.actions p
            end |}.
Proof.
  destruct p as [ss fs cs vs ks rs ws opt acts]. cbn [StructuredProgram.optimization
    StructuredProgram.sorts StructuredProgram.functions StructuredProgram.constants
    StructuredProgram.variables StructuredProgram.knowledge_base StructuredProgram.rules
    StructuredProgram.verifications StructuredProgram.actions].
  intros Hopt.
  assert (∀ o, opt = Some o →
            OptimizationConfig.model_validate (JObj (OptimizationConfig.dump_model o))
            = Ok o) as Hdump
    by (intros o Ho; apply OptimizationConfig_dumped; auto).
  clear Hopt.
  unfold StructuredProgram.model_validate, StructuredProgram.to_dsl_dict.
  cbn [StructuredProgram.optimization
    StructuredProgram.sorts StructuredProgram.functions StructuredProgram.constants
    StructuredProgram.variables StructuredProgram.knowledge_base StructuredProgram.rules
    StructuredProgram.verifications StructuredProgram.actions].
  set (actions := match acts with [] => _ | _ => _ end).
  destruct opt as [opt|]; cbn [app model mbind result_bind];
    rewrite check_extra_known by reflexivity;
    cbn -[list_of dict_of Json.strs foldl OptimizationConfig.model_validate
          OptimizationConfig.dump_model];
    rewrite (list_of_dump _ _ _ SortDefinition_dumped),
      (list_of_dump _ _ _ FunctionDefinition_dumped),
      (dict_of_dump _ _ _ ConstantDefinition_dumped),
      (list_of_dump _ _ _ VariableDefinition_dumped),
      knowledge_base_dumped,
      (list_of_dump _ _ _ RuleDefinition_dumped),
      (list_of_dump _ _ _ VerificationDefinition_dumped),
      list_of_strs, ?(Hdump _ eq_refl); reflexivity.
Qed.

(** X6. The interpreter format is itself a document of the schema, and
    reading it back loses nothing: for a program [p] that validation
    produced, [to_dsl_dict p] validates to [p] with the actions
    [to_dsl_dict] wrote ([["verify_conditions"]] in place of an empty
    list), and converting that program again gives the same dict. *)
Theorem to_dsl_dict_validates (j : Json.t) (p : StructuredProgram.t) :
  StructuredProgram.model_validate j = Ok p →
  let p' :=
    {| StructuredProgram.sorts := StructuredProgram.sorts p;
       StructuredProgram.functions := StructuredProgram.functions p;
       StructuredProgram.constants := StructuredProgram.constants p;
       StructuredProgram.variables := StructuredProgram.variables p;
       StructuredProgram.knowledge_base := StructuredProgram.knowledge_base p;
       StructuredProgram.rules := StructuredProgram.rules p;
       StructuredProgram.verifications := StructuredProgram.verifications p;
       StructuredProgram.optimization := StructuredProgram.optimization p;
       StructuredProgram.actions :=
         match StructuredProgram.actions p with
         | [] => ["verify_conditions"]
         | _ :: _ => StructuredProgram.actions p
         end |} in
  StructuredProgram.model_validate (JObj (StructuredProgram.to_dsl_dict p)) = Ok p'
  ∧ StructuredProgram.to_dsl_dict p' = StructuredProgram.to_dsl_dict p.
Proof.
  intros Hvalid p'. split.
  - apply to_dsl_dict_dumped. intros opt. by apply StructuredProgram_literal with j.
  - unfold p', StructuredProgram.to_dsl_dict. cbn [StructuredProgram.sorts
      StructuredProgram.functions StructuredProgram.constants
      StructuredProgram.variables StructuredProgram.knowledge_base
      StructuredProgram.rules StructuredProgram.verifications
      StructuredProgram.optimization StructuredProgram.actions].
    by destruct (StructuredProgram.actions p).
Qed.

Lemma to_dsl_dict_validates_witness :
  let doc :=
    JObj [("sorts", JArr [JObj [("name", JStr "Person"); ("type", JStr "DeclareSort")]]);
          ("constants",
           JObj [("people", JObj [("sort", JStr "Person");
                                  ("members", JArr [JStr "alice"; JStr "bob"])])]);
          ("knowledge_base",
           JArr [JStr "knows(alice, bob)";
                 JObj [("assertion", JStr "knows(bob, alice)");
                       ("value", JBool false)]]);
          ("verifications",
           JArr [JObj [("name", JStr "someone");
                       ("exists", JArr [JObj [("name", JStr "x");
                                              ("sort", JStr "Person")]]);
                       ("constraint", JStr "knows(x, bob)")]]);
          ("optimization",
           JObj [("objectives", JArr [JObj [("type", JStr "maximize");
                                            ("expression", JStr "y")]])])] in
  ∃ p p', StructuredProgram.model_validate doc = Ok p
    ∧ StructuredProgram.model_validate (JObj (StructuredProgram.to_dsl_dict p)) = Ok p'
    ∧ StructuredProgram.actions p = []
    ∧ StructuredProgram.actions p' = ["verify_conditions"]
    ∧ StructuredProgram.to_dsl_dict p' = StructuredProgram.to_dsl_dict p.
Proof.
  intros doc. eexists. eexists.
  split; [reflexivity|].
  split; [exact (proj1 (to_dsl_dict_validates doc _ eq_refl))|].
  split; [reflexivity|]. split; [reflexivity|].
  exact (proj2 (to_dsl_dict_validates doc _ eq_refl)).
Defined.

(** *** Objective types *)

Lemma required_missing {A B} (v : Json.t → result A) k o (rest : A → result B) :
  Json.get k o = None → is_ok (required v k o ≫= rest) = false.
Proof. unfold required. by intros ->. Qed.

Lemma bind_not_ok {A B} (m : result A) (rest : A → result B) :
  (∀ a, is_ok (rest a) = false) → is_ok (m ≫= rest) = false.
Proof. destruct m; simpl; auto. Qed.

(** X7. The type of an objective is checked against
    [Literal["maximize", "minimize"]]: every objective of an accepted
    program has one of the two, and a document of an objective whose type
    is anything else, a string or not, is rejected. *)
Theorem objective_type_checked :
  (∀ j p opt,
     StructuredProgram.model_validate j = Ok p →
     StructuredProgram.optimization p = Some opt →
     Forall (λ o, ObjectiveDefinition.type o = "maximize"
                  ∨ ObjectiveDefinition.type o = "minimize")
       (OptimizationConfig.objectives opt))
  ∧ (∀ o j,
       Json.get "type" o = Some j → j ≠ JStr "maximize" → j ≠ JStr "minimize" →
       is_ok (ObjectiveDefinition.model_validate (JObj o)) = false).
Proof.
  split.
  - intros j p opt Hvalid Hopt.
    eapply Forall_impl; [exact (StructuredProgram_literal _ _ _ Hvalid Hopt)|].
    intros o Ho. cbn in Ho.
    destruct (String.eqb_spec (ObjectiveDefinition.type o) "maximize"); [by left|].
    destruct (String.eqb_spec (ObjectiveDefinition.type o) "minimize"); [by right|].
    discriminate.
  - intros o j Hget Hmax Hmin. unfold ObjectiveDefinition.model_validate.
    cbn [model mbind result_bind]. apply bind_not_ok. intros _.
    unfold required. rewrite Hget.
    destruct j as [| | | |s| |]; try reflexivity.
    unfold literal. cbn [one_of existsb].
    destruct (String.eqb_spec s "maximize") as [->|_]; [done|].
    destruct (String.eqb_spec s "minimize") as [->|_]; [done|].
    reflexivity.
Qed.

Lemma objective_type_checked_witness :
  let objective t := JObj [("type", JStr t); ("expression", JStr "y")] in
  let doc t := JObj [("optimization", JObj [("objectives", JArr [objective t])])] in
  (∃ p opt, StructuredProgram.model_validate (doc "minimize") = Ok p
     ∧ StructuredProgram.optimization p = Some opt
     ∧ Forall (λ o, ObjectiveDefinition.type o = "maximize"
                    ∨ ObjectiveDefinition.type o = "minimize")
         (OptimizationConfig.objectives opt))
  ∧ is_ok (ObjectiveDefinition.model_validate (objective "Maximize")) = false.
Proof.
  intros objective doc. split.
  - eexists. eexists. split; [reflexivity|]. split; [reflexivity|].
    exact (proj1 objective_type_checked (doc "minimize") _ _ eq_refl eq_refl).
  - apply (proj2 objective_type_checked _ (JStr "Maximize")); [reflexivity|done|done].
Defined.

(** *** Entries *)

Lemma defaulted_declared {A} (v : Json.t → result A) k o l :
  defaulted (list_of v) k [] o = Ok l →
  Forall2 (λ j x, v j = Ok x) (Document.declared k o) l.
Proof.
  unfold defaulted, Document.declared. intros H.
  destruct (Json.get k o) as [j|]; [|injection H as <-; constructor].
  apply at_loc_Ok in H. destruct j; simpl in H; try discriminate.
  by apply validate_items_Ok.
Qed.

(** X8. A program is validated entry by entry: the sorts, functions,
    variables, knowledge entries, rules and verifications of an accepted
    document are, one for one and in order, what the entries listed in
    the document validate to by themselves, whatever the other entries
    are; each listed entry is therefore accepted by its class. *)
Theorem entries_validated (o : Json.obj) (p : StructuredProgram.t) :
  StructuredProgram.model_validate (JObj o) = Ok p →
  Forall2 (λ j x, SortDefinition.model_validate j = Ok x)
    (Document.declared "sorts" o) (StructuredProgram.sorts p)
  ∧ Forall2 (λ j x, FunctionDefinition.model_validate j = Ok x)
      (Document.declared "functions" o) (StructuredProgram.functions p)
  ∧ Forall2 (λ j x, VariableDefinition.model_validate j = Ok x)
      (Document.declared "variables" o) (StructuredProgram.variables p)
  ∧ Forall2 (λ j x, KnowledgeEntry.validate j = Ok x)
      (Document.declared "knowledge_base" o) (StructuredProgram.knowledge_base p)
  ∧ Forall2 (λ j x, RuleDefinition.model_validate j = Ok x)
      (Document.declared "rules" o) (StructuredProgram.rules p)
  ∧ Forall2 (λ j x, VerificationDefinition.model_validate j = Ok x)
      (Document.declared "verifications" o) (StructuredProgram.verifications p).
Proof.
  intros H. unfold StructuredProgram.model_validate in H.
  apply (model_bind_Ok (JObj o)) in H as (o' & [= <-] & H).
  apply bind_Ok in H as (u & _ & H).
  next_field H Hsorts. next_field H Hfunctions. next_field H Hconstants.
  next_field H Hvariables. next_field H Hknowledge. next_field H Hrules.
  next_field H Hverifications. next_field H Hoptimization. next_field H Hactions.
  injection H as <-. cbn.
  split_and!; by apply defaulted_declared.
Qed.

Lemma entries_validated_witness :
  let o := [("rules", JArr [JObj [("name", JStr "r1"); ("constraint", JStr "p(x)")];
                            JObj [("implies", JObj [("antecedent", JStr "p(x)");
                                                    ("consequent", JStr "q(x)")])]])] in
  ∃ p, StructuredProgram.model_validate (JObj o) = Ok p
    ∧ Forall2 (λ j x, RuleDefinition.model_validate j = Ok x)
        (Document.declared "rules" o) (StructuredProgram.rules p).
Proof.
  intros o. eexists. split; [reflexivity|].
  exact (proj1 (proj2 (proj2 (proj2 (proj2 (entries_validated o _ eq_refl)))))).
Defined.

(** *** Required fields *)

Ltac missing Hget :=
  cbn [model mbind result_bind];
  repeat first [ apply required_missing; exact Hget | apply bind_not_ok; intros ? ].

Ltac among H :=
  rewrite ?elem_of_cons, elem_of_nil in H;
  repeat match type of H with _ ∨ _ => destruct H as [->|H] end; [..|done].

(** X9. The fields declared without a default are required: a document
    that lacks the name or type of a sort, the name, domain or range of a
    function, the name or sort of a variable or of a quantified variable,
    the assertion of a knowledge assertion, the antecedent or consequent
    of an implication, the type or expression of an objective, or the
    sort or members of a constant group is rejected by that class. *)
Theorem required_fields (o : Json.obj) (k : string) :
  Json.get k o = None →
  (k ∈ ["name"; "type"] → is_ok (SortDefinition.model_validate (JObj o)) = false)
  ∧ (k ∈ ["name"; "domain"; "range"] →
     is_ok (FunctionDefinition.model_validate (JObj o)) = false)
  ∧ (k ∈ ["name"; "sort"] → is_ok (VariableDefinition.model_validate (JObj o)) = false)
  ∧ (k = "assertion" → is_ok (KnowledgeAssertion.model_validate (JObj o)) = false)
  ∧ (k ∈ ["name"; "sort"] → is_ok (QuantifiedVariable.model_validate (JObj o)) = false)
  ∧ (k ∈ ["antecedent"; "consequent"] →
     is_ok (RuleImplication.model_validate (JObj o)) = false
     ∧ is_ok (VerificationImplication.model_validate (JObj o)) = false)
  ∧ (k ∈ ["type"; "expression"] →
     is_ok (ObjectiveDefinition.model_validate (JObj o)) = false)
  ∧ (k ∈ ["sort"; "members"] →
     is_ok (ConstantDefinition.model_validate (JObj o)) = false).
Proof.
  intros Hget. split_and!; intros Hk; try split.
  all: try (among Hk).
  all: try subst k.
  all: first [ unfold SortDefinition.model_validate; by missing Hget
             | unfold FunctionDefinition.model_validate; by missing Hget
             | unfold VariableDefinition.model_validate; by missing Hget
             | unfold KnowledgeAssertion.model_validate; by missing Hget
             | unfold QuantifiedVariable.model_validate; by missing Hget
             | unfold RuleImplication.model_validate; by missing Hget
             | unfold VerificationImplication.model_validate; by missing Hget
             | unfold ObjectiveDefinition.model_validate; by missing Hget
             | unfold ConstantDefinition.model_validate; by missing Hget ].
Qed.

Lemma required_fields_witness :
  let o := [("name", JStr "f"); ("domain", JArr [JStr "Person"])] in
  Json.get "range" o = None
  ∧ is_ok (FunctionDefinition.model_validate (JObj o)) = false.
Proof.
  intros o. split; [reflexivity|].
  apply (proj1 (proj2 (required_fields o "range" eq_refl))).
  rewrite !elem_of_cons. tauto.
Defined.

(** *** Dicts without [None] *)

Lemma exclude_none_without_none (fields : list (string * option Json.t)) :
  Forall (λ kv, from_option without_none true kv.2 = true) fields →
  without_none (JObj (exclude_none fields)) = true.
Proof.
  cbn [without_none]. unfold exclude_none.
  induction 1 as [|[k [j|]] fields Hj _ IH]; simpl in *; [done| |done].
  by rewrite Hj.
Qed.

Lemma strs_without_none l : without_none (Json.strs l) = true.
Proof. unfold Json.strs. cbn [without_none]. by induction l. Qed.

Lemma dumps_without_none {A} (dump : A → Json.t) (l : list A) :
  (∀ x, without_none (dump x) = true) → without_none (JArr (dump <$> l)) = true.
Proof.
  intros Hdump. cbn [without_none]. induction l as [|x l IH]; [done|].
  simpl. by rewrite Hdump.
Qed.

Lemma entries_without_none {A} (dump : A → Json.t) (l : list (string * A)) :
  (∀ x, without_none (dump x) = true) →
  without_none (JObj (prod_map id dump <$> l)) = true.
Proof.
  intros Hdump. cbn [without_none]. induction l as [|[k x] l IH]; [done|].
  rewrite fmap_cons. cbn [forallb prod_map snd]. by rewrite Hdump.
Qed.

Ltac plain :=
  apply exclude_none_without_none;
  repeat (constructor; [try done|]); try constructor.

Lemma SortDefinition_without_none x :
  without_none (JObj (SortDefinition.dump_model x)) = true.
Proof. destruct x as [n t [v|] [d|]]; plain; apply strs_without_none. Qed.

Lemma FunctionDefinition_without_none x :
  without_none (JObj (FunctionDefinition.dump_model x)) = true.
Proof. destruct x as [n t v [d|]]; plain; apply strs_without_none. Qed.

Lemma VariableDefinition_without_none x :
  without_none (JObj (VariableDefinition.dump_model x)) = true.
Proof. destruct x as [n t [d|]]; plain. Qed.

Lemma KnowledgeAssertion_without_none x :
  without_none (JObj (KnowledgeAssertion.dump_model x)) = true.
Proof. destruct x as [n t [d|]]; plain. Qed.

Lemma QuantifiedVariable_without_none x :
  without_none (JObj (QuantifiedVariable.dump_model x)) = true.
Proof. destruct x; plain. Qed.

Lemma quantified_without_none l :
  without_none (JArr (JObj ∘ QuantifiedVariable.dump_model <$> l)) = true.
Proof. apply dumps_without_none, QuantifiedVariable_without_none. Qed.

Lemma RuleDefinition_without_none x :
  without_none (JObj (RuleDefinition.dump_model x)) = true.
Proof.
  destruct x as [[n|] [f|] [[a c]|] [k|] [d|]]; plain; apply quantified_without_none.
Qed.

Lemma VerificationDefinition_without_none x :
  without_none (JObj (VerificationDefinition.dump_model x)) = true.
Proof.
  destruct x as [[n|] [k|] [e|] [f|] [[a c]|] [d|]]; plain;
    apply quantified_without_none.
Qed.

Lemma ObjectiveDefinition_without_none x :
  without_none (JObj (ObjectiveDefinition.dump_model x)) = true.
Proof. destruct x; plain. Qed.

Lemma OptimizationConfig_without_none x :
  without_none (JObj (OptimizationConfig.dump_model x)) = true.
Proof.
  destruct x as [vs cs os [d|]]; plain;
    first [apply strs_without_none
          | apply dumps_without_none, VariableDefinition_without_none
          | apply dumps_without_none, ObjectiveDefinition_without_none].
Qed.

Lemma ConstantDefinition_without_none x :
  without_none (JObj (ConstantDefinition.dump_model x)) = true.
Proof.
  assert (∀ m, without_none (ConstantDefinition.dump_members m) = true) as Hm.
  { intros [l|d]; [apply strs_without_none|].
    by apply entries_without_none. }
  destruct x as [s m [d|]]; plain; apply Hm.
Qed.

(** X10. The dict [to_dsl_dict] returns holds no [None], at any depth:
    every definition is dumped with [exclude_none=True], so a field that
    is not set is left out of its dict instead of being written as
    [None]. *)
Theorem to_dsl_dict_without_none (p : StructuredProgram.t) :
  without_none (JObj (StructuredProgram.to_dsl_dict p)) = true.
Proof.
  assert (∀ l : list (string * Json.t),
            Forall (λ kv, without_none kv.2 = true) l → without_none (JObj l) = true)
    as Hobj.
  { intros l Hl. cbn [without_none]. induction Hl as [|kv l Hkv _ IH]; [done|].
    simpl. by rewrite Hkv. }
  unfold StructuredProgram.to_dsl_dict. apply Hobj.
  assert (Forall (λ kv : string * Json.t, without_none kv.2 = true)
            match StructuredProgram.optimization p with
            | Some opt => [("optimization", JObj (OptimizationConfig.dump_model opt))]
            | None => []
            end) as Hopt.
  { destruct (StructuredProgram.optimization p); repeat constructor.
    apply OptimizationConfig_without_none. }
  destruct (StructuredProgram.optimization p) as [opt|];
    [apply Forall_app; split; [|exact Hopt]|];
    repeat (constructor; [cbn [snd]|]); try constructor.
  all: try first
    [ apply strs_without_none
    | apply dumps_without_none; intros x;
      first [ apply SortDefinition_without_none
            | apply FunctionDefinition_without_none
            | apply VariableDefinition_without_none
            | apply RuleDefinition_without_none
            | apply VerificationDefinition_without_none ] ].
  - apply entries_without_none. intros x. apply ConstantDefinition_without_none.
  - rewrite KnowledgeEntry_dumped, app_nil_l. apply dumps_without_none.
    intros [s|a]; [done|apply KnowledgeAssertion_without_none].
  - apply entries_without_none. intros x. apply ConstantDefinition_without_none.
  - rewrite KnowledgeEntry_dumped, app_nil_l. apply dumps_without_none.
    intros [s|a]; [done|apply KnowledgeAssertion_without_none].
Qed.

(** ** The audited workflow *)

Section audit_facts.
Import Generator Audited.
Variable json_loads : string → Generator.decoded.
Variable json_dumps : Json.t → string.
Context {VerificationResult : Type}.
Implicit Types (self : AuditedProofOfThought (VerificationResult := VerificationResult))
  (log : list event) (program : Json.t).

Lemma IO_bind_returns {A B} (m : IO A) (k : A → IO B) log a log' :
  m log = (Returns a, log') → (m ≫= k) log = k a log'.
Proof. unfold mbind, IO_bind. by intros ->. Qed.

Lemma IO_bind_raises {A B} (m : IO A) (k : A → IO B) log exc log' :
  m log = (Raises exc, log') → (m ≫= k) log = (Raises exc, log').
Proof. unfold mbind, IO_bind. by intros ->. Qed.

(** A comparison changes nothing. *)
Lemma lt_pure (x : Json.t) (n : Z) log :
  lt x n log = ((lt x n []).1, log).
Proof. by destruct x. Qed.

(** Run [_audit_program] on what the client answers. *)
Ltac audit_run self log :=
  unfold _audit_program;
  destruct (responses (to_generator (auditor_llm self))) as [[[parse_fn|]]|];
  cbn -[_get_auditor_prompt];
  unfold mbind, IO_bind, try_, ask;
  cbn -[_get_auditor_prompt];
  repeat match goal with
    | |- context [parse_report (auditor_llm self) ?l] =>
        destruct (parse_report (auditor_llm self) l) as [[[report|]]|?exc];
        cbn -[_get_auditor_prompt]
    | |- context [create_json (auditor_llm self) ?l] =>
        destruct (create_json (auditor_llm self) l) as [[[|choice ?rest]]|?exc];
        cbn -[_get_auditor_prompt]
    | |- context [message_content (message_of ?c)] =>
        destruct (message_content (message_of c)) as [text|];
        cbn -[_get_auditor_prompt]
    | |- context [json_loads ?t] =>
        destruct (json_loads t) as [audit_result| |?exc];
        cbn -[_get_auditor_prompt]
    end;
  cbn -[_get_auditor_prompt].

(** An audit sends one or two requests, to the auditor, and nothing else
    happens. *)
Lemma audit_events self program question log :
  ∃ out new,
    _audit_program json_loads json_dumps self program question log = (out, log ++ new)
    ∧ forallb is_audit new = true ∧ length new ≤ 2.
Proof.
  audit_run self log.
  all: try (destruct audit_result as [| | | | | |d];
            cbn [get_default throw mbind IO_bind mret IO_ret];
            try destruct (from_option id (JInt 10) (Json.get "risk_score" d));
            cbn [lt throw mbind IO_bind mret IO_ret]).
  all: rewrite <- ?app_assoc; eexists _, _; (split; [reflexivity|]); split; (reflexivity || (simpl; lia)).
Qed.

(** X11. [_audit_program] calls a program safe only on a risk score
    below the threshold: either the structured answer, the last thing
    that happened, carries a report that is marked safe and whose risk
    score is below [risk_threshold], or the chat answer is a JSON object
    whose ["risk_score"], 10 when the key is absent, compares below
    [risk_threshold]. *)
Theorem safe_verdict_below_threshold self program question log justification log' :
  _audit_program json_loads json_dumps self program question log
  = (Returns (true, justification), log') →
  let auditor_prompt := _get_auditor_prompt self (json_dumps program) question in
  (∃ report,
     last log'
     = Some (audit_parse AUDITOR_MODEL
               [ {| role := "system";
                    content := "You review DSL programs for bias. "
                               +:+ "Respond using the provided schema." |};
                 {| role := "user"; content := auditor_prompt |} ])
     ∧ parse_report (auditor_llm self) log' = Returns {| output_parsed := Some report |}
     ∧ AuditReport.is_safe report = true
     ∧ (AuditReport.risk_score report < risk_threshold self)%Z
     ∧ justification = JStr (AuditReport.justification report))
  ∨ (∃ response choice text audit_result,
       last log'
       = Some (audit_create AUDITOR_MODEL
                 [ {| role := "user"; content := auditor_prompt |} ])
       ∧ create_json (auditor_llm self) log' = Returns response
       ∧ head (choices response) = Some choice
       ∧ message_content (message_of choice) = Some text
       ∧ json_loads text = Decoded (JObj audit_result)
       ∧ (∀ l, lt (from_option id (JInt 10) (Json.get "risk_score" audit_result))
                 (risk_threshold self) l = (Returns true, l))
       ∧ justification
         = from_option id (JStr "No justification provided.")
             (Json.get "justification" audit_result)).
Proof.
  intros H auditor_prompt. revert H. subst auditor_prompt.
  unfold _audit_program;
  destruct (responses (to_generator (auditor_llm self))) as [[[parse_fn|]]|];
  cbn -[_get_auditor_prompt];
  unfold mbind, IO_bind, try_, ask;
  cbn -[_get_auditor_prompt].
  1: destruct (parse_report _ _) as [[[report|]]|?exc] eqn:Hparse;
       cbn -[_get_auditor_prompt].
  1: { intros [= Hsafe <- <-]. left. exists report.
       apply andb_true_iff in Hsafe as [Hsafe Hlt%Z.ltb_lt].
       rewrite last_snoc. by rewrite Hparse. }
  all: destruct (create_json _ _) as [[[|choice ?rest]]|?exc] eqn:Hcreate;
    cbn -[_get_auditor_prompt]; try discriminate.
  all: destruct (message_content (message_of choice)) as [text|] eqn:Hcontent;
    cbn -[_get_auditor_prompt]; try discriminate.
  all: destruct (json_loads text) as [audit_result| |?exc] eqn:Hloads;
    cbn -[_get_auditor_prompt]; try discriminate.
  all: destruct audit_result as [| | | | | |d];
    cbn -[_get_auditor_prompt]; try discriminate.
  all: rewrite lt_pure;
    destruct (lt _ _ []) as [[is_safe|?exc] ?log] eqn:Hlt;
    cbn -[_get_auditor_prompt]; try discriminate.
  all: intros [= -> <- <-]; right;
    exists {| choices := choice :: rest |}, choice, text, d.
  all: rewrite ?last_snoc, ?Hcreate; split_and!; try done.
  all: intros l; by rewrite lt_pure, Hlt.
Qed.

(** X12. On the chat path the verdict of an audit is read off the
    ["risk_score"] of the answer alone: the program is safe when the
    score is below [risk_threshold], whatever the answer says under
    ["is_safe"]; a missing score counts as 10; the justification is the
    answer's, or "No justification provided."; an answer that is no JSON
    gives the verdict unsafe with "Auditor LLM response was malformed.". *)
Theorem audit_fallback_verdict self program question log response choice text :
  let auditor_prompt := _get_auditor_prompt self (json_dumps program) question in
  let parse_request :=
    audit_parse AUDITOR_MODEL
      [ {| role := "system";
           content := "You review DSL programs for bias. "
                      +:+ "Respond using the provided schema." |};
        {| role := "user"; content := auditor_prompt |} ] in
  let create_request :=
    audit_create AUDITOR_MODEL [ {| role := "user"; content := auditor_prompt |} ] in
  let log1 :=
    match responses (to_generator (auditor_llm self)) ≫= parse with
    | Some _ => log ++ [parse_request]
    | None => log
    end in
  let run := _audit_program json_loads json_dumps self program question log in
  match responses (to_generator (auditor_llm self)) ≫= parse with
  | Some _ =>
      match parse_report (auditor_llm self) log1 with
      | Returns {| output_parsed := Some _ |} => False
      | _ => True
      end
  | None => True
  end →
  create_json (auditor_llm self) (log1 ++ [create_request]) = Returns response →
  head (choices response) = Some choice →
  message_content (message_of choice) = Some text →
  (json_loads text = JSONDecodeError →
   run = (Returns (false, JStr "Auditor LLM response was malformed."),
          log1 ++ [create_request]))
  ∧ (∀ audit_result risk_score,
       json_loads text = Decoded (JObj audit_result) →
       default (JInt 10) (Json.get "risk_score" audit_result) = JInt risk_score →
       run = (Returns ((risk_score <? risk_threshold self)%Z,
                       default (JStr "No justification provided.")
                         (Json.get "justification" audit_result)),
              log1 ++ [create_request])).
Proof.
  intros auditor_prompt parse_request create_request log1 run Hstructured Hcreate
    Hchoice Hcontent.
  subst run log1 create_request parse_request auditor_prompt.
  destruct response as [[|choice' rest]]; [done|]. injection Hchoice as ->.
  revert Hstructured Hcreate.
  unfold _audit_program;
  destruct (responses (to_generator (auditor_llm self))) as [[[parse_fn|]]|];
  cbn -[_get_auditor_prompt];
  unfold mbind, IO_bind, try_, ask;
  cbn -[_get_auditor_prompt].
  1: destruct (parse_report _ _) as [[[report|]]|?exc]; [done|..].
  all: cbn -[_get_auditor_prompt]; intros _ ->; cbn -[_get_auditor_prompt].
  all: rewrite Hcontent.
  all: split; [by intros ->|].
  all: intros audit_result risk_score -> Hrisk; cbn -[_get_auditor_prompt].
  all: by rewrite Hrisk.
Qed.

(** X13. The chat path of an audit lets exceptions through: that of the
    chat request itself, the [IndexError] of an answer without choices,
    the [AttributeError] of an answer whose JSON is no object, and the
    [TypeError] of a risk score that is no number; so do the [TypeError]
    of an answer without content and what [json.loads] raises other than
    [JSONDecodeError]. *)
Theorem audit_errors_escape self program question log :
  let auditor_prompt := _get_auditor_prompt self (json_dumps program) question in
  let parse_request :=
    audit_parse AUDITOR_MODEL
      [ {| role := "system";
           content := "You review DSL programs for bias. "
                      +:+ "Respond using the provided schema." |};
        {| role := "user"; content := auditor_prompt |} ] in
  let create_request :=
    audit_create AUDITOR_MODEL [ {| role := "user"; content := auditor_prompt |} ] in
  let log1 :=
    match responses (to_generator (auditor_llm self)) ≫= parse with
    | Some _ => log ++ [parse_request]
    | None => log
    end in
  let run := _audit_program json_loads json_dumps self program question log in
  let answer := create_json (auditor_llm self) (log1 ++ [create_request]) in
  match responses (to_generator (auditor_llm self)) ≫= parse with
  | Some _ =>
      match parse_report (auditor_llm self) log1 with
      | Returns {| output_parsed := Some _ |} => False
      | _ => True
      end
  | None => True
  end →
  (∀ exc, answer = Raises exc → run = (Raises exc, log1 ++ [create_request]))
  ∧ (answer = Returns {| choices := [] |} →
     run = (Raises "list index out of range", log1 ++ [create_request]))
  ∧ (∀ choice rest text audit_result,
       answer = Returns {| choices := choice :: rest |} →
       message_content (message_of choice) = Some text →
       json_loads text = Decoded audit_result →
       (∀ d, audit_result ≠ JObj d) →
       run = (Raises ("'" +:+ type_name audit_result
                      +:+ "' object has no attribute 'get'"),
              log1 ++ [create_request]))
  ∧ (∀ choice rest text audit_result risk_score,
       answer = Returns {| choices := choice :: rest |} →
       message_content (message_of choice) = Some text →
       json_loads text = Decoded (JObj audit_result) →
       Json.get "risk_score" audit_result = Some risk_score →
       type_name risk_score ∈ ["NoneType"; "str"; "list"; "dict"] →
       run = (Raises ("'<' not supported between instances of '"
                      +:+ type_name risk_score +:+ "' and 'int'"),
              log1 ++ [create_request]))
  ∧ (∀ choice rest,
       answer = Returns {| choices := choice :: rest |} →
       message_content (message_of choice) = None →
       run = (Raises "the JSON object must be str, bytes or bytearray, not NoneType",
              log1 ++ [create_request]))
  ∧ (∀ choice rest text exc,
       answer = Returns {| choices := choice :: rest |} →
       message_content (message_of choice) = Some text →
       json_loads text = OtherError exc →
       run = (Raises exc, log1 ++ [create_request])).
Proof.
  intros auditor_prompt parse_request create_request log1 run answer Hstructured.
  subst run answer log1 create_request parse_request auditor_prompt.
  revert Hstructured.
  unfold _audit_program;
  destruct (responses (to_generator (auditor_llm self))) as [[[parse_fn|]]|];
  cbn -[_get_auditor_prompt];
  unfold mbind, IO_bind, try_, ask;
  cbn -[_get_auditor_prompt].
  1: destruct (parse_report _ _) as [[[report|]]|?exc]; [done|..].
  all: cbn -[_get_auditor_prompt]; intros _; split_and!.
  all: try by (intros ? Hanswer; rewrite Hanswer).
  all: try by (intros Hanswer; rewrite Hanswer).
  all: try by (intros choice rest Hanswer Hcontent;
               rewrite Hanswer; cbn -[_get_auditor_prompt]; rewrite Hcontent).
  all: try by (intros choice rest text exc' Hanswer Hcontent Hloads;
               rewrite Hanswer; cbn -[_get_auditor_prompt]; rewrite Hcontent, Hloads).
  all: try (intros choice rest text audit_result Hanswer Hcontent Hloads Hdict;
            rewrite Hanswer; cbn -[_get_auditor_prompt]; rewrite Hcontent, Hloads;
            destruct audit_result; try done; by destruct (Hdict entries)).
  all: intros choice rest text audit_result risk_score Hanswer Hcontent Hloads Hget Htype;
    rewrite Hanswer; cbn -[_get_auditor_prompt]; rewrite Hcontent, Hloads;
    cbn -[_get_auditor_prompt]; rewrite Hget; cbn -[_get_auditor_prompt];
    destruct risk_score; try done;
    cbn in Htype; rewrite !elem_of_cons, elem_of_nil in Htype;
    by repeat destruct Htype as [Htype|Htype].
Qed.
End audit_facts.

Section workflow_facts.
Import Generator Audited.
Variable build_prompt : string → string.
Variable DSL_INSTRUCTIONS : string.
Variable json_loads : string → Generator.decoded.
Variable json_dumps : Json.t → string.
Variable model_dump_json : StructuredProgram.t → string.
Variable str_of : Json.t → string.
Context {VerificationResult : Type}.
Variable NamedTemporaryFile : list event → outcome string.
Variable json_dump : list event → outcome unit.
Variable remove : list event → outcome unit.
Implicit Types (self : AuditedProofOfThought (VerificationResult := VerificationResult))
  (log : list event) (program : Json.t).

(** A generation ends after one or two requests that carry its
    messages. *)
Ltac generation_runs self messages temperature max_tokens :=
  let Hs := fresh "Hs" in
  pose proof (structured_api_cases model_dump_json self messages temperature
                max_tokens []) as Hs;
  cbn zeta in Hs;
  destruct (responses (client self) ≫= parse) as [parse_fn|];
  [ destruct (parse_fn _) as [[[p|]]|?exc] |];
  rewrite (M_bind_returns _ _ _ _ _ Hs);
  cbn [app];
  try (eexists _, _; split; [reflexivity|];
       split; [done|]; split; [simpl; lia|]; by repeat constructor);
  rewrite (M_bind_returns _ _ _ _ _
             (try_outcome _ _ _ _
                (chat_completion_cases self messages max_tokens _)));
  cbn [app];
  match goal with
  | |- context [create (client self) ?r] =>
      destruct (create (client self) r) as [[[|choice ?rest]]|?exc]
  end;
  cbn [choices];
  unfold mbind, M_bind, finish;
  try match goal with
    | |- context [_extract_json json_loads ?raw] =>
        destruct (_extract_json json_loads raw) as [[j|]|?exc]; cbn [from_option];
        [destruct (Json.truthy j)| |]
    end;
  (eexists _, _; split; [reflexivity|];
   split; [done|]; split; [simpl; lia|]; by repeat constructor).

Lemma generate_runs (self : Z3ProgramGenerator) question temperature max_tokens :
  ∃ out requests,
    generate build_prompt json_loads model_dump_json self question temperature
      max_tokens [] = (out, requests)
    ∧ requests ≠ [] ∧ length requests ≤ 2
    ∧ Forall (λ r, sent r = _initial_messages (build_prompt question)) requests.
Proof.
  unfold generate.
  generation_runs self (_initial_messages (build_prompt question)) temperature
    max_tokens.
Qed.

Lemma generate_with_feedback_runs (self : Z3ProgramGenerator) question error_trace
    previous_response temperature max_tokens :
  ∃ out requests,
    generate_with_feedback build_prompt json_loads model_dump_json self question
      error_trace previous_response temperature max_tokens []
    = (out, requests)
    ∧ requests ≠ [] ∧ length requests ≤ 2
    ∧ Forall (λ r, sent r
                   = _feedback_messages (build_prompt question) previous_response
                       ("There was an error processing your response:"
                        +:+ String "010"%char error_trace
                        +:+ String "010"%char "Please fix the JSON accordingly."))
        requests.
Proof.
  unfold generate_with_feedback.
  generation_runs self
    (_feedback_messages (build_prompt question) previous_response
       ("There was an error processing your response:"
        +:+ String "010"%char error_trace
        +:+ String "010"%char "Please fix the JSON accordingly."))
    temperature max_tokens.
Qed.

Lemma lift_outcome {A} (m : M A) (out : outcome A) requests log :
  m [] = (out, requests) →
  lift m log = (out, log ++ (generator_request <$> requests)).
Proof. unfold lift. by intros ->. Qed.


Lemma forallb_app_true {A} (f : A → bool) (l1 l2 : list A) :
  forallb f l1 = true → forallb f l2 = true → forallb f (l1 ++ l2) = true.
Proof. intros H1 H2. by rewrite forallb_app, H1, H2. Qed.

Lemma requests_are_requests (requests : list request) :
  forallb is_request (generator_request <$> requests) = true.
Proof. by induction requests. Qed.

Lemma audits_are_requests (new : list event) :
  forallb is_audit new = true → forallb is_request new = true.
Proof.
  induction new as [|[] new IH]; simpl; try done; intros H; by apply IH.
Qed.

Lemma count_generator_requests (requests : list request) :
  length (List.filter (negb ∘ is_audit) (generator_request <$> requests))
  = length requests
  ∧ length (List.filter is_audit (generator_request <$> requests)) = 0.
Proof. induction requests as [|r requests [IH1 IH2]]; simpl; auto. Qed.

Lemma count_audits (new : list event) :
  forallb is_audit new = true →
  length (List.filter (negb ∘ is_audit) new) = 0
  ∧ length (List.filter is_audit new) = length new.
Proof.
  induction new as [|e new IH]; [done|]. simpl.
  destruct (is_audit e); [|done]. intros [IH1 IH2]%IH. simpl. auto.
Qed.

Lemma opening_requests (prompt : string) (messages : list message)
    (requests : list request) :
  take 2 messages = _initial_messages prompt →
  Forall (λ r, sent r = messages) requests →
  Forall (opens_with prompt) (generator_request <$> requests).
Proof.
  intros Hmessages Hsent. induction Hsent as [|r requests Hr _ IH]; [done|].
  rewrite fmap_cons. constructor; [|done]. simpl. by rewrite Hr.
Qed.

Lemma opening_audits (prompt : string) (new : list event) :
  forallb is_audit new = true → Forall (opens_with prompt) new.
Proof.
  induction new as [|e new IH]; [done|]. simpl.
  intros [He Hnew]%andb_true_iff. constructor; [by destruct e|auto].
Qed.

(** [query] up to the verifier: requests only, at most four of the
    generator and four of the audits, and a program comes out of it only
    from an audit that passed, the last thing done. *)
Lemma audited_program_cases self question log :
  ∃ out requests,
    audited_program build_prompt DSL_INSTRUCTIONS json_loads json_dumps
      model_dump_json str_of self question log = (out, log ++ requests)
    ∧ forallb is_request requests = true
    ∧ length (List.filter (negb ∘ is_audit) requests) ≤ 4
    ∧ length (List.filter is_audit requests) ≤ 4
    ∧ Forall (opens_with (build_prompt question)) requests
    ∧ ∀ program,
        out = Returns (Some program) →
        ∃ before justification,
          log `prefix_of` before
          ∧ _audit_program json_loads json_dumps self program question before
            = (Returns (true, justification), log ++ requests).
Proof.
  unfold audited_program. cbn zeta.
  destruct (generate_runs (programmer_generator self) question default_temperature
              default_max_tokens) as (r1 & requests1 & Hgen1 & _ & Hlen1 & Hsent1).
  apply (opening_requests (build_prompt question)) in Hsent1; [|done].
  apply (lift_outcome _ _ _ log) in Hgen1.
  pose proof (requests_are_requests requests1) as Hreq1.
  destruct (count_generator_requests requests1) as [Hg1 Ha1].
  set (new1 := generator_request <$> requests1) in *. clearbody new1.
  destruct r1 as [r1|exc].
  2: { rewrite (IO_bind_raises _ _ _ _ _ Hgen1).
       exists (Raises exc), new1. split_and!; [done|done|lia|lia|done|done]. }
  rewrite (IO_bind_returns _ _ _ _ _ Hgen1).
  destruct (unusable r1).
  { exists (Returns None), new1. split_and!; [done|done|lia|lia|done|done]. }
  destruct (json_program r1) as [program1|].
  2: { exists (Returns None), new1. split_and!; [done|done|lia|lia|done|done]. }
  destruct (audit_events json_loads json_dumps self program1 question (log ++ new1))
    as (out1 & audit1 & Haudit1 & Hreq2 & Hlen2).
  destruct (count_audits _ Hreq2) as [Hg2 Ha2].
  pose proof (opening_audits (build_prompt question) _ Hreq2) as Hopen2.
  apply audits_are_requests in Hreq2.
  rewrite <- app_assoc in Haudit1.
  assert (forallb is_request (new1 ++ audit1) = true) as Hreq12
    by by apply forallb_app_true.
  assert (length (List.filter (negb ∘ is_audit) (new1 ++ audit1)) ≤ 2
          ∧ length (List.filter is_audit (new1 ++ audit1)) ≤ 2) as [Hg12 Ha12]
    by (rewrite !List.filter_app, !length_app; lia).
  assert (Forall (opens_with (build_prompt question)) (new1 ++ audit1)) as Hopen12
    by by apply Forall_app.
  destruct out1 as [[[] justification1]|exc].
  - rewrite (IO_bind_returns _ _ _ _ _ Haudit1). cbn [negb].
    exists (Returns (Some program1)), (new1 ++ audit1).
    split_and!; [done|done|lia|lia|done|].
    intros ? [= <-]. exists (log ++ new1), justification1.
    split; [by apply prefix_app_r|done].
  - rewrite (IO_bind_returns _ _ _ _ _ Haudit1). cbn [negb].
    match goal with
    | |- context [generate_with_feedback _ _ _ _ _ ?e ?p _ _] =>
        destruct (generate_with_feedback_runs (programmer_generator self) question
                    e p default_temperature default_max_tokens)
          as (r2 & requests2 & Hgen2 & _ & Hlen3 & Hsent2)
    end.
    apply (opening_requests (build_prompt question)) in Hsent2; [|done].
    apply (lift_outcome _ _ _ (log ++ new1 ++ audit1)) in Hgen2.
    pose proof (requests_are_requests requests2) as Hreq3.
    destruct (count_generator_requests requests2) as [Hg3 Ha3].
    set (new2 := generator_request <$> requests2) in *. clearbody new2.
    set (new12 := new1 ++ audit1) in *. clearbody new12.
    rewrite <- app_assoc in Hgen2.
    assert (forallb is_request (new12 ++ new2) = true) as Hreq123
      by by apply forallb_app_true.
    assert (length (List.filter (negb ∘ is_audit) (new12 ++ new2)) ≤ 4
            ∧ length (List.filter is_audit (new12 ++ new2)) ≤ 2) as [Hg123 Ha123]
      by (rewrite !List.filter_app, !length_app; lia).
    assert (Forall (opens_with (build_prompt question)) (new12 ++ new2)) as Hopen123
      by by apply Forall_app.
    set (new123 := new12 ++ new2) in *. clearbody new123.
    destruct r2 as [r2|exc].
    2: { rewrite (IO_bind_raises _ _ _ _ _ Hgen2).
         exists (Raises exc), new123. split_and!; [done|done|lia|lia|done|done]. }
    rewrite (IO_bind_returns _ _ _ _ _ Hgen2).
    destruct (unusable r2).
    { exists (Returns None), new123. split_and!; [done|done|lia|lia|done|done]. }
    destruct (json_program r2) as [program2|].
    2: { exists (Returns None), new123. split_and!; [done|done|lia|lia|done|done]. }
    destruct (audit_events json_loads json_dumps self program2 question
                (log ++ new123))
      as (out2 & audit2 & Haudit2 & Hreq4 & Hlen4).
    destruct (count_audits _ Hreq4) as [Hg4 Ha4].
    pose proof (opening_audits (build_prompt question) _ Hreq4) as Hopen4.
    apply audits_are_requests in Hreq4.
    rewrite <- app_assoc in Haudit2.
    assert (forallb is_request (new123 ++ audit2) = true) as Hreq1234
      by by apply forallb_app_true.
    assert (length (List.filter (negb ∘ is_audit) (new123 ++ audit2)) ≤ 4
            ∧ length (List.filter is_audit (new123 ++ audit2)) ≤ 4) as [Hg Ha]
      by (rewrite !List.filter_app, !length_app; lia).
    assert (Forall (opens_with (build_prompt question)) (new123 ++ audit2)) as Hopen
      by by apply Forall_app.
    destruct out2 as [[[] justification2]|exc].
    + rewrite (IO_bind_returns _ _ _ _ _ Haudit2). cbn [negb].
      exists (Returns (Some program2)), (new123 ++ audit2).
      split_and!; [done|done|lia|lia|done|].
      intros ? [= <-]. exists (log ++ new123), justification2.
      split; [by apply prefix_app_r|done].
    + rewrite (IO_bind_returns _ _ _ _ _ Haudit2). cbn [negb].
      exists (Returns None), (new123 ++ audit2).
      split_and!; [done|done|lia|lia|done|done].
    + rewrite (IO_bind_raises _ _ _ _ _ Haudit2).
      exists (Raises exc), (new123 ++ audit2).
      split_and!; [done|done|lia|lia|done|done].
  - rewrite (IO_bind_raises _ _ _ _ _ Haudit1).
    exists (Raises exc), (new1 ++ audit1).
    split_and!; [done|done|lia|lia|done|done].
Qed.

(** The last step of [query], on an audited program: the file, the
    verifier, the removal. *)
Lemma verification_cases self program log :
  ∃ out files,
    (write_temporary NamedTemporaryFile json_dump (json_dumps program)
     ≫= λ json_path,
          finally
            (ask (verify (verifier self)) (verifier_verify json_path)
             ≫= λ verification_result, mret (Some verification_result))
            (ask remove (os_remove json_path))) log
    = (out, log ++ files)
    ∧ List.filter is_request files = []
    ∧ (files = []
       ∨ ∃ json_path,
           files = [file_created json_path;
                    file_written json_path (json_dumps program)]
           ∧ (∃ exc, out = Raises exc)
           ∨ files = [file_created json_path;
                      file_written json_path (json_dumps program);
                      verifier_verify json_path;
                      os_remove json_path])
    ∧ (∀ result, out = Returns (Some result) →
         ∃ json_path, last files = Some (os_remove json_path)).
Proof.
  unfold write_temporary, finally, ask, mbind, IO_bind. cbn beta.
  destruct (NamedTemporaryFile log) as [json_path|exc].
  2: { exists (Raises exc), []. rewrite app_nil_r.
       split_and!; [done|done|by left|done]. }
  match goal with
  | |- context [json_dump ?l] => destruct (json_dump l) as [[]|exc]
  end.
  2: { exists (Raises exc), [file_created json_path;
         file_written json_path (json_dumps program)].
       rewrite <- !app_assoc. split_and!; [done|done| |done].
       right. exists json_path. left. eauto. }
  cbn [mret IO_ret].
  match goal with
  | |- context [verify (verifier self) ?l] =>
      destruct (verify (verifier self) l) as [result|exc]
  end;
    cbn [mret IO_ret];
    match goal with
    | |- context [remove ?l] => destruct (remove l) as [[]|exc']
    end;
    eexists _, [file_created json_path;
         file_written json_path (json_dumps program);
         verifier_verify json_path; os_remove json_path];
    rewrite <- !app_assoc; (split_and!; [reflexivity|done| |]);
    try (right; exists json_path; by right);
    intros ? [=]; by exists json_path.
Qed.


(** X15. [query] corrects once and no more: the generator is called at
    most twice and so is the auditor, each call with one or two
    requests, so that a query sends at most eight requests, at most
    four of them audits. *)
Theorem query_requests_bounded self question log :
  ∃ out new,
    query build_prompt DSL_INSTRUCTIONS json_loads json_dumps model_dump_json str_of
      NamedTemporaryFile json_dump remove self question log
    = (out, log ++ new)
    ∧ length (List.filter is_request new) ≤ 8
    ∧ length (List.filter is_audit new) ≤ 4.
Proof.
  unfold query.
  destruct (audited_program_cases self question log)
    as (checked & requests & Hrun & Hrequests & Hgenerator & Haudits & _ & _).
  pose proof (List.filter_length is_audit requests) as Hsplit.
  assert (length (List.filter is_request requests) ≤ 8) as Hcount.
  { etrans; [apply List.filter_length_le|]. rewrite <- Hsplit.
    change (λ x, negb (is_audit x)) with (negb ∘ is_audit). lia. }
  destruct checked as [[program|]|exc].
  2: { rewrite (IO_bind_returns _ _ _ _ _ Hrun). by exists (Returns None), requests. }
  2: { rewrite (IO_bind_raises _ _ _ _ _ Hrun). by exists (Raises exc), requests. }
  rewrite (IO_bind_returns _ _ _ _ _ Hrun).
  destruct (verification_cases self program (log ++ requests))
    as (out & files & -> & Hnone & Hfiles & _).
  exists out, (requests ++ files). rewrite <- app_assoc.
  rewrite !List.filter_app, !length_app, Hnone. split_and!; [done|simpl; lia|].
  assert (List.filter is_audit files = []) as ->; [|simpl; lia].
  destruct Hfiles as [->|(json_path & [[-> _]| ->])]; done.
Qed.

Lemma audits_no_generator (new : list event) r :
  forallb is_audit new = true → generator_request r ∉ new.
Proof.
  intros Hnew Hin. apply list_elem_of_In in Hin.
  by apply (proj1 (forallb_forall _ _) Hnew) in Hin.
Qed.

Lemma files_no_generator (files : list event) r :
  List.filter is_request files = [] → generator_request r ∉ files.
Proof.
  intros Hfiles Hin. apply list_elem_of_In in Hin.
  assert (In (generator_request r) (List.filter is_request files)) as Hr
    by by apply List.filter_In.
  by rewrite Hfiles in Hr.
Qed.

(** X16. A program the auditor rejects goes back to the generator with
    the auditor's words: after a first audit that returns unsafe, the next
    thing [query] does is one generation, of one or two requests, whose
    messages are the system prompt, the question prompt, the first raw
    response as the assistant's turn, and the feedback text with the
    auditor's justification in it; the generator is not asked again. *)
Theorem query_feedback self question log result requests program justification log1 :
  generate build_prompt json_loads model_dump_json (programmer_generator self)
    question default_temperature default_max_tokens [] = (Returns result, requests) →
  unusable result = false →
  json_program result = Some program →
  _audit_program json_loads json_dumps self program question
    (log ++ (generator_request <$> requests))
  = (Returns (false, justification), log1) →
  let messages :=
    [ {| role := "system"; content := STRUCTURED_SYSTEM_PROMPT |};
      {| role := "user"; content := build_prompt question |};
      {| role := "assistant"; content := raw_response result |};
      {| role := "user";
         content :=
           "There was an error processing your response:"
           +:+ String "010"%char
                 ("The initial program was rejected by a logical audit. Reason: "
                  +:+ format str_of justification
                  +:+ ". Please generate a new, more neutral program based on "
                  +:+ "objective, verifiable metrics.")
           +:+ String "010"%char "Please fix the JSON accordingly." |} ] in
  ∃ out corrected rest,
    query build_prompt DSL_INSTRUCTIONS json_loads json_dumps model_dump_json str_of
      NamedTemporaryFile json_dump remove self question log
    = (out, log1 ++ (generator_request <$> corrected) ++ rest)
    ∧ corrected ≠ []
    ∧ Forall (λ r, sent r = messages) corrected
    ∧ ∀ r, generator_request r ∉ rest.
Proof.
  intros Hgen Husable Hprogram Haudit messages.
  assert (∃ checked corrected rest,
            audited_program build_prompt DSL_INSTRUCTIONS json_loads json_dumps
              model_dump_json str_of self question log
            = (checked, log1 ++ (generator_request <$> corrected) ++ rest)
            ∧ corrected ≠ []
            ∧ Forall (λ r, sent r = messages) corrected
            ∧ forallb is_audit rest = true)
    as (checked & corrected & rest & Hrun & Hcorrected & Hsent & Hrest).
  { unfold audited_program. cbn zeta.
    rewrite (IO_bind_returns _ _ _ _ _ (lift_outcome _ _ _ log Hgen)).
    rewrite Husable, Hprogram.
    rewrite (IO_bind_returns _ _ _ _ _ Haudit). cbn [negb].
    match goal with
    | |- context [generate_with_feedback _ _ _ _ _ ?e ?p _ _] =>
        destruct (generate_with_feedback_runs (programmer_generator self) question
                    e p default_temperature default_max_tokens)
          as (r2 & corrected & Hgen2 & Hcorrected & _ & Hsent)
    end.
    apply (lift_outcome _ _ _ log1) in Hgen2.
    destruct r2 as [r2|exc].
    2: { rewrite (IO_bind_raises _ _ _ _ _ Hgen2).
         exists (Raises exc), corrected, []. by rewrite app_nil_r. }
    rewrite (IO_bind_returns _ _ _ _ _ Hgen2).
    destruct (unusable r2).
    { exists (Returns None), corrected, []. by rewrite app_nil_r. }
    destruct (json_program r2) as [program2|].
    2: { exists (Returns None), corrected, []. by rewrite app_nil_r. }
    destruct (audit_events json_loads json_dumps self program2 question
                (log1 ++ (generator_request <$> corrected)))
      as (out2 & audit2 & Haudit2 & Haudits & _).
    rewrite <- app_assoc in Haudit2.
    destruct out2 as [[[] justification2]|exc].
    - rewrite (IO_bind_returns _ _ _ _ _ Haudit2). by eexists _, corrected, audit2.
    - rewrite (IO_bind_returns _ _ _ _ _ Haudit2). by eexists _, corrected, audit2.
    - rewrite (IO_bind_raises _ _ _ _ _ Haudit2). by eexists _, corrected, audit2. }
  unfold query.
  destruct checked as [[program2|]|exc].
  2: { rewrite (IO_bind_returns _ _ _ _ _ Hrun). exists (Returns None), corrected, rest.
       split_and!; [done|done|done|]. intros r. by apply audits_no_generator. }
  2: { rewrite (IO_bind_raises _ _ _ _ _ Hrun). exists (Raises exc), corrected, rest.
       split_and!; [done|done|done|]. intros r. by apply audits_no_generator. }
  rewrite (IO_bind_returns _ _ _ _ _ Hrun).
  destruct (verification_cases self program2
              (log1 ++ (generator_request <$> corrected) ++ rest))
    as (out & files & -> & Hfiles & _).
  exists out, corrected, (rest ++ files). rewrite <- !app_assoc.
  split_and!; [done|done|done|].
  intros r [Hin|Hin]%elem_of_app.
  - by apply audits_no_generator in Hin.
  - by apply files_no_generator in Hin.
Qed.


(** X17. The generator is prompted by the library alone.  Every request
    [query] makes of the generator opens with the system prompt and the
    user message [build_prompt question]; the text that
    [_get_programmer_prompt] builds, neutrality directives and
    [DSL_INSTRUCTIONS], is computed and dropped: [query] does the same
    and returns the same whatever [DSL_INSTRUCTIONS] is. *)
Theorem query_sends_library_prompt self question log :
  ∃ out new,
    query build_prompt DSL_INSTRUCTIONS json_loads json_dumps model_dump_json str_of
      NamedTemporaryFile json_dump remove self question log
    = (out, log ++ new)
    ∧ Forall (opens_with (build_prompt question)) new
    ∧ ∀ instructions,
        query build_prompt instructions json_loads json_dumps model_dump_json str_of
          NamedTemporaryFile json_dump remove self question log
        = (out, log ++ new).
Proof.
  assert (∃ out new,
            query build_prompt DSL_INSTRUCTIONS json_loads json_dumps model_dump_json
              str_of NamedTemporaryFile json_dump remove self question log
            = (out, log ++ new)
            ∧ Forall (opens_with (build_prompt question)) new)
    as (out & new & Hrun & Hopen).
  { unfold query.
    destruct (audited_program_cases self question log)
      as (checked & requests & Hrun & _ & _ & _ & Hopen & _).
    destruct checked as [[program|]|exc].
    2: { rewrite (IO_bind_returns _ _ _ _ _ Hrun). by exists (Returns None), requests. }
    2: { rewrite (IO_bind_raises _ _ _ _ _ Hrun). by exists (Raises exc), requests. }
    rewrite (IO_bind_returns _ _ _ _ _ Hrun).
    destruct (verification_cases self program (log ++ requests))
      as (out & files & -> & _ & Hfiles & _).
    exists out, (requests ++ files). rewrite <- app_assoc. split; [done|].
    apply Forall_app. split; [done|].
    destruct Hfiles as [->|(json_path & [[-> _]| ->])]; by repeat constructor. }
  exists out, new. split_and!; [done|done|]. intros instructions. exact Hrun.
Qed.

End workflow_facts.

Lemma safe_verdict_below_threshold_witness :
  let json_loads (s : string) :=
    Generator.Decoded (JObj [("risk_score", JInt 2); ("is_safe", JBool false)]) in
  let json_dumps (j : Json.t) := "{}" in
  let llm_client :=
    {| Audited.to_generator :=
         {| Generator.responses := None;
            Generator.create := λ _, Generator.Raises "not asked" |};
       Audited.parse_report := λ _, Generator.Raises "not asked";
       Audited.create_json := λ _, Generator.Returns
         {| Generator.choices :=
              [ {| Generator.message_of :=
                     {| Generator.message_content := Some "answer" |} |} ] |} |} in
  let self :=
    Audited.__init__ {| Audited.verify := λ _, Generator.Returns true |}
      llm_client Audited.default_risk_threshold in
  (Audited._audit_program json_loads json_dumps self (JObj []) "Is 2 even?" []).1
  = Generator.Returns (true, JStr "No justification provided.")
  ∧ ∀ log, Audited.lt (JInt 2) 5 log = (Generator.Returns true, log).
Proof.
  intros json_loads json_dumps llm_client self. split; [reflexivity|].
  destruct (safe_verdict_below_threshold json_loads json_dumps self
              (JObj []) "Is 2 even?" [] _ _ eq_refl)
    as [(report & _ & Hparse & _)
       |(response & choice & text & audit_result & _ & _ & _ & _ & Hloads & Hlt & _)].
  - discriminate Hparse.
  - injection Hloads as <-. exact Hlt.
Defined.

Lemma audit_fallback_verdict_witness :
  let json_loads (s : string) :=
    Generator.Decoded (JObj [("risk_score", JInt 2); ("is_safe", JBool false)]) in
  let json_dumps (j : Json.t) := "{}" in
  let answer :=
    {| Generator.choices :=
         [ {| Generator.message_of :=
                {| Generator.message_content := Some "answer" |} |} ] |} in
  let llm_client :=
    {| Audited.to_generator :=
         {| Generator.responses :=
              Some {| Generator.parse := Some (λ _, Generator.Raises "not asked") |};
            Generator.create := λ _, Generator.Raises "not asked" |};
       Audited.parse_report := λ _, Generator.Raises "bad request";
       Audited.create_json := λ _, Generator.Returns answer |} in
  let self :=
    Audited.__init__ {| Audited.verify := λ _, Generator.Returns true |}
      llm_client Audited.default_risk_threshold in
  (Audited._audit_program json_loads json_dumps self (JObj []) "Is 2 even?" []).1
  = Generator.Returns (true, JStr "No justification provided.").
Proof.
  intros json_loads json_dumps answer llm_client self.
  pose proof (proj2 (audit_fallback_verdict json_loads json_dumps self (JObj [])
                       "Is 2 even?" [] answer _ "answer" I eq_refl eq_refl eq_refl)
                _ 2%Z eq_refl eq_refl) as Hrun.
  by rewrite Hrun.
Defined.

Lemma audit_errors_escape_witness :
  let json_loads (s : string) := Generator.Decoded (JArr []) in
  let json_dumps (j : Json.t) := "{}" in
  let llm_client :=
    {| Audited.to_generator :=
         {| Generator.responses := None;
            Generator.create := λ _, Generator.Raises "not asked" |};
       Audited.parse_report := λ _, Generator.Raises "not asked";
       Audited.create_json := λ _, Generator.Returns
         {| Generator.choices :=
              [ {| Generator.message_of :=
                     {| Generator.message_content := Some "[]" |} |} ] |} |} in
  let self :=
    Audited.__init__ {| Audited.verify := λ _, Generator.Returns true |}
      llm_client Audited.default_risk_threshold in
  (Audited._audit_program json_loads json_dumps self (JObj []) "Is 2 even?" []).1
  = Generator.Raises "'list' object has no attribute 'get'".
Proof.
  intros json_loads json_dumps llm_client self.
  pose proof (proj1 (proj2 (proj2
                (audit_errors_escape json_loads json_dumps self (JObj [])
                   "Is 2 even?" [] I)))
                _ _ "[]" (JArr []) eq_refl eq_refl eq_refl
                (λ d, ltac:(discriminate))) as Hrun.
  by rewrite Hrun.
Defined.

Lemma query_feedback_witness :
  let build_prompt question := "Question: " +:+ question in
  let json_loads s :=
    if String.eqb s "{p}" then Generator.Decoded (JObj [("sorts", JArr [])])
    else Generator.Decoded
           (JObj [("risk_score", JInt 9); ("justification", JStr "loaded terms")]) in
  let json_dumps (j : Json.t) := "{}" in
  let model_dump_json (p : StructuredProgram.t) := "" in
  let str_of (j : Json.t) := "" in
  let NamedTemporaryFile (log : list Audited.event) :=
    Generator.Returns "/tmp/program.json" in
  let json_dump (log : list Audited.event) := Generator.Returns () in
  let remove (log : list Audited.event) := Generator.Returns () in
  let llm_client :=
    {| Audited.to_generator :=
         {| Generator.responses := None;
            Generator.create := λ _, Generator.Returns
              {| Generator.choices :=
                   [ {| Generator.message_of :=
                          {| Generator.message_content := Some "{p}" |} |} ] |} |};
       Audited.parse_report := λ _, Generator.Raises "not asked";
       Audited.create_json := λ _, Generator.Returns
         {| Generator.choices :=
              [ {| Generator.message_of :=
                     {| Generator.message_content := Some "answer" |} |} ] |} |} in
  let self :=
    Audited.__init__ {| Audited.verify := λ _, Generator.Returns true |}
      llm_client Audited.default_risk_threshold in
  ∃ out first audit corrected rest,
    Audited.query build_prompt "" json_loads json_dumps model_dump_json str_of
      NamedTemporaryFile json_dump remove self "Is 2 even?" []
    = (out, [Audited.generator_request first; audit]
            ++ (Audited.generator_request <$> corrected) ++ rest)
    ∧ Forall (λ r, Generator.content <$> Generator.sent r !! 3
                   = Some ("There was an error processing your response:"
                           +:+ String "010"%char
                                 ("The initial program was rejected by a logical "
                                  +:+ "audit. Reason: loaded terms. Please generate "
                                  +:+ "a new, more neutral program based on "
                                  +:+ "objective, verifiable metrics.")
                           +:+ String "010"%char "Please fix the JSON accordingly."))
        corrected
    ∧ corrected ≠ [].
Proof.
  intros build_prompt json_loads json_dumps model_dump_json str_of NamedTemporaryFile
    json_dump remove llm_client self.
  destruct (query_feedback build_prompt "" json_loads json_dumps model_dump_json
              str_of NamedTemporaryFile json_dump remove self "Is 2 even?" []
              _ _ _ _ _ eq_refl eq_refl eq_refl eq_refl)
    as (out & corrected & rest & Hrun & Hcorrected & Hsent & _).
  exists out. eexists _, _. exists corrected, rest.
  split; [exact Hrun|]. split; [|done].
  eapply Forall_impl; [exact Hsent|]. by intros r ->.
Defined.
